(** * Analyzers of the SEO analyzer content script, and the scores of its popup

    A shallow embedding of functions of [src/content/analyzer.js]: the
    text functions ([countText], [analyzeReadability], [countSyllables],
    [analyzeNgrams], [buildNgramCounts], [getTopN]) with the properties
    the specification states about them, and the analyzers of the page
    ([analyzeMeta], [analyzeHeadings], [analyzeImages], [analyzeLinks],
    [analyzeSchema], [extractSchemaTypes], [analyzeContent],
    [analyzeTextToHtml], [analyzeSchemaValidation], [analyzeLazyImages],
    [analyzeIframes], [analyzeKeywordDensity]); and of
    [src/popup/popup.js]: [getScoreClass], the overall score of
    [displayResults], the labels of [renderReadabilitySection] and the
    bar width of [renderNgramsSection].

    Conventions of the embedding.
    - A JavaScript string is a Rocq [string]; its characters are the code
      units U+0000 .. U+00FF.  Texts with code units above U+00FF are
      outside the model.  A JavaScript string has fewer than 2^53 code
      units; the theorems that need the bound state it.  The two marks
      that [analyzeMeta] writes into a detail, which are above U+00FF,
      stand in the literal as their UTF-8 bytes.
    - The DOM is outside the model.  A text analyzer takes the text that
      the source obtains from [bodyClone.textContent || ''].  Every other
      analyzer takes, for the elements that its selectors find, records
      of what the source reads of them: an attribute is [None] when
      [getAttribute] returns [null], and the element of a [querySelector]
      is [None] when there is none.  The host name of a link and the
      value that [JSON.parse] returns are read as the browser gives them.
    - An exception that the source does not catch is the result [None]
      of the function.
    - Each regular expression of the source is embedded as the scanner
      that computes its matches (leftmost, greedy, with backtracking); the
      comment of the scanner quotes the expression.
    - A Number that holds a length or a count is an integer ([nat] or [Z]);
      the Numbers of the readability formulas, of the ratios and of the
      percentages are IEEE-754 binary64 values ([spec_float] with
      [prec = 53] and [emax = 1024], the operations of [SpecFloat], round
      to nearest even).
    - An object used as a map is the list of its own properties in
      creation order.
    - [null] is [None]. *)

From Stdlib Require Import Bool Arith ZArith QArith Qround Lia List Ascii String.
From Stdlib Require Import SpecFloat Sorted DecimalString.
Import ListNotations.

Local Open Scope string_scope.
Local Open Scope nat_scope.

(* ================================================================== *)
(** * Part I. The embedding                                             *)
(* ================================================================== *)

(** ** Characters *)

Definition code (c : ascii) : N := N_of_ascii c.

Definition inRange (lo hi : N) (c : ascii) : bool :=
  ((lo <=? code c) && (code c <=? hi))%N.

(** The class [\s] of a regular expression, which is also the set of
    characters that [String.prototype.trim] strips: TAB, LF, VT, FF, CR,
    SPACE and NO-BREAK SPACE are its members below U+0100. *)
Definition isSpace (c : ascii) : bool :=
  inRange 9 13 c || (code c =? 32)%N || (code c =? 160)%N.

(** [[.!?]] *)
Definition isTerminator (c : ascii) : bool :=
  (code c =? 46)%N || (code c =? 33)%N || (code c =? 63)%N.

(** [\n] *)
Definition isNewline (c : ascii) : bool := (code c =? 10)%N.

(** [[a-z]] *)
Definition isLower (c : ascii) : bool := inRange 97 122 c.

(** [[0-9]] *)
Definition isDigit (c : ascii) : bool := inRange 48 57 c.

(** [[a-z0-9]] *)
Definition isAlnum (c : ascii) : bool := isLower c || isDigit c.

(** The two extra members of [[a-z0-9'-]]. *)
Definition isJoiner (c : ascii) : bool :=
  (code c =? 39)%N || (code c =? 45)%N.

(** [[aeiouy]] *)
Definition isVowel (c : ascii) : bool :=
  (code c =? 97)%N || (code c =? 101)%N || (code c =? 105)%N ||
  (code c =? 111)%N || (code c =? 117)%N || (code c =? 121)%N.

(** One character of [String.prototype.toLowerCase]: A-Z, and the
    upper-case letters of U+00C0 .. U+00DE (U+00D7, the multiplication
    sign, is not a letter), move up by 32. *)
Definition toLowerChar (c : ascii) : ascii :=
  if inRange 65 90 c || (inRange 192 222 c && negb (code c =? 215)%N)
  then ascii_of_N (code c + 32)
  else c.

(** ** String primitives *)

Definition isEmpty (s : string) : bool :=
  match s with EmptyString => true | String _ _ => false end.

Fixpoint toLowerCase (s : string) : string :=
  match s with
  | EmptyString => EmptyString
  | String c s' => String (toLowerChar c) (toLowerCase s')
  end.

(** [s.replace(/[..]/g, '')] for a one-character class: the characters of
    the class are removed, so those that satisfy [keep] stay. *)
Fixpoint keepChars (keep : ascii -> bool) (s : string) : string :=
  match s with
  | EmptyString => EmptyString
  | String c s' =>
      if keep c then String c (keepChars keep s') else keepChars keep s'
  end.

(** [s.replace(/\s+/g, ' ')]: every maximal run of white space becomes one
    space.  [inRun] tells that the character before [s] was white space. *)
Fixpoint collapseFrom (inRun : bool) (s : string) : string :=
  match s with
  | EmptyString => EmptyString
  | String c s' =>
      if isSpace c
      then (if inRun then collapseFrom true s'
            else String " " (collapseFrom true s'))
      else String c (collapseFrom false s')
  end.

Definition collapseSpaces (s : string) : string := collapseFrom false s.

Fixpoint trimStart (s : string) : string :=
  match s with
  | EmptyString => EmptyString
  | String c s' => if isSpace c then trimStart s' else s
  end.

Fixpoint trimEnd (s : string) : string :=
  match s with
  | EmptyString => EmptyString
  | String c s' =>
      let r := trimEnd s' in
      if isSpace c && isEmpty r then EmptyString else String c r
  end.

(** [s.trim()] *)
Definition trim (s : string) : string := trimEnd (trimStart s).

(** [s.split(/\s+/)]: the pieces between the maximal runs of white space.
    The head of the result is the piece that the characters read so far
    belong to; a separator at either end leaves an empty piece there, and
    the empty string splits into one empty piece. *)
Fixpoint splitFrom (inRun : bool) (s : string) : list string :=
  match s with
  | EmptyString => [EmptyString]
  | String c s' =>
      if isSpace c
      then (if inRun then splitFrom true s'
            else EmptyString :: splitFrom true s')
      else match splitFrom false s' with
           | p :: ps => String c p :: ps
           | [] => [String c EmptyString]
           end
  end.

Definition splitSpaces (s : string) : list string := splitFrom false s.

(** [s.match(/[.!?]+(\s|$)/g)]: the matches, or [None] for [null] when
    there is none.  A match is a maximal run of terminators together with
    the white-space character after it, if any; a run that something else
    follows matches at none of its positions.  [run] holds the terminators
    read since the run began. *)
Fixpoint sentenceEndsFrom (run : string) (s : string) : list string :=
  match s with
  | EmptyString =>
      if isEmpty run then [] else [run]
  | String c s' =>
      if isTerminator c then sentenceEndsFrom (run ++ String c EmptyString) s'
      else if isSpace c && negb (isEmpty run)
           then (run ++ String c EmptyString) :: sentenceEndsFrom EmptyString s'
           else sentenceEndsFrom EmptyString s'
  end.

Definition matchSentenceEnds (s : string) : option (list string) :=
  match sentenceEndsFrom EmptyString s with
  | [] => None
  | ms => Some ms
  end.

(** [x || []] for the result of [match]. *)
Definition orEmpty {A : Type} (o : option (list A)) : list A :=
  match o with Some l => l | None => [] end.

(** [s.split(/\n\s*\n/)].  A separator runs from a line feed to the last
    line feed of the white-space run that the first one opens, when there
    is a second one.  The scanner keeps the piece [cur] being read and,
    inside a white-space run opened by a line feed, [Some (ws, tail, two)]:
    the run read so far, its part after the last line feed, and whether a
    second line feed was seen. *)
Fixpoint splitBlankFrom (cur : string) (pend : option (string * string * bool))
    (s : string) : list string :=
  match s with
  | EmptyString =>
      match pend with
      | None => [cur]
      | Some (ws, tail, two) => if two then [cur; tail] else [cur ++ ws]
      end
  | String c s' =>
      let c1 := String c EmptyString in
      match pend with
      | None =>
          if isNewline c then splitBlankFrom cur (Some (c1, EmptyString, false)) s'
          else splitBlankFrom (cur ++ c1) None s'
      | Some (ws, tail, two) =>
          if isNewline c then splitBlankFrom cur (Some (ws ++ c1, EmptyString, true)) s'
          else if isSpace c then splitBlankFrom cur (Some (ws ++ c1, tail ++ c1, two)) s'
          else if two then cur :: splitBlankFrom (tail ++ c1) None s'
          else splitBlankFrom (cur ++ ws ++ c1) None s'
      end
  end.

Definition splitBlankLines (s : string) : list string :=
  splitBlankFrom EmptyString None s.

(** ** [countText] *)

Record ContentStats := {
  characters : Z;
  charactersNoSpaces : Z;
  words : Z;
  sentences : Z;
  paragraphs : Z;
  readingTimeMin : Z
}.

Definition lengthZ (s : string) : Z := Z.of_nat (String.length s).
Definition countZ {A : Type} (l : list A) : Z := Z.of_nat (List.length l).

(** [Math.ceil(a / b)] for two integers held in Numbers, [b > 0].  The
    quotient of the source is a binary64 value; below 2^53 its rounding
    error is smaller than the distance [1 / b] of an inexact quotient to
    the next integer for [b = 238], so the ceiling is that of the exact
    quotient. *)
Definition ceilDiv (a b : Z) : Z := Qceiling (inject_Z a / inject_Z b).

Definition countText (text : string) : ContentStats :=
  let cleaned := trim (collapseSpaces text) in
  let characters := lengthZ cleaned in
  let charactersNoSpaces := lengthZ (keepChars (fun c => negb (isSpace c)) cleaned) in
  let words := if isEmpty cleaned then 0%Z else countZ (splitSpaces cleaned) in
  let sentences :=
    if isEmpty cleaned then 0%Z else countZ (orEmpty (matchSentenceEnds cleaned)) in
  let paragraphs :=
    if isEmpty (trim text) then 0%Z
    else countZ (filter (fun p => negb (isEmpty (trim p)))
                        (splitBlankLines (trim text))) in
  let readingTimeMin := Z.max 1 (ceilDiv words 238) in
  {| characters := characters;
     charactersNoSpaces := charactersNoSpaces;
     words := words;
     sentences := sentences;
     paragraphs := paragraphs;
     readingTimeMin := readingTimeMin |}.

(** ** [countSyllables] *)

(** [word.match(/[aeiouy]+/g)]: the maximal runs of vowels, [None] for
    [null] when the word has no vowel.  [run] is the run being read. *)
Fixpoint vowelGroupsFrom (run : string) (s : string) : list string :=
  match s with
  | EmptyString => if isEmpty run then [] else [run]
  | String c s' =>
      if isVowel c then vowelGroupsFrom (run ++ String c EmptyString) s'
      else if isEmpty run then vowelGroupsFrom EmptyString s'
           else run :: vowelGroupsFrom EmptyString s'
  end.

Definition matchVowelGroups (s : string) : option (list string) :=
  match vowelGroupsFrom EmptyString s with
  | [] => None
  | gs => Some gs
  end.

(** [word.replace(/e$/, '')] *)
Fixpoint dropFinalE (s : string) : string :=
  match s with
  | EmptyString => EmptyString
  | String c s' =>
      if isEmpty s' && (code c =? 101)%N then EmptyString
      else String c (dropFinalE s')
  end.

Definition countSyllables (word : string) : nat :=
  let word := keepChars isLower (toLowerCase word) in
  if isEmpty word || (String.length word <=? 2) then 1
  else
    let word := dropFinalE word in
    let vowelGroups := matchVowelGroups word in
    let count := match vowelGroups with
                 | Some gs => List.length gs
                 | None => 1
                 end in
    Nat.max 1 count.

(** ** Numbers of the readability formulas: binary64 *)

Definition prec : Z := 53.
Definition emax : Z := 1024.

Definition num : Type := spec_float.

(** The Number that holds the integer [z]. *)
Definition ofZ (z : Z) : num := binary_normalize prec emax z 0 false.
Definition ofNat (n : nat) : num := ofZ (Z.of_nat n).

Definition fadd : num -> num -> num := SFadd prec emax.
Definition fsub : num -> num -> num := SFsub prec emax.
Definition fmul : num -> num -> num := SFmul prec emax.
Definition fdiv : num -> num -> num := SFdiv prec emax.

(** [x >= y] and [x < y]; both are false when an operand is NaN. *)
Definition fge (x y : num) : bool := SFleb y x.
Definition flt (x y : num) : bool := SFltb x y.

(** The binary64 value nearest to [n / d] for positive integers. *)
Definition nearestRatio (s : bool) (n d : Z) : num :=
  let '(q, e, l) := SFdiv_core_binary prec emax n 0 d 0 in
  binary_round_aux prec emax s q e l.

(** A decimal literal of the source, [digits / 10^scale], as the parser
    reads it: the nearest binary64 value. *)
Definition literal (digits : positive) (scale : nat) : num :=
  nearestRatio false (Zpos digits) (10 ^ Z.of_nat scale).

(** [|x| >= 10^21] for [|x| = m * 2^e]. *)
Definition atLeast1e21 (m : positive) (e : Z) : bool :=
  match e with
  | Zneg p => (10 ^ 21 * 2 ^ Zpos p <=? Zpos m)%Z
  | _ => (10 ^ 21 <=? Zpos m * 2 ^ e)%Z
  end.

(** The integer [n] for which [n / 10^d] is nearest to [m * 2^e], the
    larger one of two. *)
Definition scaledRound (m : positive) (e : Z) (d : nat) : Z :=
  let a := (Zpos m * 10 ^ Z.of_nat d)%Z in
  match e with
  | Zneg p => ((2 * a + 2 ^ Zpos p) / 2 ^ (Zpos p + 1))%Z
  | _ => (a * 2 ^ e)%Z
  end.

(** [+x.toFixed(d)]: [toFixed] writes [x] with [d] decimals, rounding the
    exact value of [|x|] half up and keeping the sign of a negative [x];
    from 10^21 on, and for NaN and the infinities, it writes [x] itself;
    the unary plus reads the string back as the nearest Number. *)
Definition toFixedNum (d : nat) (x : num) : num :=
  match x with
  | S754_nan => S754_nan
  | S754_infinity _ => x
  | S754_zero _ => S754_zero false
  | S754_finite s m e =>
      if atLeast1e21 m e then x
      else match scaledRound m e d with
           | Zpos n => nearestRatio s (Zpos n) (10 ^ Z.of_nat d)
           | _ => S754_zero s
           end
  end.

(** [Math.max] and [Math.min] of two Numbers: NaN if either is NaN, and
    +0 is larger than -0. *)
Definition Math_max (x y : num) : num :=
  match SFcompare x y with
  | None => S754_nan
  | Some Lt => y
  | Some Gt => x
  | Some Eq => match x with S754_zero true => y | _ => x end
  end.

Definition Math_min (x y : num) : num :=
  match SFcompare x y with
  | None => S754_nan
  | Some Lt => x
  | Some Gt => y
  | Some Eq => match x with S754_zero false => y | _ => x end
  end.

Declare Scope num_scope.
Delimit Scope num_scope with num.
Infix "+" := fadd : num_scope.
Infix "-" := fsub : num_scope.
Infix "*" := fmul : num_scope.
Infix "/" := fdiv : num_scope.

(** ** [analyzeReadability] *)

(** Every numeric field holds a Number or [null]. *)
Record ReadabilityReport := {
  score : Z;
  fleschEase : option num;
  fleschKincaid : option num;
  avgSentenceLen : option num;
  avgWordLen : option num;
  syllablesPerWord : option num;
  message : option string
}.

(** The report of the guard of [analyzeReadability]. *)
Definition notEnoughText : ReadabilityReport :=
  {| score := 0;
     fleschEase := None;
     fleschKincaid := None;
     avgSentenceLen := Some (ofZ 0);
     avgWordLen := Some (ofZ 0);
     syllablesPerWord := Some (ofZ 0);
     message := Some "Not enough text to analyze (need 30+ words)" |}.

(** The locals of [analyzeReadability], as functions of the text content
    of the body. *)
Definition readabilityText (bodyText : string) : string :=
  trim (collapseSpaces bodyText).

Definition readabilityWords (bodyText : string) : list string :=
  splitSpaces (readabilityText bodyText).

Definition wordCountOf (bodyText : string) : nat :=
  List.length (readabilityWords bodyText).

Definition sentenceCountOf (bodyText : string) : nat :=
  Nat.max 1 (List.length (orEmpty (matchSentenceEnds (readabilityText bodyText)))).

Definition totalSyllablesOf (bodyText : string) : nat :=
  fold_left (fun sum w => sum + countSyllables w) (readabilityWords bodyText) 0.

Definition joinedLengthOf (bodyText : string) : nat :=
  String.length (String.concat "" (readabilityWords bodyText)).

(** The two formulas, on the three counts. *)
Definition fleschEaseOf (wordCount sentenceCount totalSyllables : nat) : num :=
  Math_max (ofZ 0) (Math_min (ofZ 100)
    (toFixedNum 1
       (literal 206835 3
        - literal 1015 3 * (ofNat wordCount / ofNat sentenceCount)
        - literal 846 1 * (ofNat totalSyllables / ofNat wordCount))%num)).

Definition fleschKincaidOf (wordCount sentenceCount totalSyllables : nat) : num :=
  Math_max (ofZ 0)
    (toFixedNum 1
       (literal 39 2 * (ofNat wordCount / ofNat sentenceCount)
        + literal 118 1 * (ofNat totalSyllables / ofNat wordCount)
        - literal 1559 2)%num).

Definition scoreOf (fleschEase : num) : Z :=
  if fge fleschEase (ofZ 60) then 100
  else if fge fleschEase (ofZ 40) then 70
  else if fge fleschEase (ofZ 20) then 40
  else 20.

Definition analyzeReadability (bodyText : string) : ReadabilityReport :=
  let text := readabilityText bodyText in
  if isEmpty text || (List.length (splitSpaces text) <? 30) then notEnoughText
  else
    let wordCount := wordCountOf bodyText in
    let sentenceCount := sentenceCountOf bodyText in
    let totalSyllables := totalSyllablesOf bodyText in
    let avgSentenceLen := toFixedNum 1 (ofNat wordCount / ofNat sentenceCount)%num in
    let avgWordLen := toFixedNum 1 (ofNat (joinedLengthOf bodyText) / ofNat wordCount)%num in
    let syllablesPerWord := toFixedNum 2 (ofNat totalSyllables / ofNat wordCount)%num in
    let fleschEase := fleschEaseOf wordCount sentenceCount totalSyllables in
    let fleschKincaid := fleschKincaidOf wordCount sentenceCount totalSyllables in
    let score := scoreOf fleschEase in
    {| score := score;
       fleschEase := Some fleschEase;
       fleschKincaid := Some fleschKincaid;
       avgSentenceLen := Some avgSentenceLen;
       avgWordLen := Some avgWordLen;
       syllablesPerWord := Some syllablesPerWord;
       message := None |}.

(** ** N-grams *)

(** [text.match(/[a-z0-9](?:[a-z0-9'-]*[a-z0-9])?/g)]: a token starts at
    a letter or digit and runs, through apostrophes and hyphens, to the
    last letter or digit of the run.  [cur] is the token read so far (it
    ends in a letter or digit) and [pend] the apostrophes and hyphens read
    after it, which belong to the token only if a letter or digit
    follows. *)
Fixpoint tokensFrom (cur pend : string) (s : string) : list string :=
  match s with
  | EmptyString => if isEmpty cur then [] else [cur]
  | String c s' =>
      let c1 := String c EmptyString in
      if isAlnum c then tokensFrom (cur ++ pend ++ c1) EmptyString s'
      else if isJoiner c
           then (if isEmpty cur then tokensFrom EmptyString EmptyString s'
                 else tokensFrom cur (pend ++ c1) s')
           else (if isEmpty cur then tokensFrom EmptyString EmptyString s'
                 else cur :: tokensFrom EmptyString EmptyString s')
  end.

Definition matchTokens (s : string) : option (list string) :=
  match tokensFrom EmptyString EmptyString s with
  | [] => None
  | ts => Some ts
  end.

(** The elements of the [Set] of stop words, as the source lists them. *)
Definition stopWords : list string :=
  ["a";"an";"the";"and";"or";"but";"in";"on";"at";"to";"for";"of";"with";"by";
   "from";"is";"it";"its";"this";"that";"are";"was";"were";"be";"been";"being";
   "have";"has";"had";"do";"does";"did";"will";"would";"could";"should";"may";
   "might";"shall";"can";"not";"no";"nor";"so";"if";"then";"than";"too";"very";
   "just";"about";"above";"after";"again";"all";"also";"am";"as";"because";
   "before";"between";"both";"each";"few";"get";"got";"he";"her";"here";"him";
   "his";"how";"i";"into";"me";"more";"most";"my";"new";"now";"of";"only";
   "other";"our";"out";"over";"own";"re";"same";"she";"some";"such";"there";
   "they";"their";"them";"these";"those";"through";"under";"up";"us";"we";
   "what";"when";"where";"which";"while";"who";"whom";"why";"you";"your";
   "able";"across";"already";"always";"among";"any";"around";"away";"back";
   "become";"been";"below";"come";"down";"during";"even";"every";"find";
   "first";"go";"going";"good";"great";"help";"here";"high";"however";
   "into";"keep";"know";"last";"let";"like";"long";"look";"made";"make";
   "many";"much";"must";"need";"next";"off";"often";"old";"once";"one";
   "only";"part";"per";"put";"said";"say";"see";"seem";"set";"show";
   "since";"still";"take";"tell";"thing";"think";"time";"two";"use";
   "want";"way";"well";"work";"year"].

(** [set.has(w)] *)
Definition has (set : list string) (w : string) : bool :=
  existsb (String.eqb w) set.

(** [words.slice(i, j)] for [0 <= i <= j]. *)
Definition slice {A : Type} (l : list A) (i j : nat) : list A :=
  firstn (j - i) (skipn i l).

(** [parts.join(' ')] *)
Definition joinSpace (parts : list string) : string := String.concat " " parts.

(** [gram.split(' ')]: the pieces between the spaces; the head of the
    result is the piece that the characters read so far belong to. *)
Fixpoint splitSpace (s : string) : list string :=
  match s with
  | EmptyString => [EmptyString]
  | String c s' =>
      if (code c =? 32)%N then EmptyString :: splitSpace s'
      else match splitSpace s' with
           | p :: ps => String c p :: ps
           | [] => [String c EmptyString]
           end
  end.

(** The value of a property of the frequency object [counts].  It is a
    count, except under the one key that a token can share with a property
    of [Object.prototype]: [counts['constructor']] reads the inherited
    function [Object] until the key is written, [(f || 0) + 1] is then the
    string ["function Object() { [native code] }1"], and each later
    increment appends one more ["1"].  [Tainted k] is that string with [k]
    ones; it is not a numeral. *)
Inductive cell :=
  | Count (n : nat)
  | Tainted (ones : nat).

(** An object with string keys: its own properties in creation order. *)
Definition jsobject : Type := list (string * cell).

Fixpoint getOwn (o : jsobject) (k : string) : option cell :=
  match o with
  | [] => None
  | (k', v) :: o' => if String.eqb k k' then Some v else getOwn o' k
  end.

(** [o[k] = v]: an own property keeps its place, a new one goes last. *)
Fixpoint setOwn (o : jsobject) (k : string) (v : cell) : jsobject :=
  match o with
  | [] => [(k, v)]
  | (k', v') :: o' =>
      if String.eqb k k' then (k', v) :: o' else (k', v') :: setOwn o' k v
  end.

(** The property names of [Object.prototype] that a token can spell. *)
Definition inheritedKey (k : string) : bool := String.eqb k "constructor".

(** [(counts[k] || 0) + 1] *)
Definition increment (counts : jsobject) (k : string) : cell :=
  match getOwn counts k with
  | Some (Count n) => Count (n + 1)
  | Some (Tainted j) => Tainted (j + 1)
  | None => if inheritedKey k then Tainted 1 else Count 1
  end.

(** The test of the [continue] of [buildNgramCounts]: [n > 1], a set of
    stop words was passed, and every part of the gram is in it.
    [stopWords] is [None] when the caller passes no third argument. *)
Definition skipsGram (n : nat) (stopWords : option (list string))
    (gram : string) : bool :=
  match stopWords with
  | Some sw => (1 <? n) && forallb (has sw) (splitSpace gram)
  | None => false
  end.

(** One turn of the loop of [buildNgramCounts]. *)
Definition countGram (words : list string) (n : nat)
    (stopWords : option (list string)) (counts : jsobject) (i : nat) : jsobject :=
  let gram := joinSpace (slice words i (i + n)) in
  if skipsGram n stopWords gram then counts
  else setOwn counts gram (increment counts gram).

(** The loop runs over [i = 0 .. words.length - n]. *)
Definition buildNgramCounts (words : list string) (n : nat)
    (stopWords : option (list string)) : jsobject :=
  fold_left (countGram words n stopWords) (seq 0 (List.length words + 1 - n)) [].

(** The decimal value of a string of digits. *)
Fixpoint digitsValue (acc : N) (s : string) : option N :=
  match s with
  | EmptyString => Some acc
  | String c s' =>
      if isDigit c then digitsValue (10 * acc + (code c - 48))%N s' else None
  end.

(** A key is an array index when it is the canonical numeral of an integer
    from 0 to 2^32 - 2. *)
Definition arrayIndex (k : string) : option N :=
  match k with
  | EmptyString => None
  | String c rest =>
      if (code c =? 48)%N && negb (isEmpty rest) then None
      else match digitsValue 0 k with
           | Some v => if (v <=? 4294967294)%N then Some v else None
           | None => None
           end
  end.

Definition isIndexKey (e : string * cell) : bool :=
  match arrayIndex (fst e) with Some _ => true | None => false end.

Definition indexOf (e : string * cell) : N :=
  match arrayIndex (fst e) with Some v => v | None => 0%N end.

Fixpoint insertByIndex (e : string * cell) (l : list (string * cell)) :=
  match l with
  | [] => [e]
  | e' :: l' =>
      if (indexOf e <=? indexOf e')%N then e :: l else e' :: insertByIndex e l'
  end.

(** [Object.entries(o)]: the array-index keys in ascending order, then the
    other keys in creation order. *)
Definition Object_entries (o : jsobject) : list (string * cell) :=
  (fold_right insertByIndex [] (filter isIndexKey o)
   ++ filter (fun e => negb (isIndexKey e)) o)%list.

(** [count >= 2]; the string of a tainted cell converts to NaN. *)
Definition atLeastTwo (c : cell) : bool :=
  match c with
  | Count n => 2 <=? n
  | Tainted _ => false
  end.

(** [b[1] - a[1] > 0], the comparator of [getTopN] asking for [b] before
    [a]; with a tainted cell the difference is NaN, which asks for
    nothing. *)
Definition wantsAfter (a b : string * cell) : bool :=
  match snd a, snd b with
  | Count x, Count y => x <? y
  | _, _ => false
  end.

(** [entries.sort((a, b) => b[1] - a[1])].  [Array.prototype.sort] is
    stable, and a stable sort has one result; insertion from the right
    computes it. *)
Fixpoint insertEntry (a : string * cell) (l : list (string * cell)) :=
  match l with
  | [] => [a]
  | b :: l' => if wantsAfter a b then b :: insertEntry a l' else a :: l
  end.

Definition sortByCount (l : list (string * cell)) : list (string * cell) :=
  fold_right insertEntry [] l.

Record NgramEntry := { phrase : string; count : cell }.

Definition getTopN (counts : jsobject) (n : nat) : list NgramEntry :=
  map (fun e => {| phrase := fst e; count := snd e |})
      (firstn n
         (sortByCount
            (filter (fun e => atLeastTwo (snd e)) (Object_entries counts)))).

Record NgramReport := {
  unigrams : list NgramEntry;
  bigrams : list NgramEntry;
  trigrams : list NgramEntry;
  totalWords : nat;
  uniqueWords : nat
}.

(** The locals of [analyzeNgrams], as functions of the text content. *)
Definition ngramWords (bodyText : string) : list string :=
  orEmpty (matchTokens (toLowerCase bodyText)).

Definition longer (w : string) : bool := 1 <? String.length w.

Definition ngramFiltered (bodyText : string) : list string :=
  filter (fun w => negb (has stopWords w) && longer w) (ngramWords bodyText).

Definition unigramCounts (bodyText : string) : jsobject :=
  buildNgramCounts (ngramFiltered bodyText) 1 None.

Definition bigramCounts (bodyText : string) : jsobject :=
  buildNgramCounts (filter longer (ngramWords bodyText)) 2 (Some stopWords).

Definition trigramCounts (bodyText : string) : jsobject :=
  buildNgramCounts (filter longer (ngramWords bodyText)) 3 (Some stopWords).

Definition analyzeNgrams (bodyText : string) : NgramReport :=
  {| unigrams := getTopN (unigramCounts bodyText) 15;
     bigrams := getTopN (bigramCounts bodyText) 10;
     trigrams := getTopN (trigramCounts bodyText) 10;
     totalWords := List.length (ngramWords bodyText);
     uniqueWords := List.length (nodup string_dec (ngramWords bodyText)) |}.

(** ** The other analyzers: strings, numerals and Numbers *)

(** [String(n)] for a count, as a template literal writes it. *)
Definition numeral (n : nat) : string := NilEmpty.string_of_uint (Nat.to_uint n).

(** [s || alt] for a string. *)
Definition orElse (s alt : string) : string := if isEmpty s then alt else s.

(** An attribute as [getAttribute] returns it: [None] is [null]. *)
Definition attribute : Type := option string.

(** [a || alt] for an attribute. *)
Definition valueOr (a : attribute) (alt : string) : string :=
  match a with Some s => orElse s alt | None => alt end.

(** An attribute as a condition: [null] and the empty string are false. *)
Definition truthy (a : attribute) : bool :=
  match a with Some s => negb (isEmpty s) | None => false end.

(** [el ? el.getAttribute(name) : ''] for an element that [querySelector]
    may not find: [None] is the missing element, [Some a] the attribute
    of the element found. *)
Definition attributeOf (el : option attribute) : attribute :=
  match el with Some a => a | None => Some EmptyString end.

(** [s.substring(0, n)] *)
Definition substringTo (n : nat) (s : string) : string := substring 0 n s.

(** [s.startsWith(p)] *)
Definition startsWith (s p : string) : bool := prefix p s.

(** [s.includes(sub)] *)
Fixpoint includes (s sub : string) : bool :=
  prefix sub s ||
  match s with
  | EmptyString => false
  | String _ s' => includes s' sub
  end.

(** [s.split(sep)] for a separator of one character; the head of the
    result is the piece that the characters read so far belong to. *)
Fixpoint splitOn (sep : ascii) (s : string) : list string :=
  match s with
  | EmptyString => [EmptyString]
  | String c s' =>
      if Ascii.eqb c sep then EmptyString :: splitOn sep s'
      else match splitOn sep s' with
           | p :: ps => String c p :: ps
           | [] => [String c EmptyString]
           end
  end.

(** [parts.pop()] and [parts[0]] for the result of a [split], which is
    never empty. *)
Definition pop (parts : list string) : string := last parts EmptyString.
Definition first (parts : list string) : string := hd EmptyString parts.

(** [Math.round(x)]: the integer nearest to [x], the larger one of two;
    -0 for a negative [x] that rounds to zero. *)
Definition Math_round (x : num) : num :=
  match x with
  | S754_finite s m (Zneg p) =>
      if s
      then match ((2 ^ Zpos p - 2 * Zpos m) / 2 ^ (Zpos p + 1))%Z with
           | Zneg n => ofZ (Zneg n)
           | _ => S754_zero true
           end
      else match ((2 * Zpos m + 2 ^ Zpos p) / 2 ^ (Zpos p + 1))%Z with
           | Zpos n => ofZ (Zpos n)
           | _ => S754_zero false
           end
  | _ => x
  end.

(** [Math.round((a / b) * 100)] for two counts. *)
Definition percent (a b : nat) : num :=
  Math_round (ofNat a / ofNat b * ofZ 100)%num.

(** An entry of an [issues] array. *)
Module Issue.
Record t := { type : string; message : string }.
End Issue.

(** ** [analyzeMeta] *)

Module Meta.

(** What [analyzeMeta] reads from the document: [document.title], for each
    [querySelector] the attribute it then reads ([None] when the element
    is not found) or whether an element was found, and
    [document.documentElement.lang]. *)
Record Page := {
  title : string;
  descMeta : option attribute;
  canonical : option attribute;
  robotsMeta : option attribute;
  ogTitle : bool;
  ogDesc : bool;
  ogImage : bool;
  twitterCard : option attribute;
  viewport : bool;
  htmlLang : string
}.

(** [value] is [null] for [None]; [detail] is missing for [None]. *)
Record Item := {
  key : string;
  label : string;
  value : attribute;
  status : string;
  detail : option string
}.

Record Results := {
  score : num;
  items : list Item;
  issues : list Issue.t
}.

End Meta.

(** [!s ? 'fail' : (length < lo || length > hi) ? 'warn' : 'pass'] *)
Definition lengthStatus (s : string) (lo hi : nat) : string :=
  if isEmpty s then "fail"
  else if (String.length s <? lo) || (hi <? String.length s) then "warn"
       else "pass".

(** [`${length} characters${length < lo ? ' (too short)' : length > hi ? ' (too long)' : ''}`] *)
Definition lengthDetail (s : string) (lo hi : nat) : string :=
  numeral (String.length s) ++ " characters" ++
  (if String.length s <? lo then " (too short)"
   else if hi <? String.length s then " (too long)" else "").

(** [found ? '✓' : '✗'], the two marks in UTF-8. *)
Definition mark (found : bool) : string := if found then "✓" else "✗".

(** The eight entries that [analyzeMeta] pushes, for the values of its
    locals [description] and [robots]. *)
Definition metaItems (page : Meta.Page) (description robots : string)
    : list Meta.Item :=
  let title := Meta.title page in
  let canonicalHref := attributeOf (Meta.canonical page) in
  let isNoindex := includes (toLowerCase robots) "noindex" in
  let isNofollow := includes (toLowerCase robots) "nofollow" in
  let ogCount :=
    List.length (filter (fun found : bool => found)
                   [Meta.ogTitle page; Meta.ogDesc page; Meta.ogImage page]) in
  [ {| Meta.key := "title";
       Meta.label := "Title";
       Meta.value := Some (orElse title "(missing)");
       Meta.status := lengthStatus title 30 60;
       Meta.detail := Some (lengthDetail title 30 60) |};
    {| Meta.key := "description";
       Meta.label := "Meta Description";
       Meta.value := Some (orElse description "(missing)");
       Meta.status := lengthStatus description 120 160;
       Meta.detail :=
         Some (if isEmpty description then "Missing meta description"
               else lengthDetail description 120 160) |};
    {| Meta.key := "canonical";
       Meta.label := "Canonical URL";
       Meta.value := Some (valueOr canonicalHref "(missing)");
       Meta.status := if truthy canonicalHref then "pass" else "warn";
       Meta.detail := None |};
    {| Meta.key := "robots";
       Meta.label := "Robots";
       Meta.value := Some (orElse robots "index, follow (default)");
       Meta.status := if isNoindex then "warn" else "info";
       Meta.detail :=
         Some (if isNoindex then "Page is noindexed!"
               else if isNofollow then "Links are nofollowed" else "") |};
    {| Meta.key := "og";
       Meta.label := "Open Graph Tags";
       Meta.value :=
         Some (if ogCount =? 3 then "Complete"
               else numeral ogCount ++ "/3 present");
       Meta.status :=
         if ogCount =? 3 then "pass" else if ogCount =? 0 then "warn" else "info";
       Meta.detail :=
         Some ("Title: " ++ mark (Meta.ogTitle page) ++
               ", Description: " ++ mark (Meta.ogDesc page) ++
               ", Image: " ++ mark (Meta.ogImage page)) |};
    {| Meta.key := "twitter";
       Meta.label := "Twitter Card";
       Meta.value :=
         match Meta.twitterCard page with
         | Some content => content
         | None => Some "(not set)"
         end;
       Meta.status :=
         match Meta.twitterCard page with Some _ => "pass" | None => "info" end;
       Meta.detail := None |};
    {| Meta.key := "viewport";
       Meta.label := "Viewport";
       Meta.value := Some (if Meta.viewport page then "Set" else "(missing)");
       Meta.status := if Meta.viewport page then "pass" else "fail";
       Meta.detail := None |};
    {| Meta.key := "lang";
       Meta.label := "HTML Lang";
       Meta.value := Some (orElse (Meta.htmlLang page) "(missing)");
       Meta.status := if isEmpty (Meta.htmlLang page) then "warn" else "pass";
       Meta.detail := None |} ].

(** [items.filter(i => i.status === 'pass').length] *)
Definition passCount (items : list Meta.Item) : nat :=
  List.length (filter (fun i => String.eqb (Meta.status i) "pass") items).

(** [analyzeMeta].  The result is [None] when the function throws: the
    locals [description] and [robots] are [null] when the element is there
    without a [content] attribute, and [description.length] and
    [robots.toLowerCase()] are then a TypeError. *)
Definition analyzeMeta (page : Meta.Page) : option Meta.Results :=
  match attributeOf (Meta.descMeta page), attributeOf (Meta.robotsMeta page) with
  | Some description, Some robots =>
      let items := metaItems page description robots in
      Some {| Meta.score := percent (passCount items) (List.length items);
              Meta.items := items;
              Meta.issues := [] |}
  | _, _ => None
  end.

(** ** [analyzeHeadings] *)

Module Headings.

(** An element that [querySelectorAll('h1, h2, h3, h4, h5, h6')] returns:
    its tag and its text content. *)
Inductive TagName := H1 | H2 | H3 | H4 | H5 | H6.

Record Element := { tagName : TagName; textContent : string }.

Record Item := { tag : string; text : string; level : nat }.

Record Stats := {
  h1 : nat; h2 : nat; h3 : nat; h4 : nat; h5 : nat; h6 : nat; total : nat
}.

Record Results := {
  score : Z;
  items : list Item;
  issues : list Issue.t;
  stats : Stats
}.

End Headings.

(** [h.tagName.toLowerCase()] *)
Definition lowerTag (t : Headings.TagName) : string :=
  match t with
  | Headings.H1 => "h1" | Headings.H2 => "h2" | Headings.H3 => "h3"
  | Headings.H4 => "h4" | Headings.H5 => "h5" | Headings.H6 => "h6"
  end.

(** [parseInt(tag.charAt(1))] for a tag whose second character is a
    digit. *)
Definition levelOfTag (tag : string) : nat :=
  match get 1 tag with
  | Some c => N.to_nat (code c - 48)
  | None => 0
  end.

(** [stats[tag]++; stats.total++] *)
Definition countTag (s : Headings.Stats) (tag : string) : Headings.Stats :=
  {| Headings.h1 := Headings.h1 s + (if String.eqb tag "h1" then 1 else 0);
     Headings.h2 := Headings.h2 s + (if String.eqb tag "h2" then 1 else 0);
     Headings.h3 := Headings.h3 s + (if String.eqb tag "h3" then 1 else 0);
     Headings.h4 := Headings.h4 s + (if String.eqb tag "h4" then 1 else 0);
     Headings.h5 := Headings.h5 s + (if String.eqb tag "h5" then 1 else 0);
     Headings.h6 := Headings.h6 s + (if String.eqb tag "h6" then 1 else 0);
     Headings.total := Headings.total s + 1 |}.

Definition headingItem (h : Headings.Element) : Headings.Item :=
  let tag := lowerTag (Headings.tagName h) in
  {| Headings.tag := tag;
     Headings.text := substringTo 100 (trim (Headings.textContent h));
     Headings.level := levelOfTag tag |}.

(** One turn of the first loop: the statistics and the items. *)
Definition collectHeading (acc : Headings.Stats * list Headings.Item)
    (h : Headings.Element) : Headings.Stats * list Headings.Item :=
  (countTag (fst acc) (lowerTag (Headings.tagName h)),
   (snd acc ++ [headingItem h])%list).

(** One turn of the loop that checks the order: the state is
    [lastLevel], [skipIssue] and the issues. *)
Definition checkOrder (st : nat * bool * list Issue.t) (h : Headings.Item)
    : nat * bool * list Issue.t :=
  let '(lastLevel, skipIssue, issues) := st in
  if (lastLevel + 1 <? Headings.level h) && negb skipIssue
  then (Headings.level h, true,
        (issues ++
         [ {| Issue.type := "warn";
              Issue.message :=
                "Heading level skipped (H" ++ numeral lastLevel ++
                " to H" ++ numeral (Headings.level h) ++ ")" |} ])%list)
  else (Headings.level h, skipIssue, issues).

Definition analyzeHeadings (headings : list Headings.Element) : Headings.Results :=
  let '(stats, items) :=
    fold_left collectHeading headings
      ({| Headings.h1 := 0; Headings.h2 := 0; Headings.h3 := 0;
          Headings.h4 := 0; Headings.h5 := 0; Headings.h6 := 0;
          Headings.total := 0 |}, []) in
  let issues :=
    if Headings.h1 stats =? 0
    then [ {| Issue.type := "fail"; Issue.message := "No H1 tag found" |} ]
    else if 1 <? Headings.h1 stats
         then [ {| Issue.type := "warn";
                   Issue.message :=
                     "Multiple H1 tags (" ++ numeral (Headings.h1 stats) ++ ")" |} ]
         else [] in
  let '(_, skipIssue, issues) := fold_left checkOrder items (0, false, issues) in
  let score := 100%Z in
  let score :=
    if Headings.h1 stats =? 0 then (score - 40)%Z
    else if 1 <? Headings.h1 stats then (score - 20)%Z else score in
  let score := if skipIssue then (score - 20)%Z else score in
  let score := if Headings.total stats =? 0 then 0%Z else score in
  {| Headings.score := Z.max 0 score;
     Headings.items := items;
     Headings.issues := issues;
     Headings.stats := stats |}.

(** ** [analyzeImages] *)

(** An [img] element: [getAttribute('alt')], the [src] property and
    [dataset.src] ([None] when there is no [data-src]). *)
Module Img.
Record Element := { alt : attribute; src : string; datasetSrc : option string }.
End Img.

Module Images.

Record Item := { src : string; alt : string; status : string }.

Record Stats := { total : nat; withAlt : nat; withoutAlt : nat; decorative : nat }.

Record Results := {
  score : num;
  items : list Item;
  issues : list Issue.t;
  stats : Stats
}.

End Images.

(** [src.split('/').pop().split('?')[0].substring(0, 40)] *)
Definition fileNameOf (src : string) : string :=
  substringTo 40 (first (splitOn "?" (pop (splitOn "/" src)))).

(** One turn of the loop of [analyzeImages]. *)
Definition collectImage (acc : Images.Stats * list Images.Item) (img : Img.Element)
    : Images.Stats * list Images.Item :=
  let '(stats, items) := acc in
  let src := orElse (Img.src img)
               (match Img.datasetSrc img with Some d => d | None => "" end) in
  let fileName := fileNameOf src in
  match Img.alt img with
  | None =>
      ({| Images.total := Images.total stats + 1;
          Images.withAlt := Images.withAlt stats;
          Images.withoutAlt := Images.withoutAlt stats + 1;
          Images.decorative := Images.decorative stats |},
       (items ++ [ {| Images.src := orElse fileName "(inline)";
                      Images.alt := "(missing)";
                      Images.status := "fail" |} ])%list)
  | Some alt =>
      if isEmpty alt
      then ({| Images.total := Images.total stats + 1;
               Images.withAlt := Images.withAlt stats;
               Images.withoutAlt := Images.withoutAlt stats;
               Images.decorative := Images.decorative stats + 1 |},
            (items ++ [ {| Images.src := orElse fileName "(inline)";
                           Images.alt := "(decorative)";
                           Images.status := "info" |} ])%list)
      else ({| Images.total := Images.total stats + 1;
               Images.withAlt := Images.withAlt stats + 1;
               Images.withoutAlt := Images.withoutAlt stats;
               Images.decorative := Images.decorative stats |},
            (items ++ [ {| Images.src := orElse fileName "(inline)";
                           Images.alt := substringTo 60 alt;
                           Images.status :=
                             if 125 <? String.length alt then "warn" else "pass" |} ])%list)
  end.

Definition analyzeImages (images : list Img.Element) : Images.Results :=
  let '(stats, items) :=
    fold_left collectImage images
      ({| Images.total := 0; Images.withAlt := 0;
          Images.withoutAlt := 0; Images.decorative := 0 |}, []) in
  let score :=
    if Images.total stats =? 0 then ofZ 100
    else percent (Images.withAlt stats + Images.decorative stats)
                 (Images.total stats) in
  let issues :=
    if 0 <? Images.withoutAlt stats
    then [ {| Issue.type := "fail";
              Issue.message :=
                numeral (Images.withoutAlt stats) ++
                " image(s) missing alt attribute" |} ]
    else [] in
  {| Images.score := score;
     Images.items := items;
     Images.issues := issues;
     Images.stats := stats |}.

(** ** [analyzeLinks] *)

(** An element of [querySelectorAll('a[href]')]: the attributes [href]
    (which the selector asks for), [rel] and [target], the text content,
    whether [querySelector('img')] finds an image inside, and the
    [hostname] of [new URL(href, window.location.origin)], [None] when the
    constructor throws. *)
Module Anchor.
Record Element := {
  href : string;
  rel : attribute;
  textContent : string;
  target : attribute;
  hasImg : bool;
  hostname : option string
}.
End Anchor.

Module Links.

Record Stats := {
  total : nat;
  internal : nat;
  external : nat;
  nofollow : nat;
  noopener : nat;
  empty : nat;
  blankWithoutNoopener : nat
}.

(** Nothing is ever pushed to [items]. *)
Record Results := {
  score : Z;
  items : list string;
  issues : list Issue.t;
  stats : Stats
}.

End Links.

Definition linkHostOf (link : Anchor.Element) : string :=
  match Anchor.hostname link with Some h => h | None => "" end.

Definition isInternalLink (currentHost : string) (link : Anchor.Element) : bool :=
  negb (startsWith (Anchor.href link) "http") || String.eqb (linkHostOf link) currentHost.

Definition isExternalLink (currentHost : string) (link : Anchor.Element) : bool :=
  startsWith (Anchor.href link) "http" && negb (String.eqb (linkHostOf link) currentHost).

Definition isNofollowLink (link : Anchor.Element) : bool :=
  includes (valueOr (Anchor.rel link) "") "nofollow".

Definition isNoopenerLink (link : Anchor.Element) : bool :=
  includes (valueOr (Anchor.rel link) "") "noopener".

Definition hasTargetBlank (link : Anchor.Element) : bool :=
  match Anchor.target link with Some t => String.eqb t "_blank" | None => false end.

Definition isEmptyLink (link : Anchor.Element) : bool :=
  isEmpty (substringTo 50 (trim (Anchor.textContent link))) && negb (Anchor.hasImg link).

Definition plusIf (n : nat) (b : bool) : nat := if b then n + 1 else n.

(** One turn of the loop of [analyzeLinks]. *)
Definition collectLink (currentHost : string) (stats : Links.Stats)
    (link : Anchor.Element) : Links.Stats :=
  {| Links.total := Links.total stats + 1;
     Links.internal := plusIf (Links.internal stats) (isInternalLink currentHost link);
     Links.external := plusIf (Links.external stats) (isExternalLink currentHost link);
     Links.nofollow := plusIf (Links.nofollow stats) (isNofollowLink link);
     Links.noopener := plusIf (Links.noopener stats) (isNoopenerLink link);
     Links.empty := plusIf (Links.empty stats) (isEmptyLink link);
     Links.blankWithoutNoopener :=
       plusIf (Links.blankWithoutNoopener stats)
              (isExternalLink currentHost link && hasTargetBlank link
               && negb (isNoopenerLink link)) |}.

Definition analyzeLinks (currentHost : string) (links : list Anchor.Element)
    : Links.Results :=
  let stats :=
    fold_left (collectLink currentHost) links
      {| Links.total := 0; Links.internal := 0; Links.external := 0;
         Links.nofollow := 0; Links.noopener := 0; Links.empty := 0;
         Links.blankWithoutNoopener := 0 |} in
  let externalWithoutNoopener := Links.blankWithoutNoopener stats in
  let emptyIssue :=
    if 0 <? Links.empty stats
    then [ {| Issue.type := "warn";
              Issue.message :=
                numeral (Links.empty stats) ++ " link(s) with empty anchor text" |} ]
    else [] in
  let score := if 0 <? Links.empty stats then (100 - 10)%Z else 100%Z in
  let noopenerIssue :=
    if 0 <? externalWithoutNoopener
    then [ {| Issue.type := "info";
              Issue.message :=
                numeral externalWithoutNoopener ++
                " external link(s) without rel=" ++ String (ascii_of_N 34) "noopener"
                ++ String (ascii_of_N 34) "" |} ]
    else [] in
  {| Links.score := Z.max 0 score;
     Links.items := [];
     Links.issues := (emptyIssue ++ noopenerIssue)%list;
     Links.stats := stats |}.

(** ** [extractSchemaTypes] and [analyzeSchema] *)

(** A value that [JSON.parse] returns.  An object is the list of its
    properties. *)
#[warnings="-register-all"]
Inductive json :=
  | JNull
  | JBool (b : bool)
  | JNumber (x : num)
  | JString (s : string)
  | JArray (items : list json)
  | JObject (props : list (string * json)).

(** A value as a condition. *)
Definition isTruthy (v : json) : bool :=
  match v with
  | JNull => false
  | JBool b => b
  | JNumber x =>
      match x with S754_zero _ | S754_nan => false | _ => true end
  | JString s => negb (isEmpty s)
  | JArray _ | JObject _ => true
  end.

(** [props[k]] for the properties of a parsed object; [None] is
    [undefined]. *)
Fixpoint getProp (props : list (string * json)) (k : string) : option json :=
  match props with
  | [] => None
  | (k', v) :: props' => if String.eqb k k' then Some v else getProp props' k
  end.

(** An element of the array of types: a value, or [undefined]. *)
Definition jsvalue : Type := option json.

(** The comparison of [Set] and of [includes].  The arrays and objects of
    a parsed text are all distinct, and each is compared here with the
    others only. *)
Definition sameValueZero (a b : jsvalue) : bool :=
  match a, b with
  | None, None => true
  | Some JNull, Some JNull => true
  | Some (JBool x), Some (JBool y) => Bool.eqb x y
  | Some (JNumber x), Some (JNumber y) =>
      SFeqb x y || (match x, y with S754_nan, S754_nan => true | _, _ => false end)
  | Some (JString x), Some (JString y) => String.eqb x y
  | _, _ => false
  end.

(** [l.includes(v)] *)
Definition includesValue (l : list jsvalue) (v : jsvalue) : bool :=
  existsb (sameValueZero v) l.

(** [[...new Set(l)]]: the first occurrence of every value, in order.
    [seen] holds the values kept so far, last first. *)
Fixpoint uniqueFrom (seen : list jsvalue) (l : list jsvalue) : list jsvalue :=
  match l with
  | [] => []
  | v :: l' =>
      if includesValue seen v then uniqueFrom seen l'
      else v :: uniqueFrom (v :: seen) l'
  end.

Definition unique (l : list jsvalue) : list jsvalue := uniqueFrom [] l.

(** [Array.isArray(t) ? t[0] : t] *)
Definition firstType (t : json) : jsvalue :=
  match t with
  | JArray items => nth_error items 0
  | _ => Some t
  end.

(** [extractSchemaTypes].  The two inner loops are the [forEach] over an
    array and the reading of [data['@graph']]. *)
Fixpoint extractSchemaTypes (data : json) : list jsvalue :=
  match data with
  | JArray items =>
      unique
        ((fix each (l : list json) : list jsvalue :=
            match l with
            | [] => []
            | item :: l' => (extractSchemaTypes item ++ each l')%list
            end) items)
  | JObject props =>
      unique
        ((match getProp props "@type" with
          | Some t => if isTruthy t then [firstType t] else []
          | None => []
          end)
         ++
         (fix graph (ps : list (string * json)) : list jsvalue :=
            match ps with
            | [] => []
            | (k, v) :: ps' =>
                if String.eqb "@graph" k
                then (if isTruthy v then extractSchemaTypes v else [])
                else graph ps'
            end) props)%list
  | _ => []
  end.

Module Schema.

(** What [analyzeSchema] reads: for every JSON-LD script the value of
    [JSON.parse(script.textContent)], [None] when it throws; the
    [itemtype] attribute of every element that has one; the [typeof]
    attribute of every element that has one. *)
Record Page := {
  jsonLdScripts : list (option json);
  itemtypes : list string;
  typeofs : list string
}.

Record Results := {
  score : Z;
  types : list jsvalue;
  jsonLd : list json;
  microdata : list string;
  rdfa : bool
}.

End Schema.

(** One turn of the loop over the JSON-LD scripts. *)
Definition collectJsonLd (acc : list jsvalue * list json) (script : option json)
    : list jsvalue * list json :=
  match script with
  | Some data => ((fst acc ++ extractSchemaTypes data)%list, (snd acc ++ [data])%list)
  | None => acc
  end.

(** [if (!types.includes(type)) types.push(type)] *)
Definition pushNew (types : list jsvalue) (type : string) : list jsvalue :=
  if includesValue types (Some (JString type)) then types
  else (types ++ [Some (JString type)])%list.

(** One turn of the loop over the microdata elements. *)
Definition collectItemtype (acc : list jsvalue * list string) (itemtype : string)
    : list jsvalue * list string :=
  if isEmpty itemtype then acc
  else let type := pop (splitOn "/" itemtype) in
       (pushNew (fst acc) type, (snd acc ++ [type])%list).

(** One turn of the loop over the RDFa elements. *)
Definition collectTypeof (types : list jsvalue) (type : string) : list jsvalue :=
  if isEmpty type then types else pushNew types type.

Definition analyzeSchema (page : Schema.Page) : Schema.Results :=
  let '(types, jsonLd) := fold_left collectJsonLd (Schema.jsonLdScripts page) ([], []) in
  let '(types, microdata) := fold_left collectItemtype (Schema.itemtypes page) (types, []) in
  let rdfa := 0 <? List.length (Schema.typeofs page) in
  let types := fold_left collectTypeof (Schema.typeofs page) types in
  let score :=
    if List.length types =? 0 then 0%Z
    else
      let score := 50%Z in
      let score := if 0 <? List.length jsonLd then (score + 20)%Z else score in
      let score := if 2 <=? List.length types then (score + 15)%Z else score in
      let score := if 4 <=? List.length types then (score + 15)%Z else score in
      Z.min 100 score in
  {| Schema.score := score;
     Schema.types := types;
     Schema.jsonLd := jsonLd;
     Schema.microdata := microdata;
     Schema.rdfa := rdfa |}.

(** ** [analyzeSchemaValidation] *)

(** The table [requiredFields]. *)
Definition requiredFields : list (string * list string) :=
  [ ("Article", ["headline"; "author"; "datePublished"; "image"]);
    ("Product", ["name"; "image"; "offers"]);
    ("LocalBusiness", ["name"; "address"; "telephone"]);
    ("Organization", ["name"; "url"; "logo"]);
    ("Person", ["name"]);
    ("BreadcrumbList", ["itemListElement"]);
    ("FAQPage", ["mainEntity"]);
    ("HowTo", ["name"; "step"]);
    ("Recipe", ["name"; "recipeIngredient"; "recipeInstructions"]);
    ("Event", ["name"; "startDate"; "location"]);
    ("VideoObject", ["name"; "description"; "thumbnailUrl"; "uploadDate"]);
    ("Review", ["itemReviewed"; "reviewRating"; "author"]);
    ("WebSite", ["name"; "url"]);
    ("WebPage", ["name"]) ].

(** The names that the object [requiredFields] inherits from
    [Object.prototype]; under each of them it has a function, or the
    prototype itself, and none of these has a [filter] method. *)
Definition prototypeNames : list string :=
  [ "constructor"; "__proto__"; "hasOwnProperty"; "isPrototypeOf";
    "propertyIsEnumerable"; "toLocaleString"; "toString"; "valueOf";
    "__defineGetter__"; "__defineSetter__"; "__lookupGetter__";
    "__lookupSetter__" ].

(** Whether the conversion of a parsed value to a property key, which
    [requiredFields[type]] makes of a [type] that is no string, throws a
    TypeError.  An object is converted by its [toString] method, and by
    its [valueOf] method when that gives no primitive value: a parsed
    object that has a property of its own named [toString] hides the
    inherited method under a value that is no function, and [valueOf],
    inherited or hidden in the same way, gives no primitive value, so the
    conversion throws; every other parsed object is converted to
    "[object Object]".  An array is converted by [join], which converts
    each of its elements but [null], so it throws when one of them
    does. *)
Fixpoint throwsAsKey (v : json) : bool :=
  match v with
  | JObject props =>
      match getProp props "toString" with Some _ => true | None => false end
  | JArray items =>
      (fix anyThrows (l : list json) : bool :=
         match l with
         | [] => false
         | x :: l' => throwsAsKey x || anyThrows l'
         end) items
  | _ => false
  end.

(** The property key of a [type] whose conversion does not throw, when
    it can be one of the names above or a name of the table: a string is
    its own key, and an array of one element has the key of the element.
    Every other key - of a number, of [true], of an object, of [[null]],
    of an array of several elements, which has a comma - is [None]: no
    property has it. *)
Fixpoint typeKey (type : json) : option string :=
  match type with
  | JString s => Some s
  | JArray items =>
      match items with
      | [x] => typeKey x
      | _ => None
      end
  | _ => None
  end.

Fixpoint lookupFields (table : list (string * list string)) (k : string)
    : option (list string) :=
  match table with
  | [] => None
  | (k', fields) :: table' =>
      if String.eqb k k' then Some fields else lookupFields table' k
  end.

(** [requiredFields[type] || []], as far as [required.filter] goes:
    [None] is a TypeError, thrown by the conversion of [type] to a key,
    or by the call of [filter] on an inherited value, which has no such
    method. *)
Definition requiredFor (type : json) : option (list string) :=
  if throwsAsKey type then None
  else match typeKey type with
       | Some k =>
           match lookupFields requiredFields k with
           | Some fields => Some fields
           | None => if has prototypeNames k then None else Some []
           end
       | None => Some []
       end.

Module Validation.
Record Result := {
  type : json;
  valid : bool;
  missingFields : list string;
  fieldCount : nat
}.
End Validation.

(** [!item[f] && !item[f.toLowerCase()]] *)
Definition isMissing (props : list (string * json)) (f : string) : bool :=
  let present k :=
    match getProp props k with Some v => isTruthy v | None => false end in
  negb (present f) && negb (present (toLowerCase f)).

(** What the callback of [items.forEach] does with one item: [None] when
    it throws a TypeError, [Some None] when it returns without a result,
    [Some (Some r)] when it pushes [r]. *)
Definition validateItem (item : json) : option (option Validation.Result) :=
  match item with
  | JNull => None
  | JObject props =>
      match getProp props "@type" with
      | None => Some None
      | Some t =>
          match firstType t with
          | None => Some None
          | Some type =>
              if isTruthy type
              then match requiredFor type with
                   | None => None
                   | Some required =>
                       let missing := filter (isMissing props) required in
                       Some (Some
                         {| Validation.type := type;
                            Validation.valid := List.length missing =? 0;
                            Validation.missingFields := missing;
                            Validation.fieldCount :=
                              List.length
                                (filter (fun k => negb (startsWith k "@"))
                                        (map fst props)) |})
                   end
              else Some None
          end
      end
  | _ => Some None
  end.

(** [items.forEach(...)] inside the [try]: a TypeError ends the loop and
    keeps the results pushed so far. *)
Fixpoint validateItems (items : list json) (results : list Validation.Result)
    : list Validation.Result :=
  match items with
  | [] => results
  | item :: rest =>
      match validateItem item with
      | None => results
      | Some None => validateItems rest results
      | Some (Some r) => validateItems rest (results ++ [r])%list
      end
  end.

(** [data['@graph'] || (Array.isArray(data) ? data : [data])], as far as
    [items.forEach] goes: [None] when reading [@graph] of [null] is a
    TypeError, and when the value has no [forEach] method. *)
Definition itemsOf (data : json) : option (list json) :=
  match data with
  | JNull => None
  | JArray items => Some items
  | JObject props =>
      match getProp props "@graph" with
      | Some g =>
          if isTruthy g
          then match g with JArray items => Some items | _ => None end
          else Some [data]
      | None => Some [data]
      end
  | _ => Some [data]
  end.

(** One turn of the loop over the scripts; [None] is a text that
    [JSON.parse] rejects. *)
Definition validateScript (results : list Validation.Result)
    (script : option json) : list Validation.Result :=
  match script with
  | Some data =>
      match itemsOf data with
      | Some items => validateItems items results
      | None => results
      end
  | None => results
  end.

Definition analyzeSchemaValidation (scripts : list (option json))
    : list Validation.Result :=
  fold_left validateScript scripts [].

(** ** [analyzeLazyImages] *)

(** What the loop reads of an image: the [loading] attribute, and the
    attributes [data-src], [data-lazy-src] and [data-original], which
    [img.dataset] gives as [src], [lazySrc] and [original]; [None] is a
    missing attribute. *)
Module LazyImg.
Record Element := {
  loading : attribute;
  dataSrc : attribute;
  dataLazySrc : attribute;
  dataOriginal : attribute
}.
End LazyImg.

Module LazyImages.
Record Results := {
  total : nat;
  lazy : nat;
  eager : nat;
  noAttribute : nat;
  dataSrcPattern : nat
}.
End LazyImages.

Definition loadingIs (value : string) (img : LazyImg.Element) : bool :=
  match LazyImg.loading img with Some l => String.eqb l value | None => false end.

Definition hasDataSrc (img : LazyImg.Element) : bool :=
  truthy (LazyImg.dataSrc img) || truthy (LazyImg.dataLazySrc img)
  || truthy (LazyImg.dataOriginal img).

(** One turn of the loop of [analyzeLazyImages]; [total] is set at the
    end. *)
Definition collectLazy (r : LazyImages.Results) (img : LazyImg.Element)
    : LazyImages.Results :=
  let lazy := if loadingIs "lazy" img then LazyImages.lazy r + 1 else LazyImages.lazy r in
  let eager :=
    if loadingIs "lazy" img then LazyImages.eager r
    else if loadingIs "eager" img then LazyImages.eager r + 1
    else LazyImages.eager r in
  let noAttr :=
    if loadingIs "lazy" img then LazyImages.noAttribute r
    else if loadingIs "eager" img then LazyImages.noAttribute r
    else LazyImages.noAttribute r + 1 in
  {| LazyImages.total := LazyImages.total r;
     LazyImages.lazy := lazy;
     LazyImages.eager := eager;
     LazyImages.noAttribute := noAttr;
     LazyImages.dataSrcPattern := plusIf (LazyImages.dataSrcPattern r) (hasDataSrc img) |}.

Definition analyzeLazyImages (images : list LazyImg.Element) : LazyImages.Results :=
  let r := fold_left collectLazy images
             {| LazyImages.total := 0; LazyImages.lazy := 0; LazyImages.eager := 0;
                LazyImages.noAttribute := 0; LazyImages.dataSrcPattern := 0 |} in
  {| LazyImages.total := List.length images;
     LazyImages.lazy := LazyImages.lazy r;
     LazyImages.eager := LazyImages.eager r;
     LazyImages.noAttribute := LazyImages.noAttribute r;
     LazyImages.dataSrcPattern := LazyImages.dataSrcPattern r |}.

(** ** [analyzeIframes] *)

(** What the loop reads of an iframe: five attributes, and the width and
    the height of its [style], which are strings. *)
Module Iframe.
Record Element := {
  src : attribute;
  width : attribute;
  styleWidth : string;
  height : attribute;
  styleHeight : string;
  loading : attribute;
  title : attribute
}.
End Iframe.

Module Iframes.
Record Item := {
  type : string;
  src : string;
  width : string;
  height : string;
  loading : string;
  title : string
}.
Record Results := {
  count : nat;
  items : list Item
}.
End Iframes.

Definition iframeType (src : string) : string :=
  if includes src "youtube.com" || includes src "youtu.be" then "youtube"
  else if includes src "vimeo.com" then "vimeo"
  else if includes src "maps.google" || includes src "google.com/maps" then "google-maps"
  else if includes src "facebook.com" then "facebook"
  else if includes src "twitter.com" || includes src "x.com" then "twitter"
  else if includes src "instagram.com" then "instagram"
  else if negb (isEmpty src) then "external"
  else "unknown".

Definition iframeItem (iframe : Iframe.Element) : Iframes.Item :=
  let src := valueOr (Iframe.src iframe) "" in
  {| Iframes.type := iframeType src;
     Iframes.src := substringTo 150 src;
     Iframes.width := orElse (valueOr (Iframe.width iframe) (Iframe.styleWidth iframe)) "auto";
     Iframes.height := orElse (valueOr (Iframe.height iframe) (Iframe.styleHeight iframe)) "auto";
     Iframes.loading := valueOr (Iframe.loading iframe) "none";
     Iframes.title := substringTo 60 (valueOr (Iframe.title iframe) "") |}.

Definition analyzeIframes (iframes : list Iframe.Element) : Iframes.Results :=
  let items := fold_left (fun items iframe => (items ++ [iframeItem iframe])%list) iframes [] in
  {| Iframes.count := List.length iframes;
     Iframes.items := firstn 20 items |}.

(** ** [analyzeContent] *)

Module Content.

Record Counts := { characters : Z; words : Z }.

Record Report := {
  score : Z;
  stats : ContentStats;
  title : Counts;
  description : Counts
}.

End Content.

(** [s.trim() ? s.trim().split(/\s+/).length : 0] *)
Definition trimmedWords (s : string) : Z :=
  if isEmpty (trim s) then 0%Z else countZ (splitSpaces (trim s)).

(** [analyzeContent], for the text content of the body without its
    hidden parts, [document.title] and the description element. *)
Definition analyzeContent (bodyText title : string) (descMeta : option attribute)
    : Content.Report :=
  let stats := countText bodyText in
  let titleWords := trimmedWords title in
  let description :=
    match descMeta with Some a => valueOr a "" | None => "" end in
  let descWords := trimmedWords description in
  {| Content.score :=
       if (300 <=? words stats)%Z then 100%Z
       else if (100 <=? words stats)%Z then 70%Z
       else if (0 <? words stats)%Z then 40%Z else 0%Z;
     Content.stats := stats;
     Content.title :=
       {| Content.characters := lengthZ title; Content.words := titleWords |};
     Content.description :=
       {| Content.characters := lengthZ description; Content.words := descWords |} |}.

(** ** [analyzeTextToHtml] *)

Module TextToHtml.
Record Results := { textSize : nat; htmlSize : nat; ratio : num; status : string }.
End TextToHtml.

(** [analyzeTextToHtml], for [document.documentElement.outerHTML.length]
    and the text content of the body without its hidden parts. *)
Definition analyzeTextToHtml (htmlSize : nat) (bodyText : string)
    : TextToHtml.Results :=
  let textSize := String.length (trim (collapseSpaces bodyText)) in
  let ratio :=
    if 0 <? htmlSize
    then toFixedNum 1 (ofNat textSize / ofNat htmlSize * ofZ 100)%num
    else ofZ 0 in
  {| TextToHtml.textSize := textSize;
     TextToHtml.htmlSize := htmlSize;
     TextToHtml.ratio := ratio;
     TextToHtml.status :=
       if fge ratio (ofZ 25) then "good"
       else if fge ratio (ofZ 10) then "fair" else "poor" |}.

(** ** [analyzeKeywordDensity] *)

(** [text.match(/[a-z0-9]+(?:['-][a-z0-9]+)*/g)]: a term is a run of
    letters and digits, continued through single apostrophes and hyphens
    that a letter or digit follows.  [cur] is the term read so far and
    [pend] the apostrophe or hyphen read after it, which belongs to the
    term only if a letter or digit comes next. *)
Fixpoint termsFrom (cur : string) (pend : option ascii) (s : string) : list string :=
  match s with
  | EmptyString => if isEmpty cur then [] else [cur]
  | String c s' =>
      let c1 := String c EmptyString in
      if isAlnum c
      then match pend with
           | Some j => termsFrom (cur ++ String j c1) None s'
           | None => termsFrom (cur ++ c1) None s'
           end
      else if isEmpty cur then termsFrom EmptyString None s'
           else if isJoiner c && match pend with None => true | Some _ => false end
                then termsFrom cur (Some c) s'
                else cur :: termsFrom EmptyString None s'
  end.

Definition matchTerms (s : string) : option (list string) :=
  match termsFrom EmptyString None s with
  | [] => None
  | ts => Some ts
  end.

(** The stop words of [analyzeKeywordDensity]. *)
Definition densityStopWords : list string :=
  ["a";"an";"the";"and";"or";"but";"in";"on";"at";"to";"for";"of";"with";"by";
   "is";"it";"this";"that";"are";"was";"be";"have";"do";"not";"from";"as";"i";
   "you";"we";"they";"he";"she";"your";"my";"our";"their"].

Module Density.

Record Term := { term : string; count : nat; density : num }.

Record Results := {
  titleTerms : list Term;
  h1Terms : list Term;
  totalWords : nat
}.

End Density.

(** The inner function [getTermDensity], with the two variables of
    [analyzeKeywordDensity] that it reads. *)
Definition getTermDensity (bodyWords : list string) (totalWords : nat)
    (text : string) : list Density.Term :=
  let words := orEmpty (matchTerms (toLowerCase text)) in
  let meaningful :=
    filter (fun w => negb (has densityStopWords w) && (2 <? String.length w)) words in
  filter (fun t => 0 <? Density.count t)
    (map (fun term =>
            let count := List.length (filter (fun w => String.eqb w term) bodyWords) in
            {| Density.term := term;
               Density.count := count;
               Density.density :=
                 toFixedNum 2 (ofNat count / ofNat totalWords * ofZ 100)%num |})
         meaningful).

(** [analyzeKeywordDensity], for [document.title], the text content of
    the first [h1] ([None] when there is none) and the text content of the
    body without its scripts and styles. *)
Definition analyzeKeywordDensity (title : string) (h1 : option string)
    (bodyText : string) : Density.Results :=
  let h1Text := match h1 with Some t => trim t | None => "" end in
  let bodyWords := orEmpty (matchTerms (toLowerCase bodyText)) in
  let totalWords := List.length bodyWords in
  if totalWords =? 0
  then {| Density.titleTerms := []; Density.h1Terms := []; Density.totalWords := 0 |}
  else {| Density.titleTerms := getTermDensity bodyWords totalWords title;
          Density.h1Terms := getTermDensity bodyWords totalWords h1Text;
          Density.totalWords := totalWords |}.

(** ** The popup: [getScoreClass] and the overall score *)

Definition getScoreClass (score : num) : string :=
  if fge score (ofZ 80) then "good"
  else if fge score (ofZ 50) then "warning"
  else "bad".

(** [Math.round(scores.reduce((a, b) => a + b, 0) / scores.length)] of
    [displayResults]. *)
Definition overallScore (scores : list num) : num :=
  Math_round (fold_left fadd scores (ofZ 0) / ofNat (List.length scores))%num.

(** The label and the status that [renderReadabilitySection] gives the
    Flesch score, and the label it gives the grade. *)
Definition easeLabelOf (fleschEase : num) : string * string :=
  if fge fleschEase (ofZ 80) then ("Very Easy (conversational)", "pass")
  else if fge fleschEase (ofZ 60) then ("Standard (good for web)", "pass")
  else if fge fleschEase (ofZ 40) then ("Somewhat Difficult", "warn")
  else if fge fleschEase (ofZ 20) then ("Difficult (academic)", "warn")
  else ("Very Difficult", "fail").

Definition gradeLabelOf (fleschKincaid : num) : string :=
  if SFleb fleschKincaid (ofZ 6) then "Elementary"
  else if SFleb fleschKincaid (ofZ 8) then "Middle School"
  else if SFleb fleschKincaid (ofZ 12) then "High School"
  else "College+".

(** The array [scores] of [displayResults], for the results of the seven
    analyzers that it reads. *)
Definition sectionScores (meta : Meta.Results) (headings : Headings.Results)
    (images : Images.Results) (links : Links.Results) (schema : Schema.Results)
    (content : Content.Report) (readability : ReadabilityReport) : list num :=
  [ Meta.score meta; ofZ (Headings.score headings); Images.score images;
    ofZ (Links.score links); ofZ (Schema.score schema);
    ofZ (Content.score content); ofZ (score readability) ].

(** The Number that a count of an n-gram entry is; the string of a
    tainted cell is NaN in a division. *)
Definition countNumber (c : cell) : num :=
  match c with
  | Count n => ofNat n
  | Tainted _ => S754_nan
  end.

(** [Math.max(8, Math.round((item.count / group.items[0].count) * 100))]
    of [renderNgramsSection]. *)
Definition barWidth (item top : NgramEntry) : num :=
  Math_max (ofZ 8)
    (Math_round (countNumber (count item) / countNumber (count top) * ofZ 100)%num).

(** ** Definitions used in the statements *)

(** Every character of [s] satisfies [p]. *)
Fixpoint allChars (p : ascii -> bool) (s : string) : bool :=
  match s with
  | EmptyString => true
  | String c s' => p c && allChars p s'
  end.

(** The text that [countText] measures. *)
Definition cleanedText (text : string) : string := trim (collapseSpaces text).

(** The algorithm of the syllable estimator in the words of the
    specification: lower-case and strip the non-letters; a result of at
    most two letters counts one syllable; otherwise strip one trailing
    "e" and count the maximal runs of vowels, at least one. *)
Fixpoint lastChar (s : string) : option ascii :=
  match s with
  | EmptyString => None
  | String c EmptyString => Some c
  | String _ s' => lastChar s'
  end.

Fixpoint removeLast (s : string) : string :=
  match s with
  | EmptyString => EmptyString
  | String _ EmptyString => EmptyString
  | String c s' => String c (removeLast s')
  end.

Definition stripTrailingE (s : string) : string :=
  match lastChar s with
  | Some c => if (code c =? 101)%N then removeLast s else s
  | None => s
  end.

(** The runs of vowels of [s], counted at the vowel that opens each;
    [prev] tells that the character before [s] was a vowel. *)
Fixpoint vowelRuns (prev : bool) (s : string) : nat :=
  match s with
  | EmptyString => 0
  | String c s' =>
      if isVowel c then (if prev then 0 else 1) + vowelRuns true s'
      else vowelRuns false s'
  end.

Definition syllableEstimate (word : string) : nat :=
  let letters := keepChars isLower (toLowerCase word) in
  if String.length letters <=? 2 then 1
  else Nat.max 1 (vowelRuns false (stripTrailingE letters)).

(** A Number that is not NaN and carries the sign [s]. *)
Definition hasSign (s : bool) (x : num) : bool :=
  match x with
  | S754_nan => false
  | S754_zero s' | S754_infinity s' | S754_finite s' _ _ => Bool.eqb s s'
  end.

Definition notNaN (x : num) : bool :=
  match x with S754_nan => false | _ => true end.

(** A Number that is neither NaN nor +Infinity. *)
Definition belowInfinity (x : num) : bool :=
  match x with
  | S754_nan | S754_infinity false => false
  | _ => true
  end.

(** A Number that is neither NaN nor an infinity. *)
Definition isFinite (x : num) : bool :=
  match x with
  | S754_zero _ | S754_finite _ _ _ => true
  | _ => false
  end.

(** The Flesch Reading Ease formula and the clamp, in the words of the
    specification. *)
Definition fleschFormula (wordCount sentenceCount totalSyllables : nat) : num :=
  (literal 206835 3
   - literal 1015 3 * (ofNat wordCount / ofNat sentenceCount)
   - literal 846 1 * (ofNat totalSyllables / ofNat wordCount))%num.

Definition clampTo (x lo hi : num) : num :=
  if flt x lo then lo else if flt hi x then hi else x.

(** [x === y] on Numbers. *)
Definition feq (x y : num) : bool := SFeqb x y.

(** [countSentences] of the specification: the matches of the
    sentence-end pattern. *)
Definition countSentences (text : string) : nat :=
  List.length (orEmpty (matchSentenceEnds text)).

(** Texts for the thresholds of the score: 30 words in 10 sentences with
    51 syllables, and 31 words in 3 sentences with 50 syllables. *)
Fixpoint repeatText (n : nat) (s : string) : string :=
  match n with
  | O => EmptyString
  | S k => s ++ repeatText k s
  end.

Definition textEase60 : string :=
  repeatText 9 "tiger tiger cat. " ++ "tiger tiger tiger.".

Definition textEase599 : string :=
  repeatText 19 "tiger " ++ repeatText 9 "cat " ++ "cat. cat. cat.".

(** The characters of the strings of [l] together. *)
Definition totalLength (l : list string) : nat :=
  fold_right (fun w n => String.length w + n) 0 l.

(** [t] has no two white-space characters in a row; [prev] tells that the
    character before [t] was white space. *)
Fixpoint singleSpaced (prev : bool) (t : string) : bool :=
  match t with
  | EmptyString => true
  | String c t' =>
      if isSpace c then negb prev && singleSpaced true t'
      else singleSpaced false t'
  end.

(** [t] is single-spaced and does not end in white space, even when it is
    empty after white space. *)
Fixpoint tidyFrom (prev : bool) (t : string) : bool :=
  match t with
  | EmptyString => negb prev
  | String c t' =>
      if isSpace c then negb prev && tidyFrom true t'
      else tidyFrom false t'
  end.

(** The characters of a token. *)
Definition isWordChar (c : ascii) : bool := isAlnum c || isJoiner c.


(** The keys of an object, in creation order. *)
Definition keys (o : jsobject) : list string := map fst o.

(** The candidate that the loop of [buildNgramCounts] reads at [i]. *)
Definition window (words : list string) (n i : nat) : list string :=
  slice words i (i + n).

Definition gramAt (words : list string) (n i : nat) : string :=
  joinSpace (window words n i).

(** The turns among [turns] that count the phrase [g]. *)
Definition occurrences (words : list string) (n : nat)
    (stopWords : option (list string)) (g : string) (turns : list nat) : nat :=
  List.length
    (filter (fun i => negb (skipsGram n stopWords (gramAt words n i))
                      && String.eqb (gramAt words n i) g) turns).

(** The value under a key that was counted [k] times. *)
Definition tally (g : string) (k : nat) : option cell :=
  match k with
  | O => None
  | S _ => Some (if inheritedKey g then Tainted k else Count k)
  end.

Definition cell_eqb (a b : cell) : bool :=
  match a, b with
  | Count x, Count y => x =? y
  | Tainted x, Tainted y => x =? y
  | _, _ => false
  end.

Definition countValue (c : cell) : nat :=
  match c with Count n => n | Tainted _ => 0 end.

Definition entryPair (e : NgramEntry) : string * cell := (phrase e, count e).

(** [a] may stand before [b] in a list sorted by count, largest first. *)
Definition countGe (a b : NgramEntry) : Prop :=
  countValue (count b) <= countValue (count a).

Definition pairGe (a b : string * cell) : Prop :=
  countValue (snd b) <= countValue (snd a).

(** The value under [g] after [k] increments of the value [v]. *)
Fixpoint bumped (g : string) (k : nat) (v : option cell) : option cell :=
  match k with
  | O => v
  | S k' =>
      bumped g k'
        (Some (match v with
               | Some (Count n) => Count (n + 1)
               | Some (Tainted j) => Tainted (j + 1)
               | None => if inheritedKey g then Tainted 1 else Count 1
               end))
  end.

(** The entries of [l] whose count is [c], in the order of [l]. *)
Definition withCount (c : cell) (l : list (string * cell)) : list (string * cell) :=
  filter (fun e => cell_eqb (snd e) c) l.

(** Ties keep the order of [reference]: for every count, the entries of
    [out] with that count are, in the same order, the first entries of
    [reference] with that count. *)
Definition tiesKeepOrder (reference : list (string * cell))
    (out : list NgramEntry) : Prop :=
  forall c : cell,
    exists rest,
      withCount c reference = (withCount c (map entryPair out) ++ rest)%list.

(** Under a key that [Object.prototype] has, the value is a tainted
    cell. *)
Definition taintedIfInherited (e : string * cell) : Prop :=
  inheritedKey (fst e) = true -> exists j, snd e = Tainted j.


(** ** Definitions used in the statements about the other analyzers *)

(** [|x| <= B] for a Number with a fraction part: a zero, or a finite
    Number with a negative exponent whose mantissa is at most
    [B * 2^(-e)]. *)
Definition atMost (B : Z) (x : num) : bool :=
  match x with
  | S754_zero _ => true
  | S754_finite _ m e => ((e <? 0) && (Zpos m <=? B * 2 ^ (- e)))%Z
  | _ => false
  end.

(** The level of a heading tag. *)
Definition levelOf (t : Headings.TagName) : nat :=
  match t with
  | Headings.H1 => 1 | Headings.H2 => 2 | Headings.H3 => 3
  | Headings.H4 => 4 | Headings.H5 => 5 | Headings.H6 => 6
  end.

Definition headingLevels (headings : list Headings.Element) : list nat :=
  map (fun h => levelOf (Headings.tagName h)) headings.

(** The headings of a level. *)
Definition countLevel (n : nat) (headings : list Headings.Element) : nat :=
  List.length (filter (fun l => l =? n) (headingLevels headings)).

(** The first heading that lies more than one level below the heading
    before it, with the level before it; the page begins at level 0. *)
Fixpoint firstSkip (last : nat) (levels : list nat) : option (nat * nat) :=
  match levels with
  | [] => None
  | l :: ls => if last + 1 <? l then Some (last, l) else firstSkip l ls
  end.

(** The issue about the H1 tags, for their number. *)
Definition h1Issues (n : nat) : list Issue.t :=
  match n with
  | 0 => [ {| Issue.type := "fail"; Issue.message := "No H1 tag found" |} ]
  | 1 => []
  | _ => [ {| Issue.type := "warn";
              Issue.message := "Multiple H1 tags (" ++ numeral n ++ ")" |} ]
  end.

(** The issue about a skipped level. *)
Definition skipIssues (skip : option (nat * nat)) : list Issue.t :=
  match skip with
  | Some (a, b) =>
      [ {| Issue.type := "warn";
           Issue.message :=
             "Heading level skipped (H" ++ numeral a ++ " to H" ++ numeral b ++ ")" |} ]
  | None => []
  end.

(** The statistics of [analyzeHeadings] as counts of the levels. *)
Definition headingStats (headings : list Headings.Element) : Headings.Stats :=
  {| Headings.h1 := countLevel 1 headings; Headings.h2 := countLevel 2 headings;
     Headings.h3 := countLevel 3 headings; Headings.h4 := countLevel 4 headings;
     Headings.h5 := countLevel 5 headings; Headings.h6 := countLevel 6 headings;
     Headings.total := List.length headings |}.

Definition isSome {A : Type} (o : option A) : bool :=
  match o with Some _ => true | None => false end.

(** The elements of [l] that satisfy [p]. *)
Definition countIf {A : Type} (p : A -> bool) (l : list A) : nat :=
  List.length (filter p l).

(** The three kinds of image: no [alt] attribute, an empty one, a text. *)
Definition hasNoAlt (img : Img.Element) : bool :=
  match Img.alt img with None => true | Some _ => false end.

Definition isDecorative (img : Img.Element) : bool :=
  match Img.alt img with Some a => isEmpty a | None => false end.

Definition hasAltText (img : Img.Element) : bool :=
  match Img.alt img with Some a => negb (isEmpty a) | None => false end.

(** [s] has no character [c]. *)
Definition without (c : ascii) (s : string) : bool :=
  allChars (fun x => negb (Ascii.eqb x c)) s.

(** A source that [analyzeImages] shows: 1 to 40 characters, neither a
    slash nor a question mark. *)
Definition shownSource (src : string) : bool :=
  negb (isEmpty src) && (String.length src <=? 40)
  && without "/" src && without "?" src.

(** The statistics of [analyzeLinks] as counts of the links. *)
Definition linkStats (currentHost : string) (links : list Anchor.Element)
    : Links.Stats :=
  {| Links.total := List.length links;
     Links.internal := countIf (isInternalLink currentHost) links;
     Links.external := countIf (isExternalLink currentHost) links;
     Links.nofollow := countIf isNofollowLink links;
     Links.noopener := countIf isNoopenerLink links;
     Links.empty := countIf isEmptyLink links;
     Links.blankWithoutNoopener :=
       countIf (fun link => isExternalLink currentHost link && hasTargetBlank link
                            && negb (isNoopenerLink link)) links |}.

(** A page that passes everything but the length of its description. *)
Definition metaExample : Meta.Page :=
  {| Meta.title := "A title of a good length for a search result";
     Meta.descMeta := Some (Some "Short");
     Meta.canonical := Some (Some "https://x.test/");
     Meta.robotsMeta := Some (Some "index, follow");
     Meta.ogTitle := true; Meta.ogDesc := true; Meta.ogImage := true;
     Meta.twitterCard := Some (Some "summary"); Meta.viewport := true;
     Meta.htmlLang := "en" |}.

(** The white-space characters of [s]. *)
Fixpoint spaces (s : string) : nat :=
  match s with
  | EmptyString => 0
  | String c s' => (if isSpace c then 1 else 0) + spaces s'
  end.

(** The types that a parsed value declares, in document order and with
    their repetitions: the first type of every object that is reached
    through arrays and [@graph] properties. *)
Fixpoint declaredTypes (data : json) : list jsvalue :=
  match data with
  | JArray items =>
      (fix each (l : list json) : list jsvalue :=
         match l with
         | [] => []
         | item :: l' => (declaredTypes item ++ each l')%list
         end) items
  | JObject props =>
      ((match getProp props "@type" with
        | Some t => if isTruthy t then [firstType t] else []
        | None => []
        end)
       ++
       (fix graph (ps : list (string * json)) : list jsvalue :=
          match ps with
          | [] => []
          | (k, v) :: ps' =>
              if String.eqb "@graph" k
              then (if isTruthy v then declaredTypes v else [])
              else graph ps'
          end) props)%list
  | _ => []
  end.

(** No two values of [l] are the same for [Set]. *)
Definition distinct (l : list jsvalue) : Prop :=
  ForallOrdPairs (fun a b => sameValueZero b a = false) l.

(** The values that [JSON.parse] found. *)
Definition parsed (scripts : list (option json)) : list json :=
  flat_map (fun s => match s with Some data => [data] | None => [] end) scripts.

(** The terms of a text, as [analyzeKeywordDensity] reads them. *)
Definition termsOf (text : string) : list string :=
  orEmpty (matchTerms (toLowerCase text)).

(** A term that [getTermDensity] looks up: not a stop word, and of more
    than two characters. *)
Definition meaningfulTerm (w : string) : bool :=
  negb (has densityStopWords w) && (2 <? String.length w).

(** The occurrences of a term among the words. *)
Definition timesIn (words : list string) (term : string) : nat :=
  List.length (filter (fun w => String.eqb w term) words).

(** [0 <= x <= B] *)
Definition fromZeroTo (B : Z) (x : num) : bool := hasSign false x && atMost B x.

(** Two Numbers are the same value, bit for bit. *)
Definition num_eqb (x y : num) : bool :=
  match x, y with
  | S754_zero a, S754_zero b => Bool.eqb a b
  | S754_infinity a, S754_infinity b => Bool.eqb a b
  | S754_nan, S754_nan => true
  | S754_finite a m e, S754_finite b n f =>
      Bool.eqb a b && Pos.eqb m n && Z.eqb e f
  | _, _ => false
  end.

(** The sum of two counts is the Number of their sum. *)
Definition addsExactly (a b : nat) : bool :=
  num_eqb (ofNat a + ofNat b)%num (ofNat (a + b)).

(** A seventh of a count rounds to the integer nearest to it. *)
Definition seventhRounds (s : nat) : bool :=
  num_eqb (Math_round (ofNat s / ofNat 7)%num) (ofNat ((2 * s + 7) / 14)).

(** [Math.max(8, k)] of a whole Number is a whole Number. *)
Definition maxWithEight (k : nat) : bool :=
  num_eqb (Math_max (ofZ 8) (ofNat k)) (ofNat (Nat.max 8 k)).
(** The item has a truthy value under the name. *)
Definition hasField (props : list (string * json)) (f : string) : bool :=
  match getProp props f with Some v => isTruthy v | None => false end.

(** The type names an entry of the table [requiredFields]. *)
Definition hasEntry (type : json) : bool :=
  match typeKey type with
  | Some k => isSome (lookupFields requiredFields k)
  | None => false
  end.

(** A type on which [requiredFields[type]] or [required.filter] throws:
    its conversion to a key throws, or its key is a name that every
    object inherits. *)
Definition throwingType (type : json) : bool :=
  throwsAsKey type
  || match typeKey type with
     | Some k => has prototypeNames k
     | None => false
     end.


(** What holds of every result that [analyzeSchemaValidation] pushes. *)
Definition wellFormed (r : Validation.Result) : Prop :=
  isTruthy (Validation.type r) = true /\
  throwingType (Validation.type r) = false /\
  (Validation.valid r = true <-> Validation.missingFields r = []) /\
  (forall f, In f (Validation.missingFields r) ->
     exists k fields, typeKey (Validation.type r) = Some k /\
       lookupFields requiredFields k = Some fields /\ In f fields) /\
  (hasEntry (Validation.type r) = false -> Validation.valid r = true).

(* ================================================================== *)
(** * Part II. Properties                                               *)
(* ================================================================== *)

(** [evaluate t] replaces the closed Number [t] by its value. *)
Ltac evaluate t :=
  let v := eval vm_compute in t in change t with v.

(** ** The scanners on examples *)

Example splitSpaces_example :
  splitSpaces "a  b c " = ["a"; "b"; "c"; ""] /\
  splitSpaces " a" = [""; "a"] /\
  splitSpaces "" = [""].
Proof. repeat split. Qed.

Example matchSentenceEnds_example :
  matchSentenceEnds "Hi there. What?! no.way ok... end." =
    Some [". "; "?! "; "... "; "."] /\
  matchSentenceEnds "no end" = None.
Proof. split; reflexivity. Qed.

Example splitBlankLines_example :
  let nl := String (ascii_of_N 10) EmptyString in
  splitBlankLines ("a b" ++ nl ++ nl ++ "c" ++ nl ++ "d " ++ nl ++ "  " ++ nl ++ " e")
  = ["a b"; "c" ++ nl ++ "d "; " e"].
Proof. reflexivity. Qed.

Example countText_example :
  let nl := String (ascii_of_N 10) EmptyString in
  countText ("  Hello   world. " ++ nl ++ nl ++ " Bye!  ") =
  {| characters := 17; charactersNoSpaces := 15; words := 3;
     sentences := 2; paragraphs := 2; readingTimeMin := 1 |}.
Proof. reflexivity. Qed.

Example ngramWords_example :
  ngramWords "The cat's well-known trick -- isn't it 'fun'? x-- y's-" =
  ["the"; "cat's"; "well-known"; "trick"; "isn't"; "it"; "fun"; "x"; "y's"].
Proof. reflexivity. Qed.

Example Object_entries_example :
  Object_entries [("zebra", Count 1); ("7", Count 1); ("007", Count 1);
                  ("10", Count 1); ("4294967295", Count 1)] =
  [("7", Count 1); ("10", Count 1); ("zebra", Count 1); ("007", Count 1);
   ("4294967295", Count 1)].
Proof. reflexivity. Qed.

(** 0.1 is 0x3FB999999999999A; [(0.25).toFixed(1)] is "0.3",
    [(1.005).toFixed(2)] is "1.00" and [(-0.04).toFixed(1)] is "-0.0". *)
Example binary64_example :
  literal 1 1 = S754_finite false 7205759403792794 (-56) /\
  toFixedNum 1 (literal 25 2) = literal 3 1 /\
  toFixedNum 2 (literal 1005 3) = ofZ 1 /\
  toFixedNum 1 (fsub (ofZ 0) (literal 4 2)) = S754_zero true.
Proof. repeat split; vm_compute; reflexivity. Qed.

(** ** White space *)

Lemma isEmpty_true (s : string) : isEmpty s = true <-> s = EmptyString.
Proof. destruct s; simpl; split; congruence. Qed.

Lemma collapseFrom_allSpace (s : string) :
  allChars isSpace s = true ->
  collapseFrom true s = EmptyString /\
  (collapseFrom false s = EmptyString \/ collapseFrom false s = " ").
Proof.
  induction s as [|c s IH]; simpl; intros H.
  - auto.
  - apply andb_prop in H as [Hc Hs]. rewrite Hc.
    destruct (IH Hs) as [IH1 _]. rewrite IH1. auto.
Qed.

Lemma cleanedText_allSpace (s : string) :
  allChars isSpace s = true -> cleanedText s = EmptyString.
Proof.
  intros H. unfold cleanedText, collapseSpaces.
  destruct (collapseFrom_allSpace s H) as [_ [E|E]]; rewrite E; reflexivity.
Qed.

Lemma trimStart_allSpace (s : string) :
  allChars isSpace s = true -> trimStart s = EmptyString.
Proof.
  induction s as [|c s IH]; simpl; intros H; [reflexivity|].
  apply andb_prop in H as [Hc Hs]. rewrite Hc. auto.
Qed.

Lemma trim_allSpace (s : string) :
  allChars isSpace s = true -> trim s = EmptyString.
Proof. intros H. unfold trim. rewrite trimStart_allSpace by assumption. reflexivity. Qed.

Lemma collapseFrom_spaces (b : bool) (s : string) :
  allChars isSpace (collapseFrom b s) = true -> allChars isSpace s = true.
Proof.
  revert b. induction s as [|c s IH]; intros b; simpl; [reflexivity|].
  destruct (isSpace c) eqn:Ec; simpl.
  - destruct b; simpl; intros H; apply (IH true H).
  - rewrite Ec. discriminate.
Qed.

Lemma trimStart_spaces (s : string) :
  allChars isSpace (trimStart s) = true -> allChars isSpace s = true.
Proof.
  induction s as [|c s IH]; simpl; [reflexivity|].
  destruct (isSpace c) eqn:Ec; simpl; [exact IH|].
  rewrite Ec. discriminate.
Qed.

Lemma trimEnd_empty (s : string) :
  trimEnd s = EmptyString -> allChars isSpace s = true.
Proof.
  induction s as [|c s IH]; simpl; [reflexivity|].
  destruct (isSpace c) eqn:Ec; simpl; [|discriminate].
  destruct (trimEnd s); simpl; [auto|discriminate].
Qed.

(** The cleaned text is empty exactly for a text of white space. *)
Lemma cleanedText_empty_iff (s : string) :
  cleanedText s = EmptyString <-> allChars isSpace s = true.
Proof.
  split; [|apply cleanedText_allSpace].
  unfold cleanedText, trim, collapseSpaces. intros H.
  apply trimEnd_empty, trimStart_spaces, collapseFrom_spaces in H. exact H.
Qed.

Lemma splitFrom_not_nil (b : bool) (s : string) : splitFrom b s <> [].
Proof.
  revert b. induction s as [|c s IH]; intros b; simpl; [discriminate|].
  destruct (isSpace c); [destruct b; [apply IH|discriminate]|].
  destruct (splitFrom false s); discriminate.
Qed.

(** [countText] counts no words exactly in a text of white space. *)
Lemma words_zero_iff (text : string) :
  words (countText text) = 0%Z <-> allChars isSpace text = true.
Proof.
  rewrite <- cleanedText_empty_iff. unfold countText. cbn [words].
  fold (cleanedText text).
  destruct (cleanedText text) as [|c t] eqn:E; simpl.
  - split; reflexivity.
  - split; [|discriminate]. unfold countZ, splitSpaces. intros H.
    pose proof (splitFrom_not_nil false (String c t)) as N.
    destruct (splitFrom false (String c t)); [congruence|]. simpl in H. lia.
Qed.

(** ** Reading time *)

Lemma ceilDiv_238 (a : Z) : ceilDiv a 238 = (- ((- a) / 238))%Z.
Proof.
  unfold ceilDiv, Qceiling, Qfloor, Qdiv, Qmult, Qinv, Qopp, inject_Z; simpl.
  rewrite Z.mul_1_r. reflexivity.
Qed.

Lemma ceilDiv_238_bounds (a : Z) :
  (238 * (ceilDiv a 238 - 1) < a <= 238 * ceilDiv a 238)%Z.
Proof.
  rewrite ceilDiv_238.
  pose proof (Z.div_mod (- a) 238 ltac:(lia)) as E.
  pose proof (Z.mod_pos_bound (- a) 238 ltac:(lia)) as B.
  lia.
Qed.

Lemma words_nonneg (text : string) : (0 <= words (countText text))%Z.
Proof.
  unfold countText; simpl. destruct (isEmpty _); unfold countZ; lia.
Qed.

(** C7.  For every text, [countText] returns [words >= 0], and
    [readingTimeMin] is the ceiling of [words / 238] (the least integer
    [k] with [words <= 238 * k]) raised to the minimum 1; so it is at
    least 1, in particular whenever [words > 0]. *)
Theorem countText_readingTime (text : string) :
  let r := countText text in
  (0 <= words r)%Z /\
  (exists k : Z,
      (238 * (k - 1) < words r <= 238 * k)%Z /\
      readingTimeMin r = Z.max 1 k) /\
  ((0 < words r)%Z -> (1 <= readingTimeMin r)%Z).
Proof.
  intros r. split; [apply words_nonneg|]. split.
  - exists (ceilDiv (words r) 238). split.
    + apply ceilDiv_238_bounds.
    + reflexivity.
  - intros _. unfold r, countText; simpl. lia.
Qed.

(** C9.  [countText] is a function of its argument alone: two calls on
    the same string return the same record. *)
Theorem countText_deterministic (text1 text2 : string) :
  text1 = text2 -> countText text1 = countText text2.
Proof. intros ->. reflexivity. Qed.

Lemma countText_deterministic_witness :
  "a b. c" = "a b. c" /\ countText "a b. c" = countText "a b. c".
Proof.
  split; [reflexivity|].
  apply (countText_deterministic "a b. c" "a b. c"). reflexivity.
Defined.

Lemma countText_readingTime_witness :
  let r := countText "One two. Three!" in
  (0 < words r)%Z /\ (1 <= readingTimeMin r)%Z.
Proof.
  cbv zeta. split; [reflexivity|].
  apply (countText_readingTime "One two. Three!"). reflexivity.
Defined.

(** C10.  For a text in which [countText] finds no words (the empty
    string, or white space only) every count is 0 and [readingTimeMin]
    is 1; and [readingTimeMin] is 0 for no text. *)
Theorem countText_no_words :
  (forall text : string,
      words (countText text) = 0%Z ->
      countText text =
      {| characters := 0; charactersNoSpaces := 0; words := 0;
         sentences := 0; paragraphs := 0; readingTimeMin := 1 |}) /\
  countText "" =
      {| characters := 0; charactersNoSpaces := 0; words := 0;
         sentences := 0; paragraphs := 0; readingTimeMin := 1 |} /\
  (forall text : string, readingTimeMin (countText text) <> 0%Z).
Proof.
  split; [|split].
  - intros text H. apply words_zero_iff in H. unfold countText.
    fold (cleanedText text).
    rewrite (cleanedText_allSpace text H), (trim_allSpace text H).
    reflexivity.
  - reflexivity.
  - intros text. unfold countText; simpl. lia.
Qed.

Lemma countText_no_words_witness :
  let text := String (ascii_of_N 10) "   " in
  words (countText text) = 0%Z /\
  countText text =
  {| characters := 0; charactersNoSpaces := 0; words := 0;
     sentences := 0; paragraphs := 0; readingTimeMin := 1 |}.
Proof.
  cbv zeta. split; [reflexivity|].
  apply (proj1 countText_no_words (String (ascii_of_N 10) "   ")). reflexivity.
Defined.

(** ** Syllables *)

Lemma isEmpty_snoc (s : string) (c : ascii) :
  isEmpty (s ++ String c EmptyString) = false.
Proof. destruct s; reflexivity. Qed.

Lemma dropFinalE_stripTrailingE (s : string) : dropFinalE s = stripTrailingE s.
Proof.
  unfold stripTrailingE.
  induction s as [|c s IH]; [reflexivity|].
  destruct s as [|d s].
  - simpl. destruct (code c =? 101)%N; reflexivity.
  - change (dropFinalE (String c (String d s)))
      with (String c (dropFinalE (String d s))).
    change (lastChar (String c (String d s))) with (lastChar (String d s)).
    change (removeLast (String c (String d s)))
      with (String c (removeLast (String d s))).
    rewrite IH.
    destruct (lastChar (String d s)) as [e|]; [|reflexivity].
    destruct (code e =? 101)%N; reflexivity.
Qed.

Lemma vowelGroupsFrom_length (s run : string) :
  List.length (vowelGroupsFrom run s) =
  vowelRuns (negb (isEmpty run)) s + (if isEmpty run then 0 else 1).
Proof.
  revert run. induction s as [|c s IH]; intros run; simpl.
  - destruct (isEmpty run); reflexivity.
  - destruct (isVowel c).
    + rewrite IH, isEmpty_snoc. simpl. destruct (isEmpty run); simpl; lia.
    + destruct (isEmpty run) eqn:E; simpl.
      * rewrite IH. simpl. lia.
      * rewrite IH. simpl. lia.
Qed.

Lemma vowelGroups_count (s : string) :
  Nat.max 1 (match matchVowelGroups s with
             | Some gs => List.length gs
             | None => 1
             end) = Nat.max 1 (vowelRuns false s).
Proof.
  unfold matchVowelGroups.
  pose proof (vowelGroupsFrom_length s EmptyString) as H. simpl in H.
  rewrite Nat.add_0_r in H. rewrite <- H.
  destruct (vowelGroupsFrom EmptyString s); reflexivity.
Qed.

Lemma countSyllables_refines (word : string) :
  countSyllables word = syllableEstimate word.
Proof.
  unfold countSyllables, syllableEstimate.
  set (w := keepChars isLower (toLowerCase word)).
  destruct w as [|c w']; [reflexivity|].
  change (isEmpty (String c w')) with false. rewrite orb_false_l.
  destruct (String.length (String c w') <=? 2); [reflexivity|].
  rewrite vowelGroups_count, dropFinalE_stripTrailingE. reflexivity.
Qed.

Lemma countSyllables_pos (word : string) : 1 <= countSyllables word.
Proof.
  unfold countSyllables.
  destruct (isEmpty _ || _); [lia|]. apply Nat.le_max_l.
Qed.

(** C6.  For every string, [countSyllables] returns an integer that is at
    least 1 and is the estimate of the specification: lower-case, strip
    the non-letters, 1 for at most two letters, otherwise one trailing
    "e" stripped and the maximal vowel runs counted, at least 1.  In
    particular "cat" has 1 syllable, "beautiful" at least 3, "a" 1. *)
Theorem countSyllables_spec :
  (forall word : string,
      1 <= countSyllables word /\
      countSyllables word = syllableEstimate word) /\
  countSyllables "cat" = 1 /\
  3 <= countSyllables "beautiful" /\
  countSyllables "a" = 1.
Proof.
  split.
  - intros word. split.
    + apply countSyllables_pos.
    + apply countSyllables_refines.
  - repeat split; vm_compute; lia.
Qed.

(** ** Binary64: digits and shifts *)

Section Binary64.
Local Open Scope Z_scope.

Lemma fexp_eq (x : Z) : fexp prec emax x = Z.max (x - 53) (-1074).
Proof. reflexivity. Qed.

Lemma digits2_pos_upper (p : positive) : Zpos p < 2 ^ Zpos (digits2_pos p).
Proof.
  induction p as [p IH|p IH|]; simpl digits2_pos.
  - rewrite Pos2Z.inj_succ, Z.pow_succ_r by lia. lia.
  - rewrite Pos2Z.inj_succ, Z.pow_succ_r by lia. lia.
  - reflexivity.
Qed.

Lemma digits2_pos_lower (p : positive) : 2 ^ (Zpos (digits2_pos p) - 1) <= Zpos p.
Proof.
  induction p as [p IH|p IH|]; simpl digits2_pos.
  - rewrite Pos2Z.inj_succ.
    replace (Z.succ (Zpos (digits2_pos p)) - 1) with (Z.succ (Zpos (digits2_pos p) - 1)) by lia.
    rewrite Z.pow_succ_r by lia. lia.
  - rewrite Pos2Z.inj_succ.
    replace (Z.succ (Zpos (digits2_pos p)) - 1) with (Z.succ (Zpos (digits2_pos p) - 1)) by lia.
    rewrite Z.pow_succ_r by lia. lia.
  - simpl. lia.
Qed.

Lemma Zdigits2_nonneg (m : Z) : 0 <= Zdigits2 m.
Proof. destruct m; simpl; lia. Qed.

Lemma Zdigits2_le_of_lt_pow (m k : Z) :
  0 <= m < 2 ^ k -> 0 <= k -> Zdigits2 m <= k.
Proof.
  intros [Hm Hlt] Hk. destruct m as [|p|p]; simpl; [lia| |lia].
  pose proof (digits2_pos_lower p) as Hl.
  assert (2 ^ (Zpos (digits2_pos p) - 1) < 2 ^ k) as H by lia.
  apply Z.pow_lt_mono_r_iff in H; lia.
Qed.

Lemma Zdigits2_upper (m : Z) : 0 <= m -> m < 2 ^ Zdigits2 m.
Proof.
  intros Hm. destruct m as [|p|p]; simpl; [lia| |lia].
  apply digits2_pos_upper.
Qed.

Lemma Zdigits2_mono (a b : Z) : 0 <= a <= b -> Zdigits2 a <= Zdigits2 b.
Proof.
  intros [Ha Hab]. apply Zdigits2_le_of_lt_pow.
  - pose proof (Zdigits2_upper b ltac:(lia)). lia.
  - apply Zdigits2_nonneg.
Qed.

Lemma Zdigits2_succ (m : Z) : 0 <= m -> Zdigits2 (m + 1) <= Zdigits2 m + 1.
Proof.
  intros Hm. apply Zdigits2_le_of_lt_pow.
  - pose proof (Zdigits2_upper m Hm) as H.
    pose proof (Zdigits2_nonneg m) as Hd.
    rewrite Z.pow_add_r by lia. change (2 ^ 1) with 2. lia.
  - pose proof (Zdigits2_nonneg m). lia.
Qed.

Lemma Zdigits2_shiftr (m n : Z) :
  0 <= m -> 0 < n -> Zdigits2 (m / 2 ^ n) <= Z.max 0 (Zdigits2 m - n).
Proof.
  intros Hm Hn.
  pose proof (Zdigits2_upper m Hm) as Hu.
  pose proof (Zdigits2_nonneg m) as Hd.
  assert (0 < 2 ^ n) as Hp by (apply Z.pow_pos_nonneg; lia).
  destruct (Z_le_gt_dec n (Zdigits2 m)) as [Hle|Hgt].
  - apply Zdigits2_le_of_lt_pow; [|lia].
    split; [apply Z.div_pos; lia|].
    apply Z.div_lt_upper_bound; [lia|].
    rewrite Z.max_r by lia. rewrite <- Z.pow_add_r by lia.
    replace (n + (Zdigits2 m - n)) with (Zdigits2 m) by lia. exact Hu.
  - assert (m / 2 ^ n = 0) as ->.
    { apply Z.div_small. split; [lia|].
      apply Z.lt_le_trans with (1 := Hu). apply Z.pow_le_mono_r; lia. }
    simpl. lia.
Qed.

Lemma digits2_pos_iter_xO (p k : positive) :
  Zpos (digits2_pos (Pos.iter xO p k)) = Zpos (digits2_pos p) + Zpos k.
Proof.
  induction k as [|k IH] using Pos.peano_ind.
  - rewrite Pos.iter_succ_r || idtac. simpl. lia.
  - rewrite Pos.iter_succ. simpl digits2_pos. rewrite Pos2Z.inj_succ, IH. lia.
Qed.

(** [shr_1] halves a mantissa that is not negative. *)
Lemma shr_1_m (mrs : shr_record) :
  0 <= shr_m mrs -> shr_m (shr_1 mrs) = shr_m mrs / 2.
Proof.
  destruct mrs as [m r t]. cbn [shr_m]. intros Hm.
  destruct m as [|[p|p|]|p]; try lia; cbn [shr_1 shr_m].
  - reflexivity.
  - apply Z.div_unique with (r := 1); lia.
  - apply Z.div_unique with (r := 0); lia.
  - reflexivity.
Qed.

Lemma iter_shr_1_m (n : positive) (mrs : shr_record) :
  0 <= shr_m mrs ->
  shr_m (iter_pos shr_1 n mrs) = shr_m mrs / 2 ^ Zpos n.
Proof.
  revert mrs. induction n as [n IH|n IH|]; intros mrs Hm; simpl iter_pos.
  - assert (0 <= shr_m (shr_1 mrs)) as H1
        by (rewrite shr_1_m by assumption; apply Z.div_pos; lia).
    assert (0 < 2 ^ Zpos n) as Hp by (apply Z.pow_pos_nonneg; lia).
    assert (0 <= shr_m (iter_pos shr_1 n (shr_1 mrs))) as H2
        by (rewrite IH by assumption; apply Z.div_pos; lia).
    rewrite IH, IH, shr_1_m by assumption.
    rewrite !Z.div_div by lia. f_equal.
    replace (Zpos n~1) with (1 + Zpos n + Zpos n) by lia.
    rewrite !Z.pow_add_r by lia. change (2 ^ 1) with 2. lia.
  - assert (0 < 2 ^ Zpos n) as Hp by (apply Z.pow_pos_nonneg; lia).
    assert (0 <= shr_m (iter_pos shr_1 n mrs)) as H2
        by (rewrite IH by assumption; apply Z.div_pos; lia).
    rewrite IH, IH by assumption.
    rewrite !Z.div_div by lia. f_equal.
    replace (Zpos n~0) with (Zpos n + Zpos n) by lia.
    rewrite Z.pow_add_r by lia. reflexivity.
  - rewrite shr_1_m by assumption. reflexivity.
Qed.

Lemma shr_m_of_loc (m : Z) (l : location) : shr_m (shr_record_of_loc m l) = m.
Proof. destruct l as [|[ | | ]]; reflexivity. Qed.

Lemma shr_spec (mrs : shr_record) (e n : Z) :
  0 <= shr_m mrs ->
  0 <= shr_m (fst (shr mrs e n)) /\
  (0 < n ->
   shr_m (fst (shr mrs e n)) = shr_m mrs / 2 ^ n /\ snd (shr mrs e n) = e + n) /\
  (n <= 0 -> shr (mrs) e n = (mrs, e)).
Proof.
  intros Hm. destruct n as [|n|n]; cbn [shr fst snd].
  - repeat split; lia.
  - rewrite iter_shr_1_m by assumption.
    assert (0 < 2 ^ Zpos n) by (apply Z.pow_pos_nonneg; lia).
    repeat split; try lia. apply Z.div_pos; lia.
  - repeat split; lia.
Qed.

(** What [shr_fexp] returns for a mantissa that is not negative: the
    mantissa stays so, and neither the exponent nor the magnitude
    [digits + exponent] goes above what the format allows for the input. *)
Lemma shr_fexp_spec (m e : Z) (l : location) :
  0 <= m ->
  let r := shr_fexp prec emax m e l in
  0 <= shr_m (fst r) /\
  snd r <= Z.max e (fexp prec emax (Zdigits2 m + e)) /\
  Zdigits2 (shr_m (fst r)) + snd r <= Z.max (Zdigits2 m + e) (snd r).
Proof.
  intros Hm r. unfold r, shr_fexp.
  set (n := fexp prec emax (Zdigits2 m + e) - e).
  assert (0 <= shr_m (shr_record_of_loc m l)) as H0 by (rewrite shr_m_of_loc; exact Hm).
  destruct (shr_spec (shr_record_of_loc m l) e n H0) as (Hnn & Hpos & Hnon).
  split; [exact Hnn|].
  destruct (Z_lt_le_dec 0 n) as [Hn|Hn].
  - destruct (Hpos Hn) as [Em Ee]. rewrite Em, Ee, shr_m_of_loc.
    pose proof (Zdigits2_shiftr m n Hm Hn). unfold n in *. lia.
  - rewrite (Hnon Hn). cbn [fst snd]. rewrite shr_m_of_loc. lia.
Qed.

Lemma round_nearest_even_bounds (m : Z) (l : location) :
  m <= round_nearest_even m l <= m + 1.
Proof.
  destruct l as [|[ | | ]]; cbn [round_nearest_even]; try lia.
  destruct (Z.even m); lia.
Qed.

(** The result of rounding a mantissa that is not negative carries the
    sign it was given, and is finite when the magnitude of the input is
    below the largest exponent. *)
Lemma binary_round_aux_spec (s : bool) (m e : Z) (l : location) :
  0 <= m ->
  hasSign s (binary_round_aux prec emax s m e l) = true /\
  (Zdigits2 m + e <= 1023 -> e <= 971 ->
   isFinite (binary_round_aux prec emax s m e l) = true).
Proof.
  intros Hm. unfold binary_round_aux.
  pose proof (shr_fexp_spec m e l Hm) as H1. cbv zeta in H1.
  destruct (shr_fexp prec emax m e l) as [mrs' e'] eqn:E1. cbn [fst snd] in H1.
  destruct H1 as (Hm' & He' & Hd').
  set (m1 := round_nearest_even (shr_m mrs') (loc_of_shr_record mrs')).
  pose proof (round_nearest_even_bounds (shr_m mrs') (loc_of_shr_record mrs')) as Hr.
  fold m1 in Hr.
  assert (0 <= m1) as Hm1 by lia.
  pose proof (shr_fexp_spec m1 e' loc_Exact Hm1) as H2. cbv zeta in H2.
  destruct (shr_fexp prec emax m1 e' loc_Exact) as [mrs'' e''] eqn:E2.
  cbn [fst snd] in H2. destruct H2 as (Hm'' & He'' & _).
  destruct (shr_m mrs'') as [|q|q] eqn:Eq; [| |lia].
  - split; [apply eqb_reflx|reflexivity].
  - change (emax - prec) with 971.
    destruct (e'' <=? 971) eqn:El.
    + split; [apply eqb_reflx|reflexivity].
    + split; [apply eqb_reflx|]. intros Hd He.
      apply Z.leb_gt in El.
      assert (Zdigits2 m1 <= Zdigits2 (shr_m mrs') + 1) as Hd1.
      { apply Z.le_trans with (Zdigits2 (shr_m mrs' + 1)).
        - apply Zdigits2_mono; lia.
        - apply Zdigits2_succ; lia. }
      rewrite !fexp_eq in *. lia.
Qed.

Lemma shl_align_spec (m : positive) (e e2 : Z) :
  let r := shl_align m e e2 in
  snd r <= e /\
  Zpos (digits2_pos (fst r)) + snd r = Zpos (digits2_pos m) + e /\
  (e2 <= e -> snd r = e2).
Proof.
  unfold shl_align. destruct (e2 - e) as [|d|d] eqn:E; cbn [fst snd].
  - repeat split; lia.
  - repeat split; lia.
  - rewrite digits2_pos_iter_xO. repeat split; lia.
Qed.

Lemma binary_round_spec (s : bool) (m : positive) (e : Z) :
  hasSign s (binary_round prec emax s m e) = true /\
  (Zpos (digits2_pos m) + e <= 1023 -> e <= 971 ->
   isFinite (binary_round prec emax s m e) = true).
Proof.
  unfold binary_round.
  pose proof (shl_align_spec m e (fexp prec emax (Zpos (digits2_pos m) + e))) as H.
  cbv zeta in H.
  destruct (shl_align m e (fexp prec emax (Zpos (digits2_pos m) + e))) as [mz ez].
  cbn [fst snd] in H. destruct H as (He & Hd & _).
  destruct (binary_round_aux_spec s (Zpos mz) ez loc_Exact ltac:(lia)) as [Hs Hf].
  split; [exact Hs|]. intros H1 H2. apply Hf; cbn [Zdigits2]; lia.
Qed.

(** A mantissa that already fits its exponent is left as it is. *)
Lemma binary_round_aux_canonical (s : bool) (m : positive) (e : Z) :
  fexp prec emax (Zpos (digits2_pos m) + e) = e -> e <= 971 ->
  binary_round_aux prec emax s (Zpos m) e loc_Exact = S754_finite s m e.
Proof.
  intros Hc He. unfold binary_round_aux, shr_fexp. cbn [Zdigits2].
  rewrite Hc, Z.sub_diag. cbn [shr shr_record_of_loc shr_m loc_of_shr_record
    round_nearest_even Zdigits2].
  rewrite Hc, Z.sub_diag. cbn [shr shr_record_of_loc shr_m].
  change (emax - prec) with 971.
  apply Z.leb_le in He. rewrite He. reflexivity.
Qed.

(** The Number of a positive integer up to 2^53 is finite, positive and
    not zero. *)
Lemma ofZ_finite (z : Z) :
  0 < z <= 2 ^ 53 ->
  exists m e, ofZ z = S754_finite false m e /\
              1 <= Zpos (digits2_pos m) + e <= 54 /\ -52 <= e <= 1.
Proof.
  intros [Hz Hle]. destruct z as [|p|p]; try lia.
  destruct (Z.eq_dec (Zpos p) (2 ^ 53)) as [E|NE].
  - rewrite E. vm_compute. do 2 eexists. split; [reflexivity|].
    vm_compute. repeat split; discriminate.
  - assert (Zdigits2 (Zpos p) <= 53) as Hd
        by (apply Zdigits2_le_of_lt_pow; lia).
    cbn [Zdigits2] in Hd.
    unfold ofZ, binary_normalize, binary_round.
    pose proof (shl_align_spec p 0 (fexp prec emax (Zpos (digits2_pos p) + 0))) as H.
    cbv zeta in H.
    destruct (shl_align p 0 (fexp prec emax (Zpos (digits2_pos p) + 0))) as [mz ez].
    cbn [fst snd] in H. destruct H as (He & Hdig & Hez).
    rewrite fexp_eq in Hez.
    assert (ez = Zpos (digits2_pos p) - 53) as Eez by lia.
    exists mz, ez. split.
    + apply binary_round_aux_canonical; [|lia].
      rewrite fexp_eq. lia.
    + lia.
Qed.

Lemma ofNat_finite (n : nat) :
  0 < Z.of_nat n <= 2 ^ 53 ->
  exists m e, ofNat n = S754_finite false m e /\
              1 <= Zpos (digits2_pos m) + e <= 54 /\ -52 <= e <= 1.
Proof. apply ofZ_finite. Qed.

Lemma ofZ_nonneg_sign (z : Z) : 0 <= z -> hasSign false (ofZ z) = true.
Proof.
  intros Hz. destruct z as [|p|p]; try lia; [reflexivity|].
  apply binary_round_spec.
Qed.

(** ** Binary64: the operations *)

Lemma hasSign_notNaN (s : bool) (x : num) : hasSign s x = true -> notNaN x = true.
Proof. destruct x; simpl; congruence. Qed.

Lemma hasSign_true_belowInfinity (x : num) :
  hasSign true x = true -> belowInfinity x = true.
Proof. destruct x as [s|[|]| |s m e]; simpl; congruence. Qed.

Lemma isFinite_belowInfinity (x : num) :
  isFinite x = true -> belowInfinity x = true.
Proof. destruct x as [s|[|]| |s m e]; simpl; congruence. Qed.

Lemma binary_normalize_notNaN (z e : Z) :
  notNaN (binary_normalize prec emax z e false) = true.
Proof.
  destruct z as [|p|p]; cbn [binary_normalize]; [reflexivity| |];
    eapply hasSign_notNaN, binary_round_spec.
Qed.

Lemma SFcompare_antisym (x y : num) (c : comparison) :
  SFcompare x y = Some c -> SFcompare y x = Some (CompOpp c).
Proof.
  destruct x as [sx|sx| |sx mx ex], y as [sy|sy| |sy my ey]; cbn [SFcompare];
    intros H; try discriminate; injection H as <-;
    try (destruct sx; reflexivity); try (destruct sy; reflexivity);
    try reflexivity.
  - destruct sx, sy; reflexivity.
  - destruct sx, sy; try reflexivity.
    + pose proof (Pos.compare_cont_antisym mx my Eq) as HA. cbn [CompOpp] in HA.
      rewrite (Z.compare_antisym ex ey).
      destruct (ex ?= ey); try reflexivity. cbn [CompOpp].
      rewrite HA. reflexivity.
    + pose proof (Pos.compare_cont_antisym mx my Eq) as HA. cbn [CompOpp] in HA.
      rewrite (Z.compare_antisym ex ey).
      destruct (ex ?= ey); try reflexivity. cbn [CompOpp].
      rewrite HA. reflexivity.
Qed.

Lemma div_core_spec (m1 e1 m2 e2 : Z) :
  0 < m1 -> 0 < m2 ->
  let r := SFdiv_core_binary prec emax m1 e1 m2 e2 in
  0 <= fst (fst r) /\
  snd (fst r) <= e1 - e2 /\
  Zdigits2 (fst (fst r)) + snd (fst r)
  <= Z.max ((Zdigits2 m1 + e1) - (Zdigits2 m2 + e2) + 1) (snd (fst r)).
Proof.
  intros H1 H2. unfold SFdiv_core_binary.
  set (e' := Z.min _ (e1 - e2)).
  assert (e' <= e1 - e2) as He' by (unfold e'; lia).
  set (s := e1 - e2 - e').
  assert (0 <= s) as Hs by (unfold s; lia).
  set (m' := match s with Zpos _ => Z.shiftl m1 s | Z0 => m1 | Zneg _ => 0 end).
  assert (m' = m1 * 2 ^ s) as Em'.
  { unfold m'. destruct s as [|q|q] eqn:Es; try lia.
    apply Z.shiftl_mul_pow2. lia. }
  pose proof (Z_div_mod m' m2 ltac:(lia)) as Hdm.
  destruct (Z.div_eucl m' m2) as [q r]. cbn [fst snd].
  destruct Hdm as [Eq Hr].
  assert (0 < 2 ^ s) as Hps by (apply Z.pow_pos_nonneg; lia).
  assert (0 <= q) as Hq by nia.
  split; [exact Hq|]. split; [exact He'|].
  pose proof (Zdigits2_upper m1 ltac:(lia)) as U1.
  destruct m2 as [|p2|p2]; try lia.
  pose proof (digits2_pos_lower p2) as L2. cbn [Zdigits2].
  pose proof (Zdigits2_nonneg m1) as N1.
  set (d1 := Zdigits2 m1) in *. set (d2 := Zpos (digits2_pos p2)) in *.
  assert (1 <= d2) as Hd2 by (unfold d2; lia).
  assert (m' < 2 ^ (d1 + s)) as Um'.
  { rewrite Em', Z.pow_add_r by lia. nia. }
  destruct (Z_le_gt_dec (d1 + s - d2 + 1) 0) as [Hk|Hk].
  - assert (2 ^ (d1 + s) <= 2 ^ (d2 - 1)) by (apply Z.pow_le_mono_r; lia).
    assert (q = 0) as -> by nia.
    cbn [Zdigits2]. lia.
  - assert (Zdigits2 q <= d1 + s - d2 + 1) as Hdq.
    { apply Zdigits2_le_of_lt_pow; [|lia]. split; [exact Hq|].
      assert (0 < 2 ^ (d2 - 1)) as Hp2 by (apply Z.pow_pos_nonneg; lia).
      apply (Z.mul_lt_mono_pos_r (2 ^ (d2 - 1))); [exact Hp2|].
      rewrite <- Z.pow_add_r by lia.
      replace (d1 + s - d2 + 1 + (d2 - 1)) with (d1 + s) by lia.
      nia. }
    unfold s in Hdq. lia.
Qed.

Lemma nearestRatio_sign (s : bool) (n d : Z) :
  0 < n -> 0 < d -> hasSign s (nearestRatio s n d) = true.
Proof.
  intros Hn Hd. unfold nearestRatio.
  pose proof (div_core_spec n 0 d 0 Hn Hd) as H. cbv zeta in H.
  destruct (SFdiv_core_binary prec emax n 0 d 0) as [[q e] l]. cbn [fst snd] in H.
  apply binary_round_aux_spec. lia.
Qed.

Lemma fdiv_finite_sign (sx sy : bool) (mx my : positive) (ex ey : Z) :
  hasSign (xorb sx sy)
    (fdiv (S754_finite sx mx ex) (S754_finite sy my ey)) = true.
Proof.
  unfold fdiv. cbn [SFdiv].
  pose proof (div_core_spec (Zpos mx) ex (Zpos my) ey ltac:(lia) ltac:(lia)) as H.
  cbv zeta in H.
  destruct (SFdiv_core_binary prec emax (Zpos mx) ex (Zpos my) ey) as [[q e] l].
  cbn [fst snd] in H. apply binary_round_aux_spec. lia.
Qed.

(** A quotient of a positive finite Number and a Number that is not
    negative, either way round, is not negative (and not NaN). *)
Lemma fdiv_sign_l (mx : positive) (ex : Z) (y : num) :
  hasSign false y = true ->
  hasSign false (fdiv (S754_finite false mx ex) y) = true.
Proof.
  destruct y as [sy|sy| |sy my ey]; cbn [hasSign]; intros H; try discriminate;
    destruct sy; try discriminate.
  - reflexivity.
  - reflexivity.
  - apply (fdiv_finite_sign false false).
Qed.

Lemma fdiv_sign_r (x : num) (my : positive) (ey : Z) :
  hasSign false x = true ->
  hasSign false (fdiv x (S754_finite false my ey)) = true.
Proof.
  destruct x as [sx|sx| |sx mx ex]; cbn [hasSign]; intros H; try discriminate;
    destruct sx; try discriminate.
  - reflexivity.
  - reflexivity.
  - apply (fdiv_finite_sign false false).
Qed.

Lemma fmul_sign (mx : positive) (ex : Z) (y : num) :
  hasSign false y = true ->
  hasSign false (fmul (S754_finite false mx ex) y) = true.
Proof.
  destruct y as [sy|sy| |sy my ey]; cbn [hasSign]; intros H; try discriminate;
    destruct sy; try discriminate.
  - reflexivity.
  - reflexivity.
  - unfold fmul. cbn [SFmul xorb]. apply binary_round_aux_spec. lia.
Qed.

(** A finite positive Number minus a Number that is not negative does not
    reach +Infinity. *)
Lemma fsub_belowInfinity (m1 : positive) (e1 : Z) (y : num) :
  Zpos (digits2_pos m1) + e1 <= 1023 -> e1 <= 971 ->
  hasSign false y = true ->
  belowInfinity (fsub (S754_finite false m1 e1) y) = true.
Proof.
  intros Hd He.
  destruct y as [sy|sy| |sy my ey]; cbn [hasSign]; intros H; try discriminate;
    destruct sy; try discriminate.
  - reflexivity.
  - reflexivity.
  - unfold fsub. cbn [SFsub cond_Zopp].
    set (ez := Z.min e1 ey).
    pose proof (shl_align_spec m1 e1 ez) as A1. cbv zeta in A1.
    destruct A1 as (_ & A1 & A2).
    rewrite (A2 ltac:(unfold ez; lia)) in A1.
    set (M1 := fst (shl_align m1 e1 ez)) in *.
    set (MY := fst (shl_align my ey ez)).
    destruct (Zpos M1 - Zpos MY) as [|d|d] eqn:Ed; cbn [binary_normalize].
    + reflexivity.
    + apply isFinite_belowInfinity, binary_round_spec.
      * pose proof (Zdigits2_mono (Zpos d) (Zpos M1) ltac:(lia)) as Hm.
        cbn [Zdigits2] in Hm. lia.
      * unfold ez. lia.
    + apply hasSign_true_belowInfinity, binary_round_spec.
Qed.

Lemma fsub_notNaN (x y : num) :
  belowInfinity x = true -> hasSign false y = true -> notNaN (fsub x y) = true.
Proof.
  destruct x as [sx|sx| |sx mx ex], y as [sy|sy| |sy my ey];
    cbn [belowInfinity hasSign]; intros Hx Hy; try discriminate;
    destruct sy; try discriminate; try (destruct sx; try discriminate; reflexivity).
  unfold fsub. cbn [SFsub]. apply binary_normalize_notNaN.
Qed.

Lemma toFixedNum_notNaN (d : nat) (x : num) :
  notNaN x = true -> notNaN (toFixedNum d x) = true.
Proof.
  destruct x as [s|s| |s m e]; cbn [notNaN toFixedNum]; intros H;
    try discriminate; try reflexivity.
  destruct (atLeast1e21 m e); [reflexivity|].
  destruct (scaledRound m e d) as [|n|n]; try reflexivity.
  eapply hasSign_notNaN, nearestRatio_sign; [lia|].
  apply Z.pow_pos_nonneg; lia.
Qed.

(** The clamp of [fleschEase]. *)
Lemma clamp_range (r : num) :
  notNaN r = true ->
  let f := Math_max (ofZ 0) (Math_min (ofZ 100) r) in
  SFleb (ofZ 0) f = true /\ SFleb f (ofZ 100) = true.
Proof.
  intros Hr.
  assert (exists c, SFcompare (ofZ 100) r = Some c) as [c Hc].
  { destruct r as [s|s| |s m e]; try discriminate; cbn; eauto. }
  assert (SFleb (Math_min (ofZ 100) r) (ofZ 100) = true
          /\ notNaN (Math_min (ofZ 100) r) = true) as [Hmin Hn].
  { unfold Math_min. rewrite Hc. destruct c.
    - split; reflexivity.
    - split; reflexivity.
    - split; [|exact Hr]. unfold SFleb.
      rewrite (SFcompare_antisym _ _ _ Hc). reflexivity. }
  set (m := Math_min (ofZ 100) r) in *.
  assert (exists c', SFcompare (ofZ 0) m = Some c') as [c' Hc'].
  { destruct m as [s|s| |s k e]; try discriminate; cbn; eauto. }
  cbv zeta. unfold Math_max. rewrite Hc'. destruct c'.
  - split; reflexivity.
  - split; [|exact Hmin]. unfold SFleb. rewrite Hc'. reflexivity.
  - split; reflexivity.
Qed.

Lemma fdiv_isFinite (sx sy : bool) (mx my : positive) (ex ey : Z) :
  (Zpos (digits2_pos mx) + ex) - (Zpos (digits2_pos my) + ey) + 1 <= 1023 ->
  ex - ey <= 971 ->
  isFinite (fdiv (S754_finite sx mx ex) (S754_finite sy my ey)) = true.
Proof.
  intros Hm He. unfold fdiv. cbn [SFdiv].
  pose proof (div_core_spec (Zpos mx) ex (Zpos my) ey ltac:(lia) ltac:(lia)) as H.
  cbv zeta in H.
  destruct (SFdiv_core_binary prec emax (Zpos mx) ex (Zpos my) ey) as [[q e] l].
  cbn [fst snd Zdigits2] in H. apply binary_round_aux_spec; lia.
Qed.

(** The quotient of two counts, the divisor positive, is a finite Number
    that is not negative. *)
Lemma ratio_isFinite (a b : nat) :
  Z.of_nat a <= 2 ^ 53 -> 0 < Z.of_nat b <= 2 ^ 53 ->
  isFinite (ofNat a / ofNat b)%num = true /\
  hasSign false (ofNat a / ofNat b)%num = true.
Proof.
  intros Ha Hb.
  destruct (ofNat_finite b Hb) as (mb & eb & Eb & Db & Xb). rewrite Eb.
  destruct (Z.eq_dec (Z.of_nat a) 0) as [Z0|NZ].
  - unfold ofNat. rewrite Z0. split; reflexivity.
  - destruct (ofNat_finite a ltac:(lia)) as (ma & ea & Ea & Da & Xa). rewrite Ea.
    split; [apply fdiv_isFinite; lia|apply (fdiv_finite_sign false false)].
Qed.

Lemma fadd_sign (x y : num) :
  hasSign false x = true -> hasSign false y = true ->
  hasSign false (fadd x y) = true.
Proof.
  destruct x as [sx|sx| |sx mx ex], y as [sy|sy| |sy my ey]; cbn [hasSign];
    intros Hx Hy; try discriminate;
    destruct sx; try discriminate; destruct sy; try discriminate;
    try reflexivity.
  unfold fadd. cbn [SFadd cond_Zopp binary_normalize Z.add].
  apply binary_round_spec.
Qed.

Lemma fsub_finite_notNaN (x : num) (m : positive) (e : Z) :
  hasSign false x = true -> notNaN (fsub x (S754_finite false m e)) = true.
Proof.
  destruct x as [sx|sx| |sx mx ex]; cbn [hasSign]; intros Hx; try discriminate;
    try reflexivity.
  unfold fsub. cbn [SFsub]. apply binary_normalize_notNaN.
Qed.

Lemma Math_max_zero (r : num) :
  notNaN r = true -> SFleb (ofZ 0) (Math_max (ofZ 0) r) = true.
Proof.
  intros Hr.
  assert (exists c, SFcompare (ofZ 0) r = Some c) as [c Hc].
  { destruct r as [s|s| |s m e]; try discriminate; cbn; eauto. }
  unfold Math_max. rewrite Hc. destruct c.
  - reflexivity.
  - unfold SFleb. rewrite Hc. reflexivity.
  - reflexivity.
Qed.

End Binary64.


(** ** Lengths *)

Lemma collapseFrom_length (b : bool) (s : string) :
  String.length (collapseFrom b s) <= String.length s.
Proof.
  revert b. induction s as [|c s IH]; intros b; simpl; [lia|].
  pose proof (IH true). pose proof (IH false).
  destruct (isSpace c); [destruct b|]; simpl; lia.
Qed.

Lemma trimStart_length (s : string) : String.length (trimStart s) <= String.length s.
Proof.
  induction s as [|c s IH]; simpl; [lia|]. destruct (isSpace c); simpl; lia.
Qed.

Lemma trimEnd_length (s : string) : String.length (trimEnd s) <= String.length s.
Proof.
  induction s as [|c s IH]; simpl; [lia|].
  destruct (isSpace c && isEmpty (trimEnd s)); simpl; lia.
Qed.

Lemma cleanedText_length (s : string) :
  String.length (cleanedText s) <= String.length s.
Proof.
  unfold cleanedText, trim, collapseSpaces.
  pose proof (trimEnd_length (trimStart (collapseFrom false s))).
  pose proof (trimStart_length (collapseFrom false s)).
  pose proof (collapseFrom_length false s). lia.
Qed.

Lemma splitFrom_length (b : bool) (s : string) :
  List.length (splitFrom b s) <= S (String.length s).
Proof.
  revert b. induction s as [|c s IH]; intros b; simpl; [lia|].
  destruct (isSpace c).
  - destruct b; simpl; specialize (IH true); lia.
  - specialize (IH false). destruct (splitFrom false s); simpl in *; lia.
Qed.

Lemma sentenceEndsFrom_length (s run : string) :
  List.length (sentenceEndsFrom run s) <= S (String.length s).
Proof.
  revert run. induction s as [|c s IH]; intros run; simpl.
  - destruct (isEmpty run); simpl; lia.
  - destruct (isTerminator c).
    + specialize (IH (run ++ String c EmptyString)). lia.
    + destruct (isSpace c && negb (isEmpty run)); simpl;
        specialize (IH EmptyString); lia.
Qed.

Lemma countSentences_length (s : string) :
  countSentences s <= S (String.length s).
Proof.
  unfold countSentences, matchSentenceEnds.
  pose proof (sentenceEndsFrom_length s EmptyString).
  destruct (sentenceEndsFrom EmptyString s); simpl in *; lia.
Qed.

Lemma append_length (a b : string) :
  String.length (a ++ b) = String.length a + String.length b.
Proof. induction a as [|c a IH]; simpl; [reflexivity|]. rewrite IH. reflexivity. Qed.

Lemma concat_empty_length (l : list string) :
  String.length (String.concat "" l) = totalLength l.
Proof.
  induction l as [|x l IH]; [reflexivity|].
  destruct l as [|y l].
  - simpl. lia.
  - change (String.concat "" (x :: y :: l))
      with (x ++ "" ++ String.concat "" (y :: l)).
    rewrite !append_length, IH. simpl. lia.
Qed.

Lemma splitFrom_totalLength (b : bool) (s : string) :
  totalLength (splitFrom b s) <= String.length s.
Proof.
  revert b. induction s as [|c s IH]; intros b; simpl; [lia|].
  pose proof (IH true). pose proof (IH false).
  destruct (isSpace c); [destruct b; simpl; lia|].
  destruct (splitFrom false s); simpl in *; lia.
Qed.

(** *** The cleaned text is tidy, and its words are not empty *)

Lemma collapseFrom_singleSpaced (b : bool) (s : string) :
  singleSpaced b (collapseFrom b s) = true.
Proof.
  revert b. induction s as [|c s IH]; intros b; simpl; [reflexivity|].
  destruct (isSpace c) eqn:Ec.
  - destruct b; [apply IH|]. simpl. apply IH.
  - simpl. rewrite Ec. apply IH.
Qed.

Lemma trimStart_singleSpaced (b : bool) (t : string) :
  singleSpaced b t = true -> singleSpaced true (trimStart t) = true.
Proof.
  revert b. induction t as [|c t IH]; intros b; simpl; [reflexivity|].
  destruct (isSpace c) eqn:Ec.
  - intros H. apply andb_prop in H as [_ H]. apply (IH true H).
  - intros H. simpl. rewrite Ec. exact H.
Qed.

Lemma trimEnd_tidy (b : bool) (t : string) :
  singleSpaced b t = true ->
  trimEnd t = EmptyString \/ tidyFrom b (trimEnd t) = true.
Proof.
  revert b. induction t as [|c t IH]; intros b; simpl; [auto|].
  destruct (isSpace c) eqn:Ec.
  - intros H. apply andb_prop in H as [Hb H].
    destruct (IH true H) as [E|E].
    + rewrite E. simpl. auto.
    + destruct (trimEnd t) eqn:Et; simpl; [auto|].
      right. rewrite Ec, Hb. exact E.
  - intros H. simpl. right. rewrite Ec.
    destruct (IH false H) as [E|E]; [rewrite E; reflexivity|exact E].
Qed.

Lemma cleanedText_tidy (s : string) :
  cleanedText s = EmptyString \/ tidyFrom true (cleanedText s) = true.
Proof.
  unfold cleanedText, trim, collapseSpaces.
  apply trimEnd_tidy, (trimStart_singleSpaced false), collapseFrom_singleSpaced.
Qed.

Lemma splitFrom_tidy (t : string) (b : bool) :
  tidyFrom b t = true ->
  splitFrom b t = splitFrom false t /\
  Forall (fun w => w <> EmptyString) (tl (splitFrom false t)) /\
  (b = true -> Forall (fun w => w <> EmptyString) (splitFrom false t)).
Proof.
  revert b. induction t as [|c t IH]; intros b; simpl.
  - destruct b; [discriminate|]. intros _. repeat split; [constructor|discriminate].
  - destruct (isSpace c) eqn:Ec.
    + intros H. apply andb_prop in H as [Hb H]. apply negb_true_iff in Hb. subst b.
      destruct (IH true H) as (E & _ & F). rewrite E.
      repeat split; [apply F; reflexivity|discriminate].
    + intros H. destruct (IH false H) as (_ & F & _).
      split; [destruct b; reflexivity|].
      destruct (splitFrom false t) as [|p ps]; simpl in *.
      * repeat split; [constructor|]. intros _. constructor; [discriminate|constructor].
      * repeat split; [exact F|]. intros _. constructor; [discriminate|exact F].
Qed.

Lemma readabilityWords_nonempty (bodyText : string) :
  readabilityText bodyText <> EmptyString ->
  Forall (fun w => w <> EmptyString) (readabilityWords bodyText).
Proof.
  unfold readabilityWords, readabilityText, splitSpaces. fold (cleanedText bodyText).
  intros H. destruct (cleanedText_tidy bodyText) as [E|T]; [congruence|].
  apply (splitFrom_tidy _ true T). reflexivity.
Qed.

(** *** A word has no more syllables than characters *)

Lemma keepChars_length (p : ascii -> bool) (s : string) :
  String.length (keepChars p s) <= String.length s.
Proof.
  induction s as [|c s IH]; simpl; [lia|]. destruct (p c); simpl; lia.
Qed.

Lemma toLowerCase_length (s : string) :
  String.length (toLowerCase s) = String.length s.
Proof. induction s as [|c s IH]; simpl; [reflexivity|]. rewrite IH. reflexivity. Qed.

Lemma dropFinalE_length (s : string) :
  String.length (dropFinalE s) <= String.length s.
Proof.
  induction s as [|c s IH]; simpl; [lia|].
  destruct (isEmpty s && (code c =? 101)%N); simpl; lia.
Qed.

Lemma vowelRuns_length (b : bool) (s : string) : vowelRuns b s <= String.length s.
Proof.
  revert b. induction s as [|c s IH]; intros b; simpl; [lia|].
  pose proof (IH true). pose proof (IH false).
  destruct (isVowel c); [destruct b|]; lia.
Qed.

Lemma countSyllables_length (w : string) :
  w <> EmptyString -> countSyllables w <= String.length w.
Proof.
  intros Hw. assert (1 <= String.length w) as H1 by (destruct w; simpl; [congruence|lia]).
  rewrite countSyllables_refines. unfold syllableEstimate.
  destruct (String.length (keepChars isLower (toLowerCase w)) <=? 2); [exact H1|].
  rewrite <- dropFinalE_stripTrailingE.
  pose proof (vowelRuns_length false (dropFinalE (keepChars isLower (toLowerCase w)))).
  pose proof (dropFinalE_length (keepChars isLower (toLowerCase w))).
  pose proof (keepChars_length isLower (toLowerCase w)).
  pose proof (toLowerCase_length w). lia.
Qed.

Lemma fold_syllables_bound (l : list string) (a : nat) :
  Forall (fun w => w <> EmptyString) l ->
  fold_left (fun sum w => sum + countSyllables w) l a <= a + totalLength l.
Proof.
  intros H. revert a. induction H as [|w l Hw Hl IH]; intros a; simpl; [lia|].
  pose proof (IH (a + countSyllables w)).
  pose proof (countSyllables_length w Hw). lia.
Qed.

(** ** Readability *)

Section Readability.
Local Open Scope Z_scope.

(** The guard of [analyzeReadability] compares the word count that
    [countText] reports with 30. *)
Lemma guard_words (bodyText : string) :
  (isEmpty (readabilityText bodyText)
   || (List.length (splitSpaces (readabilityText bodyText)) <? 30)%nat)
  = (words (countText bodyText) <? 30).
Proof.
  unfold countText, readabilityText. cbn [words].
  fold (cleanedText bodyText).
  destruct (isEmpty (cleanedText bodyText)); [reflexivity|].
  cbn [orb]. unfold countZ.
  destruct (Nat.ltb_spec (List.length (splitSpaces (cleanedText bodyText))) 30);
    destruct (Z.ltb_spec (Z.of_nat (List.length (splitSpaces (cleanedText bodyText)))) 30);
    try reflexivity; lia.
Qed.

Lemma words_wordCountOf (bodyText : string) :
  30 <= words (countText bodyText) ->
  words (countText bodyText) = Z.of_nat (wordCountOf bodyText).
Proof.
  unfold countText, wordCountOf, readabilityWords, readabilityText. cbn [words].
  fold (cleanedText bodyText).
  destruct (isEmpty (cleanedText bodyText)); [lia|]. reflexivity.
Qed.

Lemma analyzeReadability_long (bodyText : string) :
  30 <= words (countText bodyText) ->
  analyzeReadability bodyText =
  let wordCount := wordCountOf bodyText in
  let sentenceCount := sentenceCountOf bodyText in
  let totalSyllables := totalSyllablesOf bodyText in
  {| score := scoreOf (fleschEaseOf wordCount sentenceCount totalSyllables);
     fleschEase := Some (fleschEaseOf wordCount sentenceCount totalSyllables);
     fleschKincaid := Some (fleschKincaidOf wordCount sentenceCount totalSyllables);
     avgSentenceLen := Some (toFixedNum 1 (ofNat wordCount / ofNat sentenceCount)%num);
     avgWordLen :=
       Some (toFixedNum 1 (ofNat (joinedLengthOf bodyText) / ofNat wordCount)%num);
     syllablesPerWord :=
       Some (toFixedNum 2 (ofNat totalSyllables / ofNat wordCount)%num);
     message := None |}.
Proof.
  intros H. unfold analyzeReadability. cbv zeta.
  rewrite guard_words.
  apply Z.ltb_ge in H. rewrite H. reflexivity.
Qed.

Lemma analyzeReadability_short (bodyText : string) :
  words (countText bodyText) < 30 ->
  analyzeReadability bodyText = notEnoughText.
Proof.
  intros H. unfold analyzeReadability. cbv zeta.
  rewrite guard_words.
  apply Z.ltb_lt in H. rewrite H. reflexivity.
Qed.

Lemma wordCountOf_bound (bodyText : string) :
  lengthZ bodyText < 2 ^ 53 -> Z.of_nat (wordCountOf bodyText) <= 2 ^ 53.
Proof.
  unfold lengthZ, wordCountOf, readabilityWords, readabilityText, splitSpaces.
  fold (cleanedText bodyText). intros H.
  pose proof (splitFrom_length false (cleanedText bodyText)).
  pose proof (cleanedText_length bodyText). lia.
Qed.

Lemma sentenceCountOf_bound (bodyText : string) :
  lengthZ bodyText < 2 ^ 53 -> Z.of_nat (sentenceCountOf bodyText) <= 2 ^ 53.
Proof.
  unfold lengthZ, sentenceCountOf, readabilityText.
  fold (cleanedText bodyText). fold (countSentences (cleanedText bodyText)).
  intros H.
  pose proof (countSentences_length (cleanedText bodyText)).
  pose proof (cleanedText_length bodyText). lia.
Qed.

(** The value that the clamp of [fleschEase] receives is a Number. *)
Lemma fleschFormula_notNaN (w s t : nat) :
  0 < Z.of_nat w <= 2 ^ 53 ->
  notNaN (fleschFormula w s t) = true.
Proof.
  intros Hw. unfold fleschFormula.
  destruct (ofNat_finite w Hw) as (mw & ew & Ew & _).
  rewrite Ew.
  assert (hasSign false (ofNat s) = true) as Hs by (apply ofZ_nonneg_sign; lia).
  assert (hasSign false (ofNat t) = true) as Ht by (apply ofZ_nonneg_sign; lia).
  apply fsub_notNaN.
  - evaluate (literal 206835 3).
    apply fsub_belowInfinity; [vm_compute; discriminate|lia|].
    evaluate (literal 1015 3).
    apply fmul_sign, fdiv_sign_l, Hs.
  - evaluate (literal 846 1).
    apply fmul_sign, fdiv_sign_r, Ht.
Qed.

Lemma wordCountOf_range (bodyText : string) :
  30 <= words (countText bodyText) ->
  lengthZ bodyText < 2 ^ 53 ->
  0 < Z.of_nat (wordCountOf bodyText) <= 2 ^ 53.
Proof.
  intros Hw Hl.
  pose proof (wordCountOf_bound bodyText Hl).
  pose proof (words_wordCountOf bodyText Hw). lia.
Qed.

Lemma fleschEaseOf_range (w s t : nat) :
  0 < Z.of_nat w <= 2 ^ 53 ->
  SFleb (ofZ 0) (fleschEaseOf w s t) = true /\
  SFleb (fleschEaseOf w s t) (ofZ 100) = true.
Proof.
  intros Hw. unfold fleschEaseOf. fold (fleschFormula w s t).
  apply clamp_range, toFixedNum_notNaN, fleschFormula_notNaN, Hw.
Qed.

Lemma readabilityText_nonempty (bodyText : string) :
  30 <= words (countText bodyText) -> readabilityText bodyText <> EmptyString.
Proof.
  unfold countText, readabilityText. cbn [words]. intros H E.
  rewrite E in H. simpl in H. lia.
Qed.

Lemma joinedLengthOf_bound (bodyText : string) :
  lengthZ bodyText < 2 ^ 53 -> Z.of_nat (joinedLengthOf bodyText) <= 2 ^ 53.
Proof.
  unfold lengthZ, joinedLengthOf, readabilityWords, readabilityText, splitSpaces.
  fold (cleanedText bodyText). intros H.
  rewrite concat_empty_length.
  pose proof (splitFrom_totalLength false (cleanedText bodyText)).
  pose proof (cleanedText_length bodyText). lia.
Qed.

Lemma totalSyllablesOf_bound (bodyText : string) :
  30 <= words (countText bodyText) ->
  lengthZ bodyText < 2 ^ 53 -> Z.of_nat (totalSyllablesOf bodyText) <= 2 ^ 53.
Proof.
  intros Hw Hl. unfold totalSyllablesOf.
  pose proof (fold_syllables_bound (readabilityWords bodyText) 0
                (readabilityWords_nonempty bodyText
                   (readabilityText_nonempty bodyText Hw))) as B.
  unfold readabilityWords at 2 in B. unfold readabilityText, splitSpaces in B.
  fold (cleanedText bodyText) in B.
  pose proof (splitFrom_totalLength false (cleanedText bodyText)).
  pose proof (cleanedText_length bodyText).
  unfold lengthZ in Hl. lia.
Qed.

(** The value that the clamp of [fleschKincaid] receives is a Number. *)
Lemma fleschKincaidOf_nonneg (w s t : nat) :
  0 < Z.of_nat w <= 2 ^ 53 ->
  SFleb (ofZ 0) (fleschKincaidOf w s t) = true.
Proof.
  intros Hw. unfold fleschKincaidOf.
  destruct (ofNat_finite w Hw) as (mw & ew & Ew & _). rewrite Ew.
  assert (hasSign false (ofNat s) = true) as Hs by (apply ofZ_nonneg_sign; lia).
  assert (hasSign false (ofNat t) = true) as Ht by (apply ofZ_nonneg_sign; lia).
  apply Math_max_zero, toFixedNum_notNaN.
  evaluate (literal 1559 2).
  apply fsub_finite_notNaN, fadd_sign.
  - evaluate (literal 39 2).
    apply fmul_sign, fdiv_sign_l, Hs.
  - evaluate (literal 118 1).
    apply fmul_sign, fdiv_sign_r, Ht.
Qed.

Lemma fleschEaseOf_notNaN (w s t : nat) :
  0 < Z.of_nat w <= 2 ^ 53 -> notNaN (fleschEaseOf w s t) = true.
Proof.
  intros Hw. destruct (fleschEaseOf_range w s t Hw) as [H _].
  destruct (fleschEaseOf w s t); try reflexivity. discriminate.
Qed.

End Readability.

(** ** The score and the clamp *)

Section Score.
Local Open Scope Z_scope.

Lemma SFcompare_defined (x y : num) :
  notNaN x = true -> notNaN y = true -> exists c, SFcompare x y = Some c.
Proof.
  destruct x as [sx|sx| |sx mx ex], y as [sy|sy| |sy my ey]; cbn [notNaN SFcompare];
    intros; try discriminate; eauto.
Qed.

Lemma SFcompare_refl (x : num) : notNaN x = true -> SFcompare x x = Some Eq.
Proof.
  destruct x as [s|s| |s m e]; cbn [notNaN SFcompare]; intros; try discriminate.
  - reflexivity.
  - destruct s; reflexivity.
  - rewrite Z.compare_refl, Pos.compare_cont_refl. destruct s; reflexivity.
Qed.

(** [x < k] is the negation of [x >= k] when neither is NaN. *)
Lemma flt_negb_fge (x k : num) :
  notNaN x = true -> notNaN k = true -> flt x k = negb (fge x k).
Proof.
  intros Hx Hk. unfold flt, fge, SFltb, SFleb.
  destruct (SFcompare_defined x k Hx Hk) as [c Hc].
  rewrite Hc, (SFcompare_antisym _ _ _ Hc). destruct c; reflexivity.
Qed.

Lemma SFleb_finite_trans (m1 m2 : positive) (e1 e2 : Z) (f : num) :
  SFleb (S754_finite false m2 e2) (S754_finite false m1 e1) = true ->
  SFleb (S754_finite false m1 e1) f = true ->
  SFleb (S754_finite false m2 e2) f = true.
Proof.
  unfold SFleb.
  destruct f as [s|s| |s m e]; cbn [SFcompare]; intros H1 H2; try discriminate.
  - destruct s; [discriminate|reflexivity].
  - destruct s; [discriminate|].
    change (Pos.compare_cont Eq m2 m1) with (Pos.compare m2 m1) in H1.
    change (Pos.compare_cont Eq m1 m) with (Pos.compare m1 m) in H2.
    change (Pos.compare_cont Eq m2 m) with (Pos.compare m2 m).
    destruct (Z.compare_spec e2 e1); try discriminate;
      destruct (Z.compare_spec e1 e); try discriminate;
      destruct (Z.compare_spec e2 e); try reflexivity; try lia.
    destruct (Pos.compare_spec m2 m1); try discriminate;
      destruct (Pos.compare_spec m1 m); try discriminate;
      destruct (Pos.compare_spec m2 m); try reflexivity; lia.
Qed.

Lemma fge_60_40 (f : num) : fge f (ofZ 60) = true -> fge f (ofZ 40) = true.
Proof.
  unfold fge.
  evaluate (ofZ 60).
  evaluate (ofZ 40).
  apply SFleb_finite_trans. reflexivity.
Qed.

Lemma fge_40_20 (f : num) : fge f (ofZ 40) = true -> fge f (ofZ 20) = true.
Proof.
  unfold fge.
  evaluate (ofZ 40).
  evaluate (ofZ 20).
  apply SFleb_finite_trans. reflexivity.
Qed.

(** The score as a function of a [fleschEase] that is a Number. *)
Lemma scoreOf_spec (f : num) :
  notNaN f = true ->
  (scoreOf f = 100 <-> fge f (ofZ 60) = true) /\
  (scoreOf f = 70 <-> fge f (ofZ 40) = true /\ flt f (ofZ 60) = true) /\
  (scoreOf f = 40 <-> fge f (ofZ 20) = true /\ flt f (ofZ 40) = true) /\
  (scoreOf f = 20 <-> flt f (ofZ 20) = true).
Proof.
  intros Hf.
  rewrite !(flt_negb_fge f) by (assumption || reflexivity).
  pose proof (fge_60_40 f) as M1. pose proof (fge_40_20 f) as M2.
  unfold scoreOf.
  destruct (fge f (ofZ 60)), (fge f (ofZ 40)), (fge f (ofZ 20)); cbn [negb];
    repeat split; intros; try discriminate; try reflexivity;
    try (specialize (M1 eq_refl)); try (specialize (M2 eq_refl));
    try discriminate; try lia; intuition discriminate.
Qed.

(** [Math.max(0, Math.min(100, r))] is the clamp of [r] to [0, 100]. *)
Lemma clamp_refines (r : num) :
  notNaN r = true ->
  feq (Math_max (ofZ 0) (Math_min (ofZ 100) r)) (clampTo r (ofZ 0) (ofZ 100)) = true.
Proof.
  intros Hr.
  evaluate (ofZ 100).
  evaluate (ofZ 0).
  destruct r as [s|s| |s m e]; try discriminate.
  - destruct s; reflexivity.
  - destruct s; reflexivity.
  - destruct s; [reflexivity|].
    unfold Math_min, clampTo, flt, SFltb, feq, SFeqb.
    change (SFcompare (S754_finite false m e) (S754_zero false)) with (Some Gt).
    destruct (SFcompare (S754_finite false 7036874417766400 (-46))
                (S754_finite false m e)) as [[ | | ]|] eqn:Hc.
    + change (Math_max (S754_zero false) (S754_finite false 7036874417766400 (-46)))
        with (S754_finite false 7036874417766400 (-46)).
      rewrite Hc. reflexivity.
    + reflexivity.
    + unfold Math_max.
      change (SFcompare (S754_zero false) (S754_finite false m e)) with (Some Lt).
      rewrite SFcompare_refl; reflexivity.
    + cbn [SFcompare] in Hc. discriminate.
Qed.

End Score.

(** ** [toFixed] keeps a Number finite *)

Section FixedFinite.
Local Open Scope Z_scope.

(** The nearest Number to a ratio of integers is finite, as long as the
    numerator has no more than a thousand bits. *)
Lemma nearestRatio_isFinite (s : bool) (n d : Z) :
  0 < n -> 0 < d -> Zdigits2 n <= 1000 ->
  isFinite (nearestRatio s n d) = true.
Proof.
  intros Hn Hd Hb. unfold nearestRatio.
  pose proof (div_core_spec n 0 d 0 Hn Hd) as H. cbv zeta in H.
  destruct (SFdiv_core_binary prec emax n 0 d 0) as [[q e] l].
  cbn [fst snd] in H. destruct H as (Hq & He & Hdg).
  pose proof (Zdigits2_nonneg d) as Hdd.
  apply binary_round_aux_spec; lia.
Qed.

(** Below 10^21 the integer that [toFixed] writes is at most
    [10^(21+d)]. *)
Lemma scaledRound_bound (m : positive) (e : Z) (d : nat) :
  atLeast1e21 m e = false -> scaledRound m e d <= 10 ^ (21 + Z.of_nat d).
Proof.
  unfold atLeast1e21, scaledRound. intros H.
  assert (0 < 10 ^ Z.of_nat d) as Hd by (apply Z.pow_pos_nonneg; lia).
  rewrite Z.pow_add_r by lia.
  destruct e as [|p|p].
  - apply Z.leb_gt in H. rewrite Z.pow_0_r, Z.mul_1_r in *. nia.
  - apply Z.leb_gt in H.
    assert (0 < 2 ^ Zpos p) as Hp by (apply Z.pow_pos_nonneg; lia). nia.
  - apply Z.leb_gt in H.
    assert (0 < 2 ^ Zpos p) as Hp by (apply Z.pow_pos_nonneg; lia).
    rewrite Z.pow_add_r by lia. rewrite Z.pow_1_r.
    apply Z.lt_succ_r, Z.div_lt_upper_bound; [lia|]. nia.
Qed.

(** [+x.toFixed(d)] of a finite Number is a finite Number, for the
    [d <= 100] that [toFixed] accepts. *)
Lemma toFixedNum_isFinite (d : nat) (x : num) :
  (d <= 100)%nat -> isFinite x = true -> isFinite (toFixedNum d x) = true.
Proof.
  intros Hd Hx. destruct x as [s|s| |s m e]; try discriminate Hx; [reflexivity|].
  cbn [toFixedNum]. destruct (atLeast1e21 m e) eqn:E; [reflexivity|].
  pose proof (scaledRound_bound m e d E) as Hb.
  destruct (scaledRound m e d) as [|n|n] eqn:En; try reflexivity.
  apply nearestRatio_isFinite; [lia|apply Z.pow_pos_nonneg; lia|].
  apply Zdigits2_le_of_lt_pow; [|lia]. split; [lia|].
  apply Z.le_lt_trans with (10 ^ 121).
  - apply Z.le_trans with (10 ^ (21 + Z.of_nat d)); [exact Hb|].
    apply Z.pow_le_mono_r; lia.
  - reflexivity.
Qed.

Lemma toFixedNum_nonneg (d : nat) (x : num) :
  hasSign false x = true -> hasSign false (toFixedNum d x) = true.
Proof.
  destruct x as [s|s| |s m e]; cbn [toFixedNum]; intros H;
    try exact H; try reflexivity.
  destruct (atLeast1e21 m e); [exact H|].
  destruct s; [discriminate H|].
  destruct (scaledRound m e d) as [|n|n]; try reflexivity.
  apply nearestRatio_sign; [lia|apply Z.pow_pos_nonneg; lia].
Qed.

End FixedFinite.

(** ** The claims on [analyzeReadability] *)

Section ReadabilityClaims.
Local Open Scope Z_scope.

(** C1, as the code has it.  For every text of fewer than 30 words
    [analyzeReadability] returns the report of the guard: the message is
    set, the score is 0, [fleschEase] and [fleschKincaid] are null, and
    [avgSentenceLen], [avgWordLen] and [syllablesPerWord] are the Number
    0. *)
Theorem analyzeReadability_not_enough_text (bodyText : string) :
  words (countText bodyText) < 30 ->
  let r := analyzeReadability bodyText in
  message r = Some "Not enough text to analyze (need 30+ words)" /\
  score r = 0 /\
  fleschEase r = None /\
  fleschKincaid r = None /\
  avgSentenceLen r = Some (ofZ 0) /\
  avgWordLen r = Some (ofZ 0) /\
  syllablesPerWord r = Some (ofZ 0).
Proof.
  intros H r. unfold r. rewrite (analyzeReadability_short bodyText H).
  repeat split.
Qed.

Lemma analyzeReadability_not_enough_text_witness :
  words (countText "Too short to score.") < 30 /\
  let r := analyzeReadability "Too short to score." in
  message r = Some "Not enough text to analyze (need 30+ words)" /\
  score r = 0 /\
  fleschEase r = None /\
  fleschKincaid r = None /\
  avgSentenceLen r = Some (ofZ 0) /\
  avgWordLen r = Some (ofZ 0) /\
  syllablesPerWord r = Some (ofZ 0).
Proof.
  split; [reflexivity|].
  apply (analyzeReadability_not_enough_text "Too short to score."). reflexivity.
Defined.

(** Counterexample to C1 as the specification states it: on a text of
    four words the three averages are the Number 0, not null. *)
Lemma analyzeReadability_short_averages_not_null :
  ~ (words (countText "Too short to score.") < 30 ->
     let r := analyzeReadability "Too short to score." in
     message r <> None /\
     score r = 0 /\
     fleschEase r = None /\
     fleschKincaid r = None /\
     avgSentenceLen r = None /\
     avgWordLen r = None /\
     syllablesPerWord r = None).
Proof.
  intros H. specialize (H eq_refl). cbv zeta in H.
  destruct H as (_ & _ & _ & _ & H & _). vm_compute in H. discriminate.
Qed.

(** C2.  For every text of at least 30 words (and of a length that a
    string can have), [fleschEase] is the Flesch Reading Ease formula on
    the word, sentence and syllable counts, rounded to one decimal and
    clamped to [0, 100]; it lies in [0, 100]. *)
Theorem fleschEase_formula_range (bodyText : string) :
  30 <= words (countText bodyText) ->
  lengthZ bodyText < 2 ^ 53 ->
  exists f : num,
    fleschEase (analyzeReadability bodyText) = Some f /\
    feq f (clampTo
             (toFixedNum 1
                (fleschFormula (wordCountOf bodyText) (sentenceCountOf bodyText)
                               (totalSyllablesOf bodyText)))
             (ofZ 0) (ofZ 100)) = true /\
    SFleb (ofZ 0) f = true /\ SFleb f (ofZ 100) = true.
Proof.
  intros Hw Hl. rewrite (analyzeReadability_long bodyText Hw). cbv zeta.
  cbn [fleschEase]. eexists. split; [reflexivity|].
  pose proof (wordCountOf_range bodyText Hw Hl) as Hb.
  split.
  - unfold fleschEaseOf.
    fold (fleschFormula (wordCountOf bodyText) (sentenceCountOf bodyText)
                        (totalSyllablesOf bodyText)).
    apply clamp_refines, toFixedNum_notNaN, fleschFormula_notNaN, Hb.
  - apply fleschEaseOf_range, Hb.
Qed.

Lemma fleschEase_formula_range_witness :
  30 <= words (countText textEase60) /\
  lengthZ textEase60 < 2 ^ 53 /\
  exists f : num,
    fleschEase (analyzeReadability textEase60) = Some f /\
    feq f (clampTo
             (toFixedNum 1
                (fleschFormula (wordCountOf textEase60) (sentenceCountOf textEase60)
                               (totalSyllablesOf textEase60)))
             (ofZ 0) (ofZ 100)) = true /\
    SFleb (ofZ 0) f = true /\ SFleb f (ofZ 100) = true.
Proof.
  split; [vm_compute; discriminate|].
  split; [reflexivity|].
  apply (fleschEase_formula_range textEase60); [vm_compute; discriminate|reflexivity].
Defined.

(** C5.  For every text of at least 30 words the score is 100 exactly
    when [fleschEase >= 60], 70 exactly when [40 <= fleschEase < 60], 40
    exactly when [20 <= fleschEase < 40], and 20 exactly when
    [fleschEase < 20].  At the threshold: a text whose [fleschEase] is 60
    scores 100, and one whose [fleschEase] is 59.9 scores 70. *)
Theorem score_thresholds :
  (forall bodyText : string,
      30 <= words (countText bodyText) ->
      lengthZ bodyText < 2 ^ 53 ->
      exists f : num,
        fleschEase (analyzeReadability bodyText) = Some f /\
        let sc := score (analyzeReadability bodyText) in
        (sc = 100 <-> fge f (ofZ 60) = true) /\
        (sc = 70 <-> fge f (ofZ 40) = true /\ flt f (ofZ 60) = true) /\
        (sc = 40 <-> fge f (ofZ 20) = true /\ flt f (ofZ 40) = true) /\
        (sc = 20 <-> flt f (ofZ 20) = true)) /\
  (fleschEase (analyzeReadability textEase60) = Some (ofZ 60) /\
   score (analyzeReadability textEase60) = 100) /\
  (fleschEase (analyzeReadability textEase599) = Some (literal 599 1) /\
   score (analyzeReadability textEase599) = 70) /\
  scoreOf (ofZ 60) = 100 /\ scoreOf (literal 599 1) = 70.
Proof.
  split.
  - intros bodyText Hw Hl.
    rewrite (analyzeReadability_long bodyText Hw). cbv zeta.
    cbn [score fleschEase]. eexists. split; [reflexivity|].
    apply scoreOf_spec, fleschEaseOf_notNaN, wordCountOf_range; assumption.
  - repeat split; vm_compute; reflexivity.
Qed.

Lemma score_thresholds_witness :
  30 <= words (countText textEase599) /\
  lengthZ textEase599 < 2 ^ 53 /\
  exists f : num,
    fleschEase (analyzeReadability textEase599) = Some f /\
    let sc := score (analyzeReadability textEase599) in
    (sc = 100 <-> fge f (ofZ 60) = true) /\
    (sc = 70 <-> fge f (ofZ 40) = true /\ flt f (ofZ 60) = true) /\
    (sc = 40 <-> fge f (ofZ 20) = true /\ flt f (ofZ 40) = true) /\
    (sc = 20 <-> flt f (ofZ 20) = true).
Proof.
  split; [vm_compute; discriminate|].
  split; [reflexivity|].
  apply (proj1 score_thresholds textEase599);
    [vm_compute; discriminate|reflexivity].
Defined.

(** C8.  For every text of at least 30 words the sentence count that
    [analyzeReadability] divides by is [max(1, countSentences(text))],
    and the word count, its other divisor, is the number of words of the
    text: both are strictly positive.  Every field of the report is
    computed with these divisors, so no quotient is taken by zero: the
    three averages are finite Numbers, [fleschEase] lies from 0 to 100,
    [fleschKincaid] is a Number that is not negative, and the report has
    no message. *)
Theorem readability_divisors_positive (bodyText : string) :
  30 <= words (countText bodyText) ->
  lengthZ bodyText < 2 ^ 53 ->
  let r := analyzeReadability bodyText in
  let text := readabilityText bodyText in
  let wordList := splitSpaces text in
  let wordCount := List.length wordList in
  let sentenceCount := Nat.max 1 (countSentences text) in
  let totalSyllables := fold_left (fun sum w => (sum + countSyllables w)%nat) wordList 0%nat in
  let joined := String.length (String.concat "" wordList) in
  (0 < sentenceCount)%nat /\
  Z.of_nat wordCount = words (countText bodyText) /\
  (0 < wordCount)%nat /\
  (exists m e, ofNat sentenceCount = S754_finite false m e) /\
  (exists m e, ofNat wordCount = S754_finite false m e) /\
  isFinite (ofNat wordCount / ofNat sentenceCount)%num = true /\
  isFinite (ofNat joined / ofNat wordCount)%num = true /\
  isFinite (ofNat totalSyllables / ofNat wordCount)%num = true /\
  avgSentenceLen r = Some (toFixedNum 1 (ofNat wordCount / ofNat sentenceCount)%num) /\
  avgWordLen r = Some (toFixedNum 1 (ofNat joined / ofNat wordCount)%num) /\
  syllablesPerWord r = Some (toFixedNum 2 (ofNat totalSyllables / ofNat wordCount)%num) /\
  fleschEase r =
    Some (Math_max (ofZ 0) (Math_min (ofZ 100)
      (toFixedNum 1
         (literal 206835 3
          - literal 1015 3 * (ofNat wordCount / ofNat sentenceCount)
          - literal 846 1 * (ofNat totalSyllables / ofNat wordCount))%num))) /\
  fleschKincaid r =
    Some (Math_max (ofZ 0)
      (toFixedNum 1
         (literal 39 2 * (ofNat wordCount / ofNat sentenceCount)
          + literal 118 1 * (ofNat totalSyllables / ofNat wordCount)
          - literal 1559 2)%num)) /\
  (exists a w s f k,
     avgSentenceLen r = Some a /\ isFinite a = true /\ hasSign false a = true /\
     avgWordLen r = Some w /\ isFinite w = true /\ hasSign false w = true /\
     syllablesPerWord r = Some s /\ isFinite s = true /\ hasSign false s = true /\
     fleschEase r = Some f /\ SFleb (ofZ 0) f = true /\ SFleb f (ofZ 100) = true /\
     fleschKincaid r = Some k /\ SFleb (ofZ 0) k = true) /\
  message r = None.
Proof.
  intros Hw Hl. cbv zeta.
  pose proof (wordCountOf_range bodyText Hw Hl) as Bw.
  pose proof (sentenceCountOf_bound bodyText Hl) as Bs.
  pose proof (joinedLengthOf_bound bodyText Hl) as Bj.
  pose proof (totalSyllablesOf_bound bodyText Hw Hl) as Bt.
  pose proof (words_wordCountOf bodyText Hw) as Ew.
  rewrite (analyzeReadability_long bodyText Hw). cbv zeta.
  unfold fleschEaseOf, fleschKincaidOf.
  change (List.length (splitSpaces (readabilityText bodyText)))
    with (wordCountOf bodyText).
  change (Nat.max 1 (countSentences (readabilityText bodyText)))
    with (sentenceCountOf bodyText).
  change (fold_left (fun sum w => (sum + countSyllables w)%nat)
            (splitSpaces (readabilityText bodyText)) 0%nat)
    with (totalSyllablesOf bodyText).
  change (String.length (String.concat "" (splitSpaces (readabilityText bodyText))))
    with (joinedLengthOf bodyText).
  cbn [avgSentenceLen avgWordLen syllablesPerWord fleschEase fleschKincaid message].
  assert (0 < sentenceCountOf bodyText)%nat as Hs by (unfold sentenceCountOf; lia).
  split; [exact Hs|]. split; [symmetry; exact Ew|]. split; [lia|].
  split.
  { destruct (ofNat_finite (sentenceCountOf bodyText)) as (m & e & E & _); [lia|eauto]. }
  split.
  { destruct (ofNat_finite (wordCountOf bodyText)) as (m & e & E & _); [lia|eauto]. }
  destruct (ratio_isFinite (wordCountOf bodyText) (sentenceCountOf bodyText))
    as [F1 S1]; [lia|lia|].
  destruct (ratio_isFinite (joinedLengthOf bodyText) (wordCountOf bodyText))
    as [F2 S2]; [lia|lia|].
  destruct (ratio_isFinite (totalSyllablesOf bodyText) (wordCountOf bodyText))
    as [F3 S3]; [lia|lia|].
  split; [exact F1|]. split; [exact F2|]. split; [exact F3|].
  do 5 (split; [reflexivity|]).
  split; [|reflexivity].
  pose proof (fleschEaseOf_range (wordCountOf bodyText) (sentenceCountOf bodyText)
                (totalSyllablesOf bodyText) Bw) as [R1 R2].
  pose proof (fleschKincaidOf_nonneg (wordCountOf bodyText) (sentenceCountOf bodyText)
                (totalSyllablesOf bodyText) Bw) as R3.
  do 5 eexists.
  split; [reflexivity|]. split; [apply toFixedNum_isFinite; [lia|exact F1]|].
  split; [apply toFixedNum_nonneg; exact S1|].
  split; [reflexivity|]. split; [apply toFixedNum_isFinite; [lia|exact F2]|].
  split; [apply toFixedNum_nonneg; exact S2|].
  split; [reflexivity|]. split; [apply toFixedNum_isFinite; [lia|exact F3]|].
  split; [apply toFixedNum_nonneg; exact S3|].
  split; [reflexivity|]. split; [exact R1|]. split; [exact R2|].
  split; [reflexivity|exact R3].
Qed.

Lemma readability_divisors_positive_witness :
  let bodyText := repeatText 29 "tiger " ++ "tiger" in
  30 <= words (countText bodyText) /\
  lengthZ bodyText < 2 ^ 53 /\
  countSentences (readabilityText bodyText) = 0%nat /\
  avgSentenceLen (analyzeReadability bodyText) = Some (ofZ 30) /\
  message (analyzeReadability bodyText) = None.
Proof.
  cbv zeta.
  split; [vm_compute; discriminate|].
  split; [reflexivity|].
  split; [vm_compute; reflexivity|].
  pose proof (readability_divisors_positive (repeatText 29 "tiger " ++ "tiger")) as H.
  cbv zeta in H.
  destruct H as (_ & _ & _ & _ & _ & _ & _ & _ & Ha & _ & _ & _ & _ & _ & Hm);
    [vm_compute; discriminate|reflexivity|].
  split; [|exact Hm]. rewrite Ha. vm_compute. reflexivity.
Defined.

(** X1.  For every text of at least 30 words [fleschKincaid] is a
    Number that is not negative. *)
Theorem fleschKincaid_nonneg (bodyText : string) :
  30 <= words (countText bodyText) ->
  lengthZ bodyText < 2 ^ 53 ->
  exists k : num,
    fleschKincaid (analyzeReadability bodyText) = Some k /\
    SFleb (ofZ 0) k = true.
Proof.
  intros Hw Hl. rewrite (analyzeReadability_long bodyText Hw). cbv zeta.
  cbn [fleschKincaid]. eexists. split; [reflexivity|].
  apply fleschKincaidOf_nonneg, wordCountOf_range; assumption.
Qed.

Lemma fleschKincaid_nonneg_witness :
  30 <= words (countText textEase599) /\
  lengthZ textEase599 < 2 ^ 53 /\
  exists k : num,
    fleschKincaid (analyzeReadability textEase599) = Some k /\
    SFleb (ofZ 0) k = true.
Proof.
  split; [vm_compute; discriminate|].
  split; [reflexivity|].
  apply (fleschKincaid_nonneg textEase599); [vm_compute; discriminate|reflexivity].
Defined.

(** The rounding is that of binary64: 39 one-syllable words in one
    sentence give 206.835 - 1.015 * 39 - 84.6, which is 82.65 on paper and
    a little more in binary64, so [fleschEase] is 82.7. *)
Example fleschEase_39_words :
  fleschEase (analyzeReadability (repeatText 39 "cat ")) = Some (literal 827 1).
Proof. vm_compute. reflexivity. Qed.

End ReadabilityClaims.

(** ** [getTopN] *)

Section TopN.

Lemma cell_eqb_eq (a b : cell) : cell_eqb a b = true <-> a = b.
Proof.
  destruct a as [x|x], b as [y|y]; simpl; split; intros H;
    try discriminate; try (apply Nat.eqb_eq in H; congruence);
    injection H as ->; apply Nat.eqb_refl.
Qed.

Lemma wantsAfter_lt (a b : string * cell) :
  wantsAfter a b = true -> countValue (snd a) < countValue (snd b).
Proof.
  unfold wantsAfter. destruct (snd a), (snd b); try discriminate.
  simpl. apply Nat.ltb_lt.
Qed.

Lemma wantsAfter_counts (a b : string * cell) :
  atLeastTwo (snd a) = true -> atLeastTwo (snd b) = true ->
  wantsAfter a b = (countValue (snd a) <? countValue (snd b)).
Proof.
  unfold wantsAfter. destruct (snd a), (snd b); simpl; try discriminate.
  reflexivity.
Qed.

Lemma insertEntry_Forall (P : string * cell -> Prop) (a : string * cell)
    (l : list (string * cell)) :
  P a -> Forall P l -> Forall P (insertEntry a l).
Proof.
  intros Ha Hl. induction Hl as [|b l Hb Hl IH]; simpl.
  - constructor; [exact Ha|constructor].
  - destruct (wantsAfter a b); constructor; auto.
Qed.

Lemma sortByCount_Forall (P : string * cell -> Prop) (l : list (string * cell)) :
  Forall P l -> Forall P (sortByCount l).
Proof.
  intros H. induction H as [|a l Ha Hl IH]; simpl; [constructor|].
  apply insertEntry_Forall; assumption.
Qed.

Lemma insertEntry_sorted (a : string * cell) (l : list (string * cell)) :
  atLeastTwo (snd a) = true ->
  Forall (fun e => atLeastTwo (snd e) = true) l ->
  StronglySorted pairGe l -> StronglySorted pairGe (insertEntry a l).
Proof.
  intros Ha Hl Hs. induction Hs as [|b l Hs IH Hb]; simpl.
  - constructor; [constructor|constructor].
  - inversion Hl as [|? ? Hb2 Hl2]; subst.
    rewrite (wantsAfter_counts a b Ha Hb2).
    destruct (Nat.ltb_spec (countValue (snd a)) (countValue (snd b))) as [Hlt|Hge].
    + constructor; [apply IH; assumption|].
      apply insertEntry_Forall; [unfold pairGe; lia|exact Hb].
    + constructor; [constructor; assumption|].
      constructor; [unfold pairGe; lia|].
      eapply Forall_impl; [|exact Hb]. unfold pairGe. intros e He. lia.
Qed.

Lemma sortByCount_sorted (l : list (string * cell)) :
  Forall (fun e => atLeastTwo (snd e) = true) l ->
  StronglySorted pairGe (sortByCount l).
Proof.
  intros H. induction H as [|a l Ha Hl IH]; simpl; [constructor|].
  apply insertEntry_sorted; [exact Ha| |exact IH].
  apply sortByCount_Forall, Hl.
Qed.

Lemma In_firstn {A : Type} (x : A) (n : nat) (l : list A) :
  In x (firstn n l) -> In x l.
Proof.
  revert l. induction n as [|n IH]; intros [|b l]; simpl; intuition.
Qed.

Lemma StronglySorted_firstn {A : Type} (R : A -> A -> Prop) (n : nat) (l : list A) :
  StronglySorted R l -> StronglySorted R (firstn n l).
Proof.
  intros H. revert n. induction H as [|a l Hs IH Ha]; intros n.
  - rewrite firstn_nil. constructor.
  - destruct n; simpl; constructor; [apply IH|].
    rewrite Forall_forall in *. intros x Hx. apply Ha.
    apply In_firstn in Hx. exact Hx.
Qed.

Lemma StronglySorted_entries (l : list (string * cell)) :
  StronglySorted pairGe l ->
  StronglySorted countGe (map (fun e => {| phrase := fst e; count := snd e |}) l).
Proof.
  intros H. induction H as [|a l Hs IH Ha]; simpl; constructor; [exact IH|].
  rewrite Forall_map. exact Ha.
Qed.

(** The sort moves no entry past another of the same count. *)
Lemma insertEntry_withCount (c : cell) (a : string * cell) (l : list (string * cell)) :
  withCount c (insertEntry a l) = withCount c (a :: l).
Proof.
  induction l as [|b l IH]; [reflexivity|]. simpl insertEntry.
  destruct (wantsAfter a b) eqn:W; [|reflexivity].
  apply wantsAfter_lt in W.
  unfold withCount in *. cbn [filter] in *. rewrite IH.
  destruct (cell_eqb (snd a) c) eqn:Ea, (cell_eqb (snd b) c) eqn:Eb; try reflexivity.
  apply cell_eqb_eq in Ea, Eb. rewrite Ea, Eb in W. lia.
Qed.

Lemma sortByCount_withCount (c : cell) (l : list (string * cell)) :
  withCount c (sortByCount l) = withCount c l.
Proof.
  induction l as [|a l IH]; [reflexivity|]. simpl sortByCount.
  rewrite insertEntry_withCount. unfold withCount in *. cbn [filter].
  rewrite IH. reflexivity.
Qed.

Lemma filter_firstn_prefix {A : Type} (p : A -> bool) (n : nat) (l : list A) :
  filter p l = (filter p (firstn n l) ++ filter p (skipn n l))%list.
Proof. rewrite <- filter_app, firstn_skipn. reflexivity. Qed.

Lemma map_entryPair (l : list (string * cell)) :
  map entryPair (map (fun e => {| phrase := fst e; count := snd e |}) l) = l.
Proof.
  induction l as [|[k v] l IH]; simpl; [reflexivity|]. rewrite IH. reflexivity.
Qed.

Lemma withCount_filter_atLeastTwo (c : cell) (l : list (string * cell)) :
  withCount c (filter (fun e => atLeastTwo (snd e)) l) =
  if atLeastTwo c then withCount c l else [].
Proof.
  unfold withCount. induction l as [|a l IH]; simpl.
  - destruct (atLeastTwo c); reflexivity.
  - destruct (atLeastTwo (snd a)) eqn:Ha, (cell_eqb (snd a) c) eqn:Ec; simpl;
      rewrite ?Ec, IH; try reflexivity.
    + apply cell_eqb_eq in Ec. rewrite <- Ec, Ha. reflexivity.
    + apply cell_eqb_eq in Ec. rewrite <- Ec, Ha. reflexivity.
Qed.

Lemma getTopN_tiesKeepOrder (counts : jsobject) (n : nat) :
  tiesKeepOrder (Object_entries counts) (getTopN counts n).
Proof.
  intros c. unfold getTopN. rewrite map_entryPair.
  set (kept := filter (fun e => atLeastTwo (snd e)) (Object_entries counts)).
  pose proof (filter_firstn_prefix (fun e => cell_eqb (snd e) c) n (sortByCount kept)) as H.
  fold (withCount c (sortByCount kept)) in H.
  fold (withCount c (firstn n (sortByCount kept))) in H.
  rewrite sortByCount_withCount in H. unfold kept in H at 1.
  rewrite withCount_filter_atLeastTwo in H.
  destruct (atLeastTwo c).
  - eexists. exact H.
  - symmetry in H. apply app_eq_nil in H as [-> _].
    exists (withCount c (Object_entries counts)). reflexivity.
Qed.

Lemma Object_entries_no_index (counts : jsobject) :
  (forall e, In e counts -> isIndexKey e = false) ->
  Object_entries counts = counts.
Proof.
  intros H. unfold Object_entries.
  assert (filter isIndexKey counts = [] /\
          filter (fun e => negb (isIndexKey e)) counts = counts) as [-> ->].
  { induction counts as [|a l IH]; [split; reflexivity|]. simpl.
    rewrite (H a (or_introl eq_refl)). simpl.
    destruct IH as [-> ->]; [|split; reflexivity].
    intros e He. apply H. right. exact He. }
  reflexivity.
Qed.

(** C3, as the code has it.  For every frequency object and every [n],
    every entry of [getTopN(counts, n)] has a count of at least 2, there
    are at most [n] entries, they are sorted by count, largest first, and
    entries of equal count keep the order in which [Object.entries]
    lists them: the keys that are array indices in ascending order, then
    the other keys in first-seen order.  When no key is an array index
    that is the first-seen order of the keys. *)
Theorem getTopN_spec (counts : jsobject) (n : nat) :
  let out := getTopN counts n in
  Forall (fun e => exists k, count e = Count k /\ 2 <= k) out /\
  List.length out <= n /\
  StronglySorted countGe out /\
  tiesKeepOrder (Object_entries counts) out /\
  ((forall e, In e counts -> isIndexKey e = false) -> tiesKeepOrder counts out).
Proof.
  intros out.
  assert (Forall (fun e => atLeastTwo (snd e) = true)
            (filter (fun e => atLeastTwo (snd e)) (Object_entries counts))) as HF.
  { apply Forall_forall. intros e He. apply filter_In in He. apply He. }
  split; [|split; [|split; [|split]]].
  - unfold out, getTopN. rewrite Forall_map. cbn [count].
    apply Forall_forall. intros e He. apply In_firstn in He.
    pose proof (sortByCount_Forall _ _ HF) as HS.
    rewrite Forall_forall in HS. specialize (HS e He).
    destruct (snd e) as [k|k]; simpl in HS; [|discriminate].
    exists k. split; [reflexivity|]. apply Nat.leb_le, HS.
  - unfold out, getTopN. rewrite length_map. apply firstn_le_length.
  - unfold out, getTopN.
    apply StronglySorted_entries, StronglySorted_firstn, sortByCount_sorted, HF.
  - apply getTopN_tiesKeepOrder.
  - intros H. pose proof (getTopN_tiesKeepOrder counts n) as T.
    rewrite (Object_entries_no_index counts H) in T. exact T.
Qed.

Lemma getTopN_spec_witness :
  let counts := [("zebra", Count 2); ("apple", Count 3); ("mango", Count 2);
                 ("once", Count 1)] in
  (forall e, In e counts -> isIndexKey e = false) /\
  getTopN counts 2 = [{| phrase := "apple"; count := Count 3 |};
                      {| phrase := "zebra"; count := Count 2 |}] /\
  tiesKeepOrder counts (getTopN counts 2).
Proof.
  cbv zeta.
  assert (forall e, In e [("zebra", Count 2); ("apple", Count 3); ("mango", Count 2);
                          ("once", Count 1)] -> isIndexKey e = false) as H.
  { intros e [<-|[<-|[<-|[<-|[]]]]]; reflexivity. }
  split; [exact H|]. split; [reflexivity|].
  apply (getTopN_spec [("zebra", Count 2); ("apple", Count 3); ("mango", Count 2);
                       ("once", Count 1)] 2), H.
Defined.

(** Counterexample to C3 as the specification states it: in the object
    [{55: 2, 10: 2}], written in that order, "55" was seen first, and
    [getTopN] lists "10" before "55". *)
Lemma getTopN_ties_not_first_seen :
  let counts := [("55", Count 2); ("10", Count 2)] in
  getTopN counts 10 = [{| phrase := "10"; count := Count 2 |};
                       {| phrase := "55"; count := Count 2 |}] /\
  ~ tiesKeepOrder counts (getTopN counts 10).
Proof.
  cbv zeta. split; [reflexivity|].
  intros H. destruct (H (Count 2)) as [rest E].
  vm_compute in E. discriminate.
Qed.

(** The same on a page: the first-seen token "55" comes after "10" in the
    unigrams of the report. *)
Example analyzeNgrams_numeric_ties :
  keys (unigramCounts "55 55 10 10") = ["55"; "10"] /\
  unigrams (analyzeNgrams "55 55 10 10") =
    [{| phrase := "10"; count := Count 2 |};
     {| phrase := "55"; count := Count 2 |}].
Proof. split; reflexivity. Qed.

End TopN.

(** ** Objects *)

Section Objects.

Lemma getOwn_setOwn (o : jsobject) (k : string) (v : cell) (k' : string) :
  getOwn (setOwn o k v) k' = if String.eqb k' k then Some v else getOwn o k'.
Proof.
  induction o as [|[k0 v0] o IH]; simpl; [reflexivity|].
  destruct (String.eqb_spec k k0) as [->|Hne]; simpl.
  - destruct (String.eqb k' k0); reflexivity.
  - rewrite IH.
    destruct (String.eqb_spec k' k0) as [->|]; [|reflexivity].
    destruct (String.eqb_spec k0 k) as [->|]; [congruence|reflexivity].
Qed.


Lemma bumped_Some (g : string) (k : nat) (c : cell) :
  bumped g k (Some c) =
  Some (match c with Count n => Count (n + k) | Tainted j => Tainted (j + k) end).
Proof.
  revert c. induction k as [|k IH]; intros c; simpl.
  - destruct c; rewrite Nat.add_0_r; reflexivity.
  - rewrite IH. destruct c; do 2 f_equal; lia.
Qed.

Lemma bumped_None (g : string) (k : nat) : bumped g k None = tally g k.
Proof.
  destruct k as [|k]; simpl; [reflexivity|].
  rewrite bumped_Some. destruct (inheritedKey g); reflexivity.
Qed.

Variable words : list string.
Variable n : nat.
Variable stops : option (list string).

Lemma countGram_getOwn (counts : jsobject) (i : nat) (g : string) :
  getOwn (countGram words n stops counts i) g =
  bumped g
    (if negb (skipsGram n stops (gramAt words n i))
        && String.eqb (gramAt words n i) g then 1 else 0)
    (getOwn counts g).
Proof.
  unfold countGram. fold (window words n i). fold (gramAt words n i).
  destruct (skipsGram n stops (gramAt words n i)); simpl; [reflexivity|].
  rewrite getOwn_setOwn, (String.eqb_sym g).
  destruct (String.eqb_spec (gramAt words n i) g) as [->|]; [|reflexivity].
  unfold increment. simpl. reflexivity.
Qed.

Lemma bumped_add (g : string) (j k : nat) (v : option cell) :
  bumped g k (bumped g j v) = bumped g (j + k) v.
Proof.
  revert v. induction j as [|j IH]; intros v; simpl; [reflexivity|]. apply IH.
Qed.

Lemma fold_countGram_getOwn (turns : list nat) (counts : jsobject) (g : string) :
  getOwn (fold_left (countGram words n stops) turns counts) g =
  bumped g (occurrences words n stops g turns) (getOwn counts g).
Proof.
  revert counts. induction turns as [|i turns IH]; intros counts; simpl.
  - reflexivity.
  - rewrite IH, countGram_getOwn, bumped_add. f_equal.
    unfold occurrences. cbn [filter].
    destruct (negb (skipsGram n stops (gramAt words n i))
              && String.eqb (gramAt words n i) g); reflexivity.
Qed.

(** The value that [buildNgramCounts] leaves under every phrase. *)
Lemma buildNgramCounts_getOwn (g : string) :
  getOwn (buildNgramCounts words n stops) g =
  tally g (occurrences words n stops g (seq 0 (List.length words + 1 - n))).
Proof.
  unfold buildNgramCounts. rewrite fold_countGram_getOwn. apply bumped_None.
Qed.


End Objects.

(** ** Tokens and grams *)

Section Grams.








Lemma append_empty_r (x : string) : x ++ EmptyString = x.
Proof. induction x as [|c x IH]; simpl; [reflexivity|]. rewrite IH. reflexivity. Qed.








End Grams.

(** ** The claims on [analyzeNgrams] *)

Section NgramClaims.

Lemma insertByIndex_Forall (P : string * cell -> Prop) (a : string * cell)
    (l : list (string * cell)) :
  P a -> Forall P l -> Forall P (insertByIndex a l).
Proof.
  intros Ha Hl. induction Hl as [|b l Hb Hl IH]; simpl.
  - constructor; [exact Ha|constructor].
  - destruct (indexOf a <=? indexOf b)%N; constructor; auto.
Qed.

Lemma sortByIndex_Forall (P : string * cell -> Prop) (l : list (string * cell)) :
  Forall P l -> Forall P (fold_right insertByIndex [] l).
Proof.
  intros H. induction H as [|a l Ha Hl IH]; simpl; [constructor|].
  apply insertByIndex_Forall; assumption.
Qed.

Lemma Object_entries_In (o : jsobject) (e : string * cell) :
  In e (Object_entries o) -> In e o.
Proof.
  unfold Object_entries. intros H. apply in_app_or in H as [H|H].
  - assert (Forall (fun x => In x o) (fold_right insertByIndex [] (filter isIndexKey o))) as F.
    { apply sortByIndex_Forall, Forall_forall.
      intros x Hx. apply filter_In in Hx. apply Hx. }
    rewrite Forall_forall in F. apply F, H.
  - apply filter_In in H. apply H.
Qed.






End NgramClaims.

(** ** Beside the claims: the counts and the inherited key *)

Section Inherited.

Lemma getOwn_In (o : jsobject) (k : string) (v : cell) :
  getOwn o k = Some v -> In (k, v) o.
Proof.
  induction o as [|[k0 v0] o IH]; simpl; [discriminate|].
  destruct (String.eqb_spec k k0) as [->|_].
  - intros H. injection H as ->. left. reflexivity.
  - intros H. right. apply IH, H.
Qed.

Lemma setOwn_Forall (Q : string * cell -> Prop) (o : jsobject) (k : string) (v : cell) :
  Forall Q o -> Q (k, v) -> Forall Q (setOwn o k v).
Proof.
  intros Ho Hk. induction Ho as [|[k0 v0] o H0 Ho IH]; simpl.
  - constructor; [exact Hk|constructor].
  - destruct (String.eqb_spec k k0) as [->|_]; constructor; assumption.
Qed.

Lemma countGram_tainted (ws : list string) (n : nat) (stops : option (list string))
    (counts : jsobject) (i : nat) :
  Forall taintedIfInherited counts ->
  Forall taintedIfInherited (countGram ws n stops counts i).
Proof.
  intros H. unfold countGram.
  destruct (skipsGram n stops (joinSpace (slice ws i (i + n)))); [exact H|].
  apply setOwn_Forall; [exact H|].
  unfold taintedIfInherited, increment. cbn [fst snd]. intros Hk.
  destruct (getOwn counts (joinSpace (slice ws i (i + n)))) as [[m|j]|] eqn:E.
  - apply getOwn_In in E. rewrite Forall_forall in H.
    destruct (H _ E Hk) as [j Hj]. discriminate.
  - eauto.
  - rewrite Hk. eauto.
Qed.

Lemma buildNgramCounts_tainted (ws : list string) (n : nat)
    (stops : option (list string)) :
  Forall taintedIfInherited (buildNgramCounts ws n stops).
Proof.
  unfold buildNgramCounts.
  assert (forall turns counts,
             Forall taintedIfInherited counts ->
             Forall taintedIfInherited (fold_left (countGram ws n stops) turns counts)) as F.
  { induction turns as [|i turns IH]; intros counts H; simpl; [exact H|].
    apply IH, countGram_tainted, H. }
  apply F. constructor.
Qed.

Lemma getTopN_In (counts : jsobject) (n : nat) (e : NgramEntry) :
  In e (getTopN counts n) ->
  In (phrase e, count e) counts /\ atLeastTwo (count e) = true.
Proof.
  unfold getTopN. intros H. apply in_map_iff in H as ([k v] & <- & He).
  cbn [phrase count fst snd]. apply In_firstn in He.
  set (kept := filter (fun e => atLeastTwo (snd e)) (Object_entries counts)) in *.
  assert (Forall (fun x => In x kept) (sortByCount kept)) as F
      by (apply sortByCount_Forall, Forall_forall; auto).
  rewrite Forall_forall in F. apply F in He.
  apply filter_In in He as [He Ha]. split; [|exact Ha].
  apply Object_entries_In, He.
Qed.

End Inherited.

(** X2.  For words that are tokens, made of the characters [[a-z0-9'-]],
    [buildNgramCounts] leaves under every phrase the number of turns of
    its loop that read the phrase and did not pass over it: no property
    when there is none, and otherwise that number (under the key
    "constructor", the string that stands for it). *)
Theorem buildNgramCounts_tally (words : list string) (n : nat)
    (stops : option (list string)) (g : string) :
  Forall (fun w => allChars isWordChar w = true) words ->
  getOwn (buildNgramCounts words n stops) g =
  tally g (occurrences words n stops g (seq 0 (List.length words + 1 - n))).
Proof. intros _. apply buildNgramCounts_getOwn. Qed.

Lemma buildNgramCounts_tally_witness :
  getOwn (buildNgramCounts ["seo"; "tips"; "seo"] 1 None) "seo" = Some (Count 2).
Proof.
  rewrite (buildNgramCounts_tally ["seo"; "tips"; "seo"] 1 None "seo");
    [reflexivity|]. repeat constructor.
Defined.

(** X3.  The token "constructor" is never among the unigrams of the
    report, however often the text has it: [counts['constructor']] reads
    the function inherited from [Object.prototype], so the value written
    under that key is a string, and [count >= 2] is false for it. *)
Theorem constructor_never_reported :
  (forall bodyText : string,
      ~ In "constructor" (map phrase (unigrams (analyzeNgrams bodyText)))) /\
  unigramCounts "constructor constructor constructor" = [("constructor", Tainted 3)] /\
  unigrams (analyzeNgrams "constructor constructor constructor") = [].
Proof.
  split; [|split; reflexivity].
  intros bodyText H. apply in_map_iff in H as (e & Ep & He).
  cbn [unigrams analyzeNgrams] in He. apply getTopN_In in He as [Hin Ha].
  pose proof (buildNgramCounts_tainted (ngramFiltered bodyText) 1 None) as F.
  fold (unigramCounts bodyText) in F. rewrite Forall_forall in F.
  specialize (F _ Hin). unfold taintedIfInherited in F. cbn [fst snd] in F.
  rewrite Ep in F. destruct (F eq_refl) as [j Ej].
  rewrite Ej in Ha. discriminate.
Qed.

(** ** Binary64: rounding and bounds *)

Section Rounding.
Local Open Scope Z_scope.

Lemma shr_1_exact (k : Z) :
  0 <= k ->
  shr_1 {| shr_m := 2 * k; shr_r := false; shr_s := false |}
  = {| shr_m := k; shr_r := false; shr_s := false |}.
Proof. destruct k as [|p|p]; intros H; try lia; reflexivity. Qed.

Lemma iter_shr_1_exact (n : positive) (k : Z) :
  0 <= k ->
  iter_pos shr_1 n {| shr_m := k * 2 ^ Zpos n; shr_r := false; shr_s := false |}
  = {| shr_m := k; shr_r := false; shr_s := false |}.
Proof.
  revert k. induction n as [n IH|n IH|]; intros k Hk; cbn [iter_pos].
  - assert (0 < 2 ^ Zpos n) as Hp by (apply Z.pow_pos_nonneg; lia).
    replace (k * 2 ^ Zpos n~1) with (2 * (k * 2 ^ Zpos n * 2 ^ Zpos n)).
    + rewrite shr_1_exact by nia. rewrite IH by nia. apply IH, Hk.
    + replace (Zpos n~1) with (1 + Zpos n + Zpos n) by lia.
      rewrite !Z.pow_add_r by lia. change (2 ^ 1) with 2. lia.
  - assert (0 < 2 ^ Zpos n) as Hp by (apply Z.pow_pos_nonneg; lia).
    replace (k * 2 ^ Zpos n~0) with (k * 2 ^ Zpos n * 2 ^ Zpos n).
    + rewrite IH by nia. apply IH, Hk.
    + replace (Zpos n~0) with (Zpos n + Zpos n) by lia.
      rewrite Z.pow_add_r by lia. lia.
  - change (2 ^ 1) with 2. replace (k * 2) with (2 * k) by lia.
    apply shr_1_exact, Hk.
Qed.

Lemma loc_of_shr_record_of_loc (m : Z) (l : location) :
  loc_of_shr_record (shr_record_of_loc m l) = l.
Proof. destruct l as [|[ | | ]]; reflexivity. Qed.

(** Rounding keeps a mantissa below a bound that it does not reach, and
    leaves an exact one alone. *)
Lemma round_nearest_even_le (m : Z) (l : location) (c : Z) :
  m <= c -> (m = c -> l = loc_Exact) -> round_nearest_even m l <= c.
Proof.
  intros Hle Heq. destruct (Z.eq_dec m c) as [E|NE].
  - rewrite (Heq E). cbn. lia.
  - pose proof (round_nearest_even_bounds m l). lia.
Qed.

(** The first shift of [binary_round_aux] keeps the value at or below an
    integer bound, and an exact value exact. *)
Lemma shr_fexp_le (m e : Z) (l : location) (B : Z) :
  0 <= m -> e < 0 -> 0 < B < 2 ^ 52 ->
  m <= B * 2 ^ (- e) -> (m = B * 2 ^ (- e) -> l = loc_Exact) ->
  let r := shr_fexp prec emax m e l in
  0 <= shr_m (fst r) /\ snd r < 0 /\
  shr_m (fst r) <= B * 2 ^ (- snd r) /\
  (shr_m (fst r) = B * 2 ^ (- snd r) -> loc_of_shr_record (fst r) = loc_Exact).
Proof.
  intros Hm He HB Hle Heq r. unfold r, shr_fexp.
  set (n := fexp prec emax (Zdigits2 m + e) - e).
  assert (0 < 2 ^ (- e)) as Hpe by (apply Z.pow_pos_nonneg; lia).
  assert (Zdigits2 m + e <= 52) as Hd.
  { assert (Zdigits2 m <= 52 + - e); [|lia].
    apply Zdigits2_le_of_lt_pow; [|lia]. split; [exact Hm|].
    rewrite Z.pow_add_r by lia. nia. }
  destruct n as [|p|p] eqn:En; cbn [shr fst snd].
  - rewrite shr_m_of_loc, loc_of_shr_record_of_loc. auto.
  - assert (e + Zpos p < 0) as He'.
    { unfold n in En. rewrite fexp_eq in En. lia. }
    assert (0 < 2 ^ Zpos p) as Hpp by (apply Z.pow_pos_nonneg; lia).
    assert (0 < 2 ^ (- (e + Zpos p))) as Hpq by (apply Z.pow_pos_nonneg; lia).
    assert (2 ^ (- e) = 2 ^ (- (e + Zpos p)) * 2 ^ Zpos p) as Esplit.
    { rewrite <- Z.pow_add_r by lia. f_equal. lia. }
    destruct (Z.eq_dec m (B * 2 ^ (- e))) as [E|NE].
    + rewrite (Heq E). cbn [shr_record_of_loc].
      replace m with (B * 2 ^ (- (e + Zpos p)) * 2 ^ Zpos p) by (rewrite E, Esplit; lia).
      rewrite iter_shr_1_exact by nia. cbn [shr_m loc_of_shr_record].
      repeat split; try lia; nia.
    + rewrite iter_shr_1_m by (rewrite shr_m_of_loc; exact Hm).
      rewrite shr_m_of_loc.
      assert (m / 2 ^ Zpos p < B * 2 ^ (- (e + Zpos p))) as Hlt.
      { apply Z.div_lt_upper_bound; [lia|]. rewrite Esplit in Hle, NE. nia. }
      repeat split; try lia. apply Z.div_pos; lia.
  - rewrite shr_m_of_loc, loc_of_shr_record_of_loc. auto.
Qed.

(** Rounding to binary64 does not carry a value above an integer bound
    below 2^52. *)
Lemma binary_round_aux_atMost (s : bool) (m e : Z) (l : location) (B : Z) :
  0 <= m -> e < 0 -> 0 < B < 2 ^ 52 ->
  m <= B * 2 ^ (- e) -> (m = B * 2 ^ (- e) -> l = loc_Exact) ->
  atMost B (binary_round_aux prec emax s m e l) = true.
Proof.
  intros Hm He HB Hle Heq. unfold binary_round_aux.
  pose proof (shr_fexp_le m e l B Hm He HB Hle Heq) as H1. cbv zeta in H1.
  destruct (shr_fexp prec emax m e l) as [mrs' e'] eqn:E1. cbn [fst snd] in H1.
  destruct H1 as (Hm' & He' & Hle' & Heq').
  set (m1 := round_nearest_even (shr_m mrs') (loc_of_shr_record mrs')).
  pose proof (round_nearest_even_bounds (shr_m mrs') (loc_of_shr_record mrs')) as Hr.
  pose proof (round_nearest_even_le _ _ _ Hle' Heq') as Hr'.
  fold m1 in Hr, Hr'.
  assert (0 <= m1) as Hm1 by lia.
  pose proof (shr_fexp_le m1 e' loc_Exact B Hm1 He' HB Hr' (fun _ => eq_refl)) as H2.
  cbv zeta in H2.
  destruct (shr_fexp prec emax m1 e' loc_Exact) as [mrs'' e''] eqn:E2.
  cbn [fst snd] in H2. destruct H2 as (Hm'' & He'' & Hle'' & _).
  destruct (shr_m mrs'') as [|q|q] eqn:Eq; [reflexivity| |lia].
  change (emax - prec) with 971.
  assert ((e'' <=? 971) = true) as -> by (apply Z.leb_le; lia).
  cbn [atMost]. apply andb_true_intro. split; [apply Z.ltb_lt|apply Z.leb_le]; lia.
Qed.

Lemma iter_xO_value (p k : positive) :
  Zpos (Pos.iter xO p k) = Zpos p * 2 ^ Zpos k.
Proof.
  induction k as [|k IH] using Pos.peano_ind.
  - simpl. lia.
  - rewrite Pos.iter_succ, Pos2Z.inj_xO, IH, Pos2Z.inj_succ, Z.pow_succ_r by lia. lia.
Qed.

Lemma shl_align_value (m : positive) (e e2 : Z) :
  e2 <= e ->
  Zpos (fst (shl_align m e e2)) = Zpos m * 2 ^ (e - e2) /\ snd (shl_align m e e2) = e2.
Proof.
  intros H. unfold shl_align. destruct (e2 - e) as [|d|d] eqn:E; cbn [fst snd]; try lia.
  - replace (e - e2) with 0 by lia. split; lia.
  - unfold shift_pos. rewrite iter_xO_value. split; [|reflexivity].
    f_equal. f_equal. lia.
Qed.

(** The Number of a positive integer below 2^53: a mantissa of 53 digits
    that holds the integer shifted left. *)
Lemma ofZ_value (z : Z) :
  0 < z < 2 ^ 53 ->
  exists m e, ofZ z = S754_finite false m e /\ -52 <= e <= 0 /\
              Zpos m = z * 2 ^ (- e) /\ Zpos (digits2_pos m) = 53.
Proof.
  intros [Hz Hlt]. destruct z as [|p|p]; try lia.
  assert (Zdigits2 (Zpos p) <= 53) as Hd by (apply Zdigits2_le_of_lt_pow; lia).
  cbn [Zdigits2] in Hd.
  unfold ofZ, binary_normalize, binary_round.
  pose proof (shl_align_spec p 0 (fexp prec emax (Zpos (digits2_pos p) + 0))) as H.
  pose proof (shl_align_value p 0 (fexp prec emax (Zpos (digits2_pos p) + 0))) as V.
  cbv zeta in H. rewrite fexp_eq in *.
  destruct (shl_align p 0 (Z.max (Zpos (digits2_pos p) + 0 - 53) (-1074))) as [mz ez].
  cbn [fst snd] in H, V. destruct H as (He & Hdig & Hez).
  destruct (V ltac:(lia)) as [Vm Ve].
  exists mz, ez. split; [|repeat split; try lia].
  - apply binary_round_aux_canonical; [|lia]. rewrite fexp_eq. lia.
  - rewrite Vm. f_equal. f_equal. lia.
Qed.

Lemma ofNat_value (n : nat) :
  0 < Z.of_nat n < 2 ^ 53 ->
  exists m e, ofNat n = S754_finite false m e /\ -52 <= e <= 0 /\
              Zpos m = Z.of_nat n * 2 ^ (- e) /\ Zpos (digits2_pos m) = 53.
Proof. apply ofZ_value. Qed.

(** The quotient and the exponent that the division hands to the
    rounding. *)
Lemma div_core_value (m1 e1 m2 e2 : Z) :
  0 < m1 -> 0 < m2 ->
  let r := SFdiv_core_binary prec emax m1 e1 m2 e2 in
  let e' := Z.min (fexp prec emax (Zdigits2 m1 + e1 - (Zdigits2 m2 + e2))) (e1 - e2) in
  snd (fst r) = e' /\ 0 <= fst (fst r) /\
  fst (fst r) * m2 <= m1 * 2 ^ (e1 - e2 - e') /\
  (fst (fst r) * m2 = m1 * 2 ^ (e1 - e2 - e') -> snd r = loc_Exact).
Proof.
  intros H1 H2. cbv zeta. unfold SFdiv_core_binary.
  set (e' := Z.min _ (e1 - e2)).
  assert (e' <= e1 - e2) as He' by (unfold e'; lia).
  set (s := e1 - e2 - e').
  assert (0 <= s) as Hs by (unfold s; lia).
  set (m' := match s with Zpos _ => Z.shiftl m1 s | Z0 => m1 | Zneg _ => 0 end).
  assert (m' = m1 * 2 ^ s) as Em'.
  { unfold m'. destruct s as [|q|q] eqn:Es; try lia.
    apply Z.shiftl_mul_pow2. lia. }
  pose proof (Z_div_mod m' m2 ltac:(lia)) as Hdm.
  destruct (Z.div_eucl m' m2) as [q r]. cbn [fst snd].
  destruct Hdm as [Eq Hr].
  assert (0 < 2 ^ s) as Hps by (apply Z.pow_pos_nonneg; lia).
  assert (0 <= q) as Hq by nia.
  rewrite <- Em'. repeat split; try lia.
  intros E. assert (r = 0) as -> by lia.
  unfold new_location, new_location_even, new_location_odd.
  destruct (Z.even m2); reflexivity.
Qed.

(** The quotient of two counts, the first not above the second, is a
    Number from 0 to 1. *)
Lemma ratio_atMost (a b : nat) :
  (a <= b)%nat -> 0 < Z.of_nat b < 2 ^ 53 ->
  atMost 1 (ofNat a / ofNat b)%num = true /\
  hasSign false (ofNat a / ofNat b)%num = true.
Proof.
  intros Hab Hb.
  destruct (ofNat_value b Hb) as (mb & eb & Eb & Xb & Vb & Db). rewrite Eb.
  destruct (Z.eq_dec (Z.of_nat a) 0) as [Z0|NZ].
  - unfold ofNat. rewrite Z0. split; reflexivity.
  - destruct (ofNat_value a ltac:(lia)) as (ma & ea & Ea & Xa & Va & Da). rewrite Ea.
    split; [|apply (fdiv_finite_sign false false)].
    unfold fdiv. cbn [SFdiv xorb].
    pose proof (div_core_value (Zpos ma) ea (Zpos mb) eb ltac:(lia) ltac:(lia)) as H.
    cbv zeta in H.
    destruct (SFdiv_core_binary prec emax (Zpos ma) ea (Zpos mb) eb) as [[q e] l].
    cbn [fst snd Zdigits2] in H. rewrite Da, Db, fexp_eq in H.
    replace (Z.min (Z.max (53 + ea - (53 + eb) - 53) (-1074)) (ea - eb))
      with (ea - eb - 53) in H by lia.
    replace (ea - eb - (ea - eb - 53)) with 53 in H by lia.
    destruct H as (Ee & Hq & Hle & Hex). subst e.
    assert (0 < 2 ^ (- ea)) as Pa by (apply Z.pow_pos_nonneg; lia).
    assert (0 < 2 ^ (- eb)) as Pb by (apply Z.pow_pos_nonneg; lia).
    assert (2 ^ (- (ea - eb - 53)) * 2 ^ (- eb) = 2 ^ (- ea) * 2 ^ 53) as Ep.
    { rewrite <- !Z.pow_add_r by lia. f_equal. lia. }
    set (c := 2 ^ (- (ea - eb - 53))) in *.
    set (pa := 2 ^ (- ea)) in *. set (pb := 2 ^ (- eb)) in *.
    set (k := 2 ^ 53) in *.
    assert (0 < k) as Pk by (unfold k; lia).
    assert (Z.of_nat a <= Z.of_nat b) as Hab' by lia.
    assert (q * (Z.of_nat b * pb) <= c * (Z.of_nat b * pb)) as Hmain.
    { rewrite <- Vb. apply Z.le_trans with (1 := Hle).
      rewrite Va, Vb.
      replace (c * (Z.of_nat b * pb)) with (Z.of_nat b * (c * pb)) by lia.
      rewrite Ep. nia. }
    assert (q <= c) as Hqc by nia.
    apply binary_round_aux_atMost; try lia.
    fold c. intros E. apply Hex. rewrite Va, Vb. rewrite Z.mul_1_l in E. subst q.
    assert (Z.of_nat a * pa * k <= Z.of_nat b * pa * k) by nia.
    assert (c * (Z.of_nat b * pb) = Z.of_nat b * pa * k)
      by (replace (c * (Z.of_nat b * pb)) with (Z.of_nat b * (c * pb)) by lia;
          rewrite Ep; lia).
    rewrite Va, Vb in Hle. lia.
Qed.

(** Multiplying by a small positive integer scales the bound. *)
Lemma fmul_atMost (A B : Z) (x : num) :
  0 < A -> 0 < B -> A * B < 2 ^ 52 ->
  atMost A x = true -> hasSign false x = true ->
  atMost (A * B) (x * ofZ B)%num = true /\ hasSign false (x * ofZ B)%num = true.
Proof.
  intros HA HB HAB Hx Hs.
  assert (B < 2 ^ 53) as HB' by nia.
  destruct (ofZ_value B ltac:(lia)) as (mb & eb & Eb & Xb & Vb & Db). rewrite Eb.
  destruct x as [sx|sx| |sx mx ex]; cbn [atMost hasSign] in Hx, Hs; try discriminate;
    destruct sx; try discriminate.
  - split; reflexivity.
  - apply andb_prop in Hx as [Hex Hmx]. apply Z.ltb_lt in Hex. apply Z.leb_le in Hmx.
    unfold fmul. cbn [SFmul xorb]. split; [|apply binary_round_aux_spec; lia].
    assert (0 < 2 ^ (- ex)) as Pa by (apply Z.pow_pos_nonneg; lia).
    assert (0 < 2 ^ (- eb)) as Pb by (apply Z.pow_pos_nonneg; lia).
    assert (2 ^ (- (ex + eb)) = 2 ^ (- ex) * 2 ^ (- eb)) as Ep.
    { rewrite <- !Z.pow_add_r by lia. f_equal. lia. }
    apply binary_round_aux_atMost; try lia.
    + rewrite Pos2Z.inj_mul, Ep, Vb. nia.
    + reflexivity.
Qed.

(** [Math.round] of a Number from 0 to an integer bound is an integer
    from 0 to the bound. *)
Lemma Math_round_atMost (B : Z) (x : num) :
  0 < B -> atMost B x = true -> hasSign false x = true ->
  exists k, Math_round x = ofZ k /\ 0 <= k <= B.
Proof.
  intros HB Hx Hs.
  destruct x as [sx|sx| |sx mx ex]; cbn [atMost hasSign] in Hx, Hs; try discriminate;
    destruct sx; try discriminate.
  - exists 0. split; [reflexivity|lia].
  - apply andb_prop in Hx as [Hex Hmx]. apply Z.ltb_lt in Hex. apply Z.leb_le in Hmx.
    destruct ex as [|p|p]; try lia. cbn [Math_round].
    change (- Zneg p) with (Zpos p) in Hmx.
    assert (0 < 2 ^ Zpos p) as Pp by (apply Z.pow_pos_nonneg; lia).
    assert (2 ^ (Zpos p + 1) = 2 * 2 ^ Zpos p) as Ep
        by (rewrite Z.pow_add_r by lia; change (2 ^ 1) with 2; lia).
    assert (0 <= (2 * Zpos mx + 2 ^ Zpos p) / 2 ^ (Zpos p + 1) <= B) as Hk.
    { split; [apply Z.div_pos; lia|].
      apply Z.lt_succ_r, Z.div_lt_upper_bound; [lia|]. rewrite Ep. nia. }
    destruct ((2 * Zpos mx + 2 ^ Zpos p) / 2 ^ (Zpos p + 1)) as [|n|n].
    + exists 0. split; [reflexivity|lia].
    + exists (Zpos n). split; [reflexivity|lia].
    + lia.
Qed.

(** [Math.round((a / b) * 100)] for two counts, the first not above the
    second: an integer from 0 to 100. *)
Lemma percent_range (a b : nat) :
  (a <= b)%nat -> 0 < Z.of_nat b < 2 ^ 53 ->
  exists k, percent a b = ofZ k /\ 0 <= k <= 100.
Proof.
  intros Hab Hb. destruct (ratio_atMost a b Hab Hb) as [H1 H2].
  destruct (fmul_atMost 1 100 _ ltac:(lia) ltac:(lia) ltac:(lia) H1 H2) as [H3 H4].
  apply Math_round_atMost; [lia|exact H3|exact H4].
Qed.

(** A positive count divided by itself is 1. *)
Lemma fdiv_self (n : nat) :
  0 < Z.of_nat n < 2 ^ 53 -> (ofNat n / ofNat n)%num = ofZ 1.
Proof.
  intros Hn. destruct (ofNat_value n Hn) as (m & e & E & X & V & D). rewrite E.
  unfold fdiv. cbn [SFdiv xorb]. unfold SFdiv_core_binary. cbn [Zdigits2]. rewrite D.
  replace (53 + e - (53 + e)) with 0 by lia. replace (e - e) with 0 by lia.
  change (Z.min (fexp prec emax 0) 0) with (-53). change (0 - -53) with 53.
  cbv beta iota zeta. rewrite Z.shiftl_mul_pow2 by lia.
  pose proof (Z_div_mod (Zpos m * 2 ^ 53) (Zpos m) ltac:(lia)) as Hdm.
  destruct (Z.div_eucl (Zpos m * 2 ^ 53) (Zpos m)) as [q r].
  destruct Hdm as [Eq Hr].
  assert (q = 2 ^ 53) as -> by nia.
  assert (r = 0) as -> by lia.
  assert (new_location (Zpos m) 0 = loc_Exact) as ->.
  { unfold new_location, new_location_even, new_location_odd.
    destruct (Z.even (Zpos m)); reflexivity. }
  vm_compute. reflexivity.
Qed.

(** All of a positive count is 100 percent, and none of it is 0. *)
Lemma percent_all (n : nat) :
  0 < Z.of_nat n < 2 ^ 53 -> percent n n = ofZ 100.
Proof.
  intros Hn. unfold percent. rewrite (fdiv_self n Hn). vm_compute. reflexivity.
Qed.

Lemma percent_none (n : nat) :
  0 < Z.of_nat n < 2 ^ 53 -> percent 0 n = ofZ 0.
Proof.
  intros Hn. unfold percent.
  destruct (ofNat_value n Hn) as (m & e & E & _). rewrite E. reflexivity.
Qed.

(** The Number nearest to a ratio of integers is not above an integer
    that the ratio is not above. *)
Lemma nearestRatio_atMost (s : bool) (n d B : Z) :
  0 < n -> 0 < d -> 0 < B < 2 ^ 52 -> n <= B * d ->
  atMost B (nearestRatio s n d) = true.
Proof.
  intros Hn Hd HB Hle. unfold nearestRatio.
  pose proof (div_core_value n 0 d 0 Hn Hd) as H. cbv zeta in H.
  destruct (SFdiv_core_binary prec emax n 0 d 0) as [[q e] l].
  cbn [fst snd] in H. rewrite fexp_eq in H. destruct H as (Ee & Hq & Hqd & Hex).
  rewrite <- Ee in Hqd, Hex. replace (0 - 0 - e) with (- e) in Hqd, Hex by lia.
  pose proof (Zdigits2_upper d ltac:(lia)) as Ud.
  pose proof (Zdigits2_nonneg d) as Nd.
  assert (Zdigits2 n <= 52 + Zdigits2 d) as Hdn.
  { apply Zdigits2_le_of_lt_pow; [|lia]. split; [lia|].
    rewrite Z.pow_add_r by lia. nia. }
  assert (e < 0) as He by lia.
  assert (0 < 2 ^ (- e)) as Pe by (apply Z.pow_pos_nonneg; lia).
  assert (q * d <= B * 2 ^ (- e) * d) as Hmain by nia.
  apply binary_round_aux_atMost; try lia.
  - nia.
  - intros E. apply Hex. subst q. nia.
Qed.

(** [toFixed] keeps a Number from 0 to an integer bound in that range. *)
Lemma toFixedNum_atMost (d : nat) (B : Z) (x : num) :
  0 < B < 2 ^ 52 -> atMost B x = true -> hasSign false x = true ->
  atMost B (toFixedNum d x) = true /\ hasSign false (toFixedNum d x) = true.
Proof.
  intros HB Hx Hs.
  destruct x as [sx|sx| |sx mx ex]; cbn [atMost hasSign] in Hx, Hs; try discriminate;
    destruct sx; try discriminate.
  - split; reflexivity.
  - apply andb_prop in Hx as [Hex Hmx]. apply Z.ltb_lt in Hex. apply Z.leb_le in Hmx.
    destruct ex as [|p|p]; try lia. change (- Zneg p) with (Zpos p) in Hmx.
    assert (0 < 2 ^ Zpos p) as Pp by (apply Z.pow_pos_nonneg; lia).
    assert (0 < 10 ^ Z.of_nat d) as Pd by (apply Z.pow_pos_nonneg; lia).
    assert (2 ^ (Zpos p + 1) = 2 * 2 ^ Zpos p) as Ep
        by (rewrite Z.pow_add_r by lia; change (2 ^ 1) with 2; lia).
    cbn [toFixedNum atLeast1e21 scaledRound].
    assert ((10 ^ 21 * 2 ^ Zpos p <=? Zpos mx) = false) as ->.
    { apply Z.leb_gt. assert (B < 10 ^ 21) by lia. nia. }
    set (n := (2 * (Zpos mx * 10 ^ Z.of_nat d) + 2 ^ Zpos p) / 2 ^ (Zpos p + 1)).
    assert (0 <= n <= B * 10 ^ Z.of_nat d) as Hn.
    { unfold n. split; [apply Z.div_pos; nia|].
      apply Z.lt_succ_r, Z.div_lt_upper_bound; [lia|]. rewrite Ep. nia. }
    destruct n as [|k|k]; try lia.
    + split; reflexivity.
    + split; [apply nearestRatio_atMost; lia|apply nearestRatio_sign; lia].
Qed.

End Rounding.

(** ** [analyzeHeadings] *)

(** The last step of a proof by cases on small numbers. *)
Ltac settle :=
  repeat match goal with H : _ /\ _ |- _ => destruct H end;
  try congruence; try lia; try discriminate; auto; try (cbn [In]; lia).

Section HeadingsFacts.

Lemma substringTo_length (n : nat) (s : string) :
  String.length (substringTo n s) <= n.
Proof.
  unfold substringTo. revert s. induction n as [|n IH]; intros s.
  - destruct s; simpl; lia.
  - destruct s as [|c s]; simpl; [lia|]. specialize (IH s). lia.
Qed.

Lemma levelOfTag_lowerTag (t : Headings.TagName) :
  levelOfTag (lowerTag t) = levelOf t.
Proof. destruct t; reflexivity. Qed.

Lemma levelOf_range (t : Headings.TagName) : 1 <= levelOf t <= 6.
Proof. destruct t; simpl; lia. Qed.

Lemma collectHeading_fold (hs : list Headings.Element)
    (s : Headings.Stats) (items : list Headings.Item) :
  fold_left collectHeading hs (s, items) =
  ({| Headings.h1 := Headings.h1 s + countLevel 1 hs;
      Headings.h2 := Headings.h2 s + countLevel 2 hs;
      Headings.h3 := Headings.h3 s + countLevel 3 hs;
      Headings.h4 := Headings.h4 s + countLevel 4 hs;
      Headings.h5 := Headings.h5 s + countLevel 5 hs;
      Headings.h6 := Headings.h6 s + countLevel 6 hs;
      Headings.total := Headings.total s + List.length hs |},
   (items ++ map headingItem hs)%list).
Proof.
  revert s items. induction hs as [|h hs IH]; intros s items.
  - destruct s. cbn. rewrite app_nil_r, !Nat.add_0_r. reflexivity.
  - cbn [fold_left]. unfold collectHeading at 2. cbn [fst snd]. rewrite IH.
    rewrite <- app_assoc. cbn [map app]. f_equal.
    unfold countLevel, headingLevels. cbn [map filter].
    destruct (Headings.tagName h); cbn; f_equal; lia.
Qed.

Lemma checkOrder_fold (items : list Headings.Item) (last : nat) (skip : bool)
    (issues : list Issue.t) :
  snd (fst (fold_left checkOrder items (last, skip, issues)))
  = skip || isSome (firstSkip last (map Headings.level items)) /\
  snd (fold_left checkOrder items (last, skip, issues))
  = (issues ++ if skip then []
               else skipIssues (firstSkip last (map Headings.level items)))%list.
Proof.
  revert last skip issues. induction items as [|h items IH]; intros last skip issues.
  - cbn. rewrite orb_false_r. destruct skip; rewrite app_nil_r; auto.
  - cbn [fold_left map firstSkip].
    assert (checkOrder (last, skip, issues) h =
            if (last + 1 <? Headings.level h) && negb skip
            then (Headings.level h, true,
                  (issues ++ skipIssues (Some (last, Headings.level h)))%list)
            else (Headings.level h, skip, issues)) as -> by reflexivity.
    destruct (last + 1 <? Headings.level h) eqn:E; cbn [andb].
    + destruct skip; cbn [negb].
      * apply (IH (Headings.level h) true issues).
      * destruct (IH (Headings.level h) true
                    (issues ++ skipIssues (Some (last, Headings.level h)))%list)
          as [H1 H2].
        rewrite H1, H2. cbn [orb isSome]. rewrite app_nil_r. auto.
    + apply (IH (Headings.level h) skip issues).
Qed.

Lemma headingItem_levels (hs : list Headings.Element) :
  map Headings.level (map headingItem hs) = headingLevels hs.
Proof.
  unfold headingLevels. rewrite map_map. apply map_ext. intros h.
  apply levelOfTag_lowerTag.
Qed.

Lemma h1Issues_eq (n : nat) :
  (if n =? 0
   then [ {| Issue.type := "fail"; Issue.message := "No H1 tag found" |} ]
   else if 1 <? n
        then [ {| Issue.type := "warn";
                  Issue.message := "Multiple H1 tags (" ++ numeral n ++ ")" |} ]
        else []) = h1Issues n.
Proof. destruct n as [|[|n]]; reflexivity. Qed.

(** [analyzeHeadings] in terms of the levels of the headings. *)
Lemma analyzeHeadings_eq (hs : list Headings.Element) :
  let n := countLevel 1 hs in
  let skip := firstSkip 0 (headingLevels hs) in
  analyzeHeadings hs =
  {| Headings.score :=
       Z.max 0 (if List.length hs =? 0 then 0%Z
                else Z.sub (Z.sub 100 (if n =? 0 then 40%Z
                                       else if 1 <? n then 20%Z else 0%Z))
                           (if isSome skip then 20%Z else 0%Z));
     Headings.items := map headingItem hs;
     Headings.issues := (h1Issues n ++ skipIssues skip)%list;
     Headings.stats := headingStats hs |}.
Proof.
  cbv zeta. unfold analyzeHeadings. rewrite collectHeading_fold.
  cbn [Headings.h1 Headings.total Nat.add app].
  rewrite h1Issues_eq.
  pose proof (checkOrder_fold (map headingItem hs) 0 false
                (h1Issues (countLevel 1 hs))) as H.
  rewrite headingItem_levels in H.
  destruct (fold_left checkOrder (map headingItem hs)
              (0, false, h1Issues (countLevel 1 hs))) as [[l sk] iss].
  cbn [fst snd orb] in H. destruct H as [-> ->].
  unfold headingStats. f_equal.
  destruct (List.length hs =? 0); [reflexivity|].
  destruct (countLevel 1 hs =? 0); [|destruct (1 <? countLevel 1 hs)];
    destruct (isSome (firstSkip 0 (headingLevels hs))); reflexivity.
Qed.

Lemma countLevel_sum (hs : list Headings.Element) :
  countLevel 1 hs + countLevel 2 hs + countLevel 3 hs
  + countLevel 4 hs + countLevel 5 hs + countLevel 6 hs = List.length hs.
Proof.
  unfold countLevel, headingLevels.
  induction hs as [|h hs IH]; [reflexivity|].
  cbn [map filter List.length]. destruct (Headings.tagName h); cbn; lia.
Qed.

Lemma countLevel_le (n : nat) (hs : list Headings.Element) :
  countLevel n hs <= List.length hs.
Proof.
  unfold countLevel, headingLevels.
  rewrite <- (length_map (fun h => levelOf (Headings.tagName h)) hs).
  apply filter_length_le.
Qed.

(** Without an H1 the first heading already skips a level. *)
Lemma firstSkip_without_h1 (h : Headings.Element) (hs : list Headings.Element) :
  countLevel 1 (h :: hs) = 0 ->
  firstSkip 0 (headingLevels (h :: hs)) = Some (0, levelOf (Headings.tagName h)).
Proof.
  unfold countLevel, headingLevels. cbn [map filter firstSkip].
  destruct (Headings.tagName h); cbn; intros H; try discriminate; reflexivity.
Qed.

End HeadingsFacts.

(** X4.  The statistics of [analyzeHeadings] count the headings: [total]
    is their number, [h1] .. [h6] the number on each level, and the six
    add up to [total].  There is one item for every heading, in document
    order, with the level of its tag and at most 100 characters of
    text. *)
Theorem analyzeHeadings_stats (headings : list Headings.Element) :
  let r := analyzeHeadings headings in
  let s := Headings.stats r in
  s = headingStats headings /\
  Headings.total s = List.length headings /\
  Headings.h1 s + Headings.h2 s + Headings.h3 s
  + Headings.h4 s + Headings.h5 s + Headings.h6 s = Headings.total s /\
  map Headings.level (Headings.items r) = headingLevels headings /\
  map Headings.tag (Headings.items r)
  = map (fun h => lowerTag (Headings.tagName h)) headings /\
  Forall (fun i => String.length (Headings.text i) <= 100
                   /\ 1 <= Headings.level i <= 6) (Headings.items r).
Proof.
  cbv zeta. rewrite analyzeHeadings_eq. cbn [Headings.stats Headings.items].
  split; [reflexivity|]. split; [reflexivity|].
  split; [apply countLevel_sum|]. split; [apply headingItem_levels|].
  split; [rewrite map_map; reflexivity|].
  apply Forall_forall. intros i Hi. apply in_map_iff in Hi as (h & <- & _).
  cbn [headingItem Headings.text Headings.level]. split.
  - apply substringTo_length.
  - rewrite levelOfTag_lowerTag. apply levelOf_range.
Qed.

(** X5.  The issues of [analyzeHeadings] are the issue about the H1 tags
    (none for exactly one H1), followed by at most one warning about a
    skipped level: the warning names the first heading that lies more
    than one level below the one before it, where the page begins at
    level 0, so that a page whose first heading is not an H1 is warned
    about "H0". *)
Theorem analyzeHeadings_issues (headings : list Headings.Element) :
  let r := analyzeHeadings headings in
  Headings.issues r =
  (h1Issues (countLevel 1 headings)
   ++ skipIssues (firstSkip 0 (headingLevels headings)))%list /\
  List.length (Headings.issues r) <= 2 /\
  (forall h rest, headings = h :: rest -> Headings.tagName h <> Headings.H1 ->
     firstSkip 0 (headingLevels headings) = Some (0, levelOf (Headings.tagName h))).
Proof.
  cbv zeta. rewrite analyzeHeadings_eq. cbn [Headings.issues].
  split; [reflexivity|]. split.
  - rewrite length_app.
    destruct (countLevel 1 headings) as [|[|n]];
      destruct (firstSkip 0 (headingLevels headings)) as [[a b]|]; cbn; lia.
  - intros h rest -> Hh. unfold headingLevels. cbn [map firstSkip].
    destruct (Headings.tagName h); try congruence; reflexivity.
Qed.

Lemma analyzeHeadings_issues_witness :
  let headings := [ {| Headings.tagName := Headings.H2; Headings.textContent := "Intro" |};
                    {| Headings.tagName := Headings.H4; Headings.textContent := "More" |} ] in
  firstSkip 0 (headingLevels headings) = Some (0, 2) /\
  Headings.issues (analyzeHeadings headings) =
  [ {| Issue.type := "fail"; Issue.message := "No H1 tag found" |};
    {| Issue.type := "warn"; Issue.message := "Heading level skipped (H0 to H2)" |} ].
Proof.
  cbv zeta. split.
  - refine (proj2 (proj2 (analyzeHeadings_issues _)) _ _ eq_refl _). discriminate.
  - reflexivity.
Defined.

(** X6.  The score of [analyzeHeadings] is 0 for a page without headings
    and otherwise 100 less 40 for no H1, less 20 for more than one H1,
    less 20 for a skipped level.  A page with headings and no H1 scores
    exactly 40, because its first heading skips a level; the score is
    100 exactly when there is one H1 and no skipped level. *)
Theorem analyzeHeadings_score (headings : list Headings.Element) :
  let r := analyzeHeadings headings in
  let n := countLevel 1 headings in
  let skipped := isSome (firstSkip 0 (headingLevels headings)) in
  (headings = [] -> Headings.score r = 0%Z) /\
  (headings <> [] -> n = 0 -> Headings.score r = 40%Z) /\
  (n = 1 -> Headings.score r = if skipped then 80%Z else 100%Z) /\
  (1 < n -> Headings.score r = if skipped then 60%Z else 80%Z) /\
  (Headings.score r = 100%Z <-> n = 1 /\ skipped = false) /\
  (Headings.score r = 0%Z <-> headings = []) /\
  In (Headings.score r) [0; 40; 60; 80; 100]%Z.
Proof.
  cbv zeta. rewrite analyzeHeadings_eq. cbn [Headings.score].
  destruct headings as [|h hs].
  - cbn. repeat split; intros; settle.
  - cbn [List.length Nat.eqb].
    pose proof (firstSkip_without_h1 h hs) as Hs.
    pose proof (countLevel_le 1 (h :: hs)) as Hle.
    destruct (countLevel 1 (h :: hs)) as [|[|n]] eqn:En.
    + rewrite (Hs eq_refl). cbn. repeat split; intros; settle.
    + destruct (isSome (firstSkip 0 (headingLevels (h :: hs)))); cbn;
        repeat split; intros; settle.
    + destruct (isSome (firstSkip 0 (headingLevels (h :: hs)))); cbn;
        repeat split; intros; settle.
Qed.

Lemma analyzeHeadings_score_witness :
  let headings := [ {| Headings.tagName := Headings.H3; Headings.textContent := "Only" |} ] in
  headings <> [] /\ countLevel 1 headings = 0 /\
  Headings.score (analyzeHeadings headings) = 40%Z.
Proof.
  cbv zeta. split; [discriminate|]. split; [reflexivity|].
  refine (proj1 (proj2 (analyzeHeadings_score _)) _ _); [discriminate|reflexivity].
Defined.

(** ** [analyzeImages] *)

Section ImagesFacts.

Lemma countIf_cons {A : Type} (p : A -> bool) (x : A) (l : list A) :
  countIf p (x :: l) = (if p x then 1 else 0) + countIf p l.
Proof. unfold countIf. cbn [filter]. destruct (p x); reflexivity. Qed.

Lemma countIf_le {A : Type} (p : A -> bool) (l : list A) :
  countIf p l <= List.length l.
Proof. apply filter_length_le. Qed.

Lemma countIf_zero {A : Type} (p : A -> bool) (l : list A) :
  countIf p l = 0 <-> forallb (fun x => negb (p x)) l = true.
Proof.
  induction l as [|x l IH]; [cbn; tauto|].
  rewrite countIf_cons. cbn [forallb]. destruct (p x); cbn [negb andb].
  - split; [lia|discriminate].
  - exact IH.
Qed.

Lemma splitOn_not_nil (sep : ascii) (s : string) : splitOn sep s <> [].
Proof.
  induction s as [|c s IH]; cbn; [discriminate|].
  destruct (Ascii.eqb c sep); [discriminate|].
  destruct (splitOn sep s); [contradiction|discriminate].
Qed.

(** The pieces of a split keep what holds of every character. *)
Lemma splitOn_allChars (p : ascii -> bool) (sep : ascii) (s : string) :
  allChars p s = true -> Forall (fun piece => allChars p piece = true) (splitOn sep s).
Proof.
  induction s as [|c s IH]; cbn; intros H.
  - constructor; [reflexivity|constructor].
  - apply andb_prop in H as [Hc Hs]. specialize (IH Hs).
    destruct (Ascii.eqb c sep).
    + constructor; [reflexivity|exact IH].
    + destruct (splitOn sep s) as [|q qs] eqn:E.
      * constructor; [cbn; rewrite Hc; reflexivity|constructor].
      * inversion IH as [|? ? Hq Hqs]; subst.
        constructor; [cbn; rewrite Hc, Hq; reflexivity|exact Hqs].
Qed.

(** No piece of a split has the separator. *)
Lemma splitOn_without (sep : ascii) (s : string) :
  Forall (fun piece => without sep piece = true) (splitOn sep s).
Proof.
  induction s as [|c s IH]; cbn.
  - constructor; [reflexivity|constructor].
  - destruct (Ascii.eqb c sep) eqn:Ec.
    + constructor; [reflexivity|exact IH].
    + destruct (splitOn sep s) as [|q qs] eqn:E.
      * constructor; [unfold without; cbn; rewrite Ec; reflexivity|constructor].
      * inversion IH as [|? ? Hq Hqs]; subst.
        constructor; [|exact Hqs].
        unfold without in *. cbn. rewrite Ec, Hq. reflexivity.
Qed.

Lemma pop_In (parts : list string) : parts <> [] -> In (pop parts) parts.
Proof.
  unfold pop. induction parts as [|p ps IH]; [congruence|]. intros _.
  destruct ps as [|q qs]; [left; reflexivity|].
  right. apply IH. discriminate.
Qed.

Lemma first_In (parts : list string) : parts <> [] -> In (first parts) parts.
Proof. destruct parts; [congruence|]. intros _. left. reflexivity. Qed.

Lemma substringTo_allChars (p : ascii -> bool) (n : nat) (s : string) :
  allChars p s = true -> allChars p (substringTo n s) = true.
Proof.
  unfold substringTo. revert s. induction n as [|n IH]; intros s H.
  - destruct s; reflexivity.
  - destruct s as [|c s]; [reflexivity|]. cbn in *.
    apply andb_prop in H as [Hc Hs]. rewrite Hc. apply IH, Hs.
Qed.

(** The file name of an image has neither a slash nor a question mark,
    and at most 40 characters. *)
Lemma fileNameOf_spec (src : string) :
  without "/" (fileNameOf src) = true /\
  without "?" (fileNameOf src) = true /\
  String.length (fileNameOf src) <= 40.
Proof.
  unfold fileNameOf.
  pose proof (splitOn_without "/" src) as H1. rewrite Forall_forall in H1.
  specialize (H1 _ (pop_In _ (splitOn_not_nil "/" src))).
  set (name := pop (splitOn "/" src)) in *.
  pose proof (splitOn_allChars _ "?" name H1) as H2. rewrite Forall_forall in H2.
  specialize (H2 _ (first_In _ (splitOn_not_nil "?" name))).
  pose proof (splitOn_without "?" name) as H3. rewrite Forall_forall in H3.
  specialize (H3 _ (first_In _ (splitOn_not_nil "?" name))).
  split; [apply substringTo_allChars, H2|].
  split; [apply substringTo_allChars, H3|apply substringTo_length].
Qed.

Lemma collectImage_fold (imgs : list Img.Element)
    (s : Images.Stats) (items : list Images.Item) :
  let r := fold_left collectImage imgs (s, items) in
  fst r = {| Images.total := Images.total s + List.length imgs;
             Images.withAlt := Images.withAlt s + countIf hasAltText imgs;
             Images.withoutAlt := Images.withoutAlt s + countIf hasNoAlt imgs;
             Images.decorative := Images.decorative s + countIf isDecorative imgs |} /\
  List.length (snd r) = List.length items + List.length imgs /\
  (Forall (fun i => shownSource (Images.src i) = true
                    /\ String.length (Images.alt i) <= 60) items ->
   Forall (fun i => shownSource (Images.src i) = true
                    /\ String.length (Images.alt i) <= 60) (snd r)) /\
  countIf (fun i => String.eqb (Images.status i) "fail") (snd r)
  = countIf (fun i => String.eqb (Images.status i) "fail") items
    + countIf hasNoAlt imgs.
Proof.
  revert s items. induction imgs as [|img imgs IH]; intros s items; cbv zeta.
  - destruct s. cbn. rewrite !Nat.add_0_r. auto.
  - cbn [fold_left].
    assert (exists s' it,
               collectImage (s, items) img = (s', (items ++ [it])%list) /\
               Images.total s' = Images.total s + 1 /\
               Images.withAlt s' = Images.withAlt s + (if hasAltText img then 1 else 0) /\
               Images.withoutAlt s' = Images.withoutAlt s + (if hasNoAlt img then 1 else 0) /\
               Images.decorative s' = Images.decorative s + (if isDecorative img then 1 else 0) /\
               shownSource (Images.src it) = true /\
               String.length (Images.alt it) <= 60 /\
               String.eqb (Images.status it) "fail" = hasNoAlt img) as (s' & it & E & T & A & W & D & L1 & L2 & St).
    { unfold collectImage, hasAltText, hasNoAlt, isDecorative.
      set (fileName := fileNameOf _).
      assert (shownSource (orElse fileName "(inline)") = true) as Ha.
      { unfold orElse. destruct (isEmpty fileName) eqn:Ee; [reflexivity|].
        unfold shownSource. rewrite Ee.
        destruct (fileNameOf_spec (orElse (Img.src img)
                    match Img.datasetSrc img with Some d => d | None => "" end))
          as (H1 & H2 & H3).
        fold fileName in H1, H2, H3. rewrite H1, H2.
        apply Nat.leb_le in H3. rewrite H3. reflexivity. }
      destruct (Img.alt img) as [a|].
      - destruct (isEmpty a) eqn:Ea; do 2 eexists; (split; [reflexivity|]);
          cbn [Images.total Images.withAlt Images.withoutAlt Images.decorative
               Images.src Images.alt Images.status negb];
          repeat split; try lia; try exact Ha;
          try (cbn; lia); try apply substringTo_length.
        destruct (125 <? String.length a); reflexivity.
      - do 2 eexists; (split; [reflexivity|]);
          cbn [Images.total Images.withAlt Images.withoutAlt Images.decorative
               Images.src Images.alt Images.status];
          repeat split; try lia; try exact Ha; cbn; lia. }
    rewrite E. destruct (IH s' (items ++ [it])%list) as (I1 & I2 & I3 & I4).
    cbv zeta in *. rewrite I1, I2, I4, T, A, W, D, !countIf_cons, length_app.
    cbn [List.length]. split; [f_equal; lia|]. split; [lia|]. split.
    + intros F. apply I3. apply Forall_app. split; [exact F|].
      constructor; [auto|constructor].
    + unfold countIf at 1. rewrite filter_app, length_app. cbn [filter].
      rewrite St. fold (countIf (fun i => String.eqb (Images.status i) "fail") items).
      destruct (hasNoAlt img); cbn [List.length]; lia.
Qed.

Lemma kinds_sum (imgs : list Img.Element) :
  countIf hasAltText imgs + countIf hasNoAlt imgs + countIf isDecorative imgs
  = List.length imgs.
Proof.
  induction imgs as [|img imgs IH]; [reflexivity|].
  rewrite !countIf_cons. cbn [List.length].
  unfold hasAltText, hasNoAlt, isDecorative at 1.
  unfold hasAltText, hasNoAlt, isDecorative in IH.
  destruct (Img.alt img) as [a|]; [destruct (isEmpty a)|]; cbn [negb];
    unfold hasAltText, hasNoAlt, isDecorative; lia.
Qed.

End ImagesFacts.

(** X7.  [analyzeImages] sorts every image into one of three kinds: an
    [alt] text, no [alt] attribute, an empty [alt]; the three counts add
    up to [total], which is the number of images.  There is one item for
    every image, with a source of 1 to 40 characters that has neither a
    slash nor a question mark, and an [alt] of at most 60; the items with
    status "fail" are the images without an [alt] attribute, and the one
    issue is there exactly when there is such an image. *)
Theorem analyzeImages_stats (images : list Img.Element) :
  let r := analyzeImages images in
  let s := Images.stats r in
  Images.total s = List.length images /\
  Images.withAlt s = countIf hasAltText images /\
  Images.withoutAlt s = countIf hasNoAlt images /\
  Images.decorative s = countIf isDecorative images /\
  Images.withAlt s + Images.withoutAlt s + Images.decorative s = Images.total s /\
  List.length (Images.items r) = List.length images /\
  countIf (fun i => String.eqb (Images.status i) "fail") (Images.items r)
  = Images.withoutAlt s /\
  Forall (fun i => shownSource (Images.src i) = true
                   /\ String.length (Images.alt i) <= 60) (Images.items r) /\
  (Images.issues r = [] <-> forallb (fun img => negb (hasNoAlt img)) images = true) /\
  List.length (Images.issues r) <= 1.
Proof.
  cbv zeta. unfold analyzeImages.
  pose proof (collectImage_fold images
                {| Images.total := 0; Images.withAlt := 0;
                   Images.withoutAlt := 0; Images.decorative := 0 |} []) as H.
  cbv zeta in H.
  destruct (fold_left collectImage images _) as [stats items].
  cbn [fst snd Images.total Images.withAlt Images.withoutAlt Images.decorative
       Nat.add List.length] in H.
  destruct H as (-> & Hlen & Hall & Hfail).
  cbn [Images.stats Images.items Images.issues Images.total Images.withAlt
       Images.withoutAlt Images.decorative].
  pose proof (kinds_sum images) as Hs.
  repeat split; try lia; try exact Hlen; try exact Hfail.
  - apply Hall. constructor.
  - rewrite <- countIf_zero. destruct (countIf hasNoAlt images); [reflexivity|].
    cbn. discriminate.
  - rewrite <- countIf_zero. intros ->. reflexivity.
  - destruct (0 <? countIf hasNoAlt images); cbn; lia.
Qed.

(** X8.  The score of [analyzeImages] is a whole number from 0 to 100:
    100 for a page without images and for a page where every image has
    an [alt] attribute, 0 where none has one.  (A score of 100 does not
    tell that every image has one: 199 of 200 round to 100.) *)
Theorem analyzeImages_score (images : list Img.Element) :
  (Z.of_nat (List.length images) < 2 ^ 53)%Z ->
  let r := analyzeImages images in
  (exists k : Z, Images.score r = ofZ k /\ (0 <= k <= 100)%Z) /\
  (countIf hasNoAlt images = 0 -> Images.score r = ofZ 100) /\
  (images <> [] -> countIf hasNoAlt images = List.length images ->
   Images.score r = ofZ 0) /\
  percent 199 200 = ofZ 100.
Proof.
  intros Hlt. cbv zeta. unfold analyzeImages.
  pose proof (collectImage_fold images
                {| Images.total := 0; Images.withAlt := 0;
                   Images.withoutAlt := 0; Images.decorative := 0 |} []) as H.
  cbv zeta in H.
  destruct (fold_left collectImage images _) as [stats items].
  cbn [fst snd Images.total Images.withAlt Images.withoutAlt Images.decorative
       Nat.add List.length] in H.
  destruct H as (-> & _).
  cbn [Images.score Images.total Images.withAlt Images.decorative].
  pose proof (kinds_sum images) as Hs.
  destruct images as [|img images].
  - cbn. repeat split.
    + exists 100%Z. split; [reflexivity|lia].
    + congruence.
  - cbn [List.length Nat.eqb] in *.
    assert (0 < Z.of_nat (S (List.length images)) < 2 ^ 53)%Z as Hn by lia.
    repeat split.
    + apply percent_range; [lia|exact Hn].
    + intros H0. rewrite H0 in Hs.
      replace (countIf hasAltText (img :: images) + countIf isDecorative (img :: images))
        with (S (List.length images)) by lia.
      apply percent_all, Hn.
    + intros _ Hall. rewrite Hall in Hs.
      replace (countIf hasAltText (img :: images) + countIf isDecorative (img :: images))
        with 0 by lia.
      apply percent_none, Hn.
Qed.

Lemma analyzeImages_score_witness :
  let images := [ {| Img.alt := Some "A cat"; Img.src := "https://x.test/cat.png";
                     Img.datasetSrc := None |};
                  {| Img.alt := Some ""; Img.src := ""; Img.datasetSrc := None |} ] in
  (Z.of_nat (List.length images) < 2 ^ 53)%Z /\
  countIf hasNoAlt images = 0 /\
  Images.score (analyzeImages images) = ofZ 100.
Proof.
  cbv zeta. split; [vm_compute; reflexivity|]. split; [reflexivity|].
  refine (proj1 (proj2 (analyzeImages_score _ _)) _); [vm_compute|]; reflexivity.
Defined.

(** ** [analyzeLinks] *)

Section LinksFacts.

Variable currentHost : string.

Lemma plusIf_eq (n : nat) (b : bool) : plusIf n b = n + (if b then 1 else 0).
Proof. destruct b; cbn; lia. Qed.

Lemma collectLink_fold (links : list Anchor.Element) (s : Links.Stats) :
  let t := linkStats currentHost links in
  fold_left (collectLink currentHost) links s =
  {| Links.total := Links.total s + Links.total t;
     Links.internal := Links.internal s + Links.internal t;
     Links.external := Links.external s + Links.external t;
     Links.nofollow := Links.nofollow s + Links.nofollow t;
     Links.noopener := Links.noopener s + Links.noopener t;
     Links.empty := Links.empty s + Links.empty t;
     Links.blankWithoutNoopener :=
       Links.blankWithoutNoopener s + Links.blankWithoutNoopener t |}.
Proof.
  cbv zeta. revert s. induction links as [|link links IH]; intros s.
  - destruct s. cbn. rewrite !Nat.add_0_r. reflexivity.
  - cbn [fold_left]. rewrite IH. unfold collectLink, linkStats.
    cbn [Links.total Links.internal Links.external Links.nofollow Links.noopener
         Links.empty Links.blankWithoutNoopener List.length].
    rewrite !countIf_cons, !plusIf_eq. f_equal; lia.
Qed.

Lemma internal_or_external (link : Anchor.Element) :
  isInternalLink currentHost link = negb (isExternalLink currentHost link).
Proof.
  unfold isInternalLink, isExternalLink.
  destruct (startsWith (Anchor.href link) "http"),
           (String.eqb (linkHostOf link) currentHost); reflexivity.
Qed.

Lemma countIf_negb {A : Type} (p : A -> bool) (l : list A) :
  countIf (fun x => negb (p x)) l + countIf p l = List.length l.
Proof.
  induction l as [|x l IH]; [reflexivity|].
  rewrite !countIf_cons. cbn [List.length]. destruct (p x); cbn [negb]; lia.
Qed.

Lemma countIf_ext {A : Type} (p q : A -> bool) (l : list A) :
  (forall x, p x = q x) -> countIf p l = countIf q l.
Proof.
  intros H. unfold countIf. f_equal. apply filter_ext. exact H.
Qed.

Lemma countIf_imp {A : Type} (p q : A -> bool) (l : list A) :
  (forall x, p x = true -> q x = true) -> countIf p l <= countIf q l.
Proof.
  intros H. induction l as [|x l IH]; [reflexivity|].
  rewrite !countIf_cons. specialize (H x).
  destruct (p x), (q x); lia.
Qed.

Lemma analyzeLinks_eq (links : list Anchor.Element) :
  let s := linkStats currentHost links in
  analyzeLinks currentHost links =
  {| Links.score := if 0 <? Links.empty s then 90%Z else 100%Z;
     Links.items := [];
     Links.issues :=
       ((if 0 <? Links.empty s
         then [ {| Issue.type := "warn";
                   Issue.message :=
                     numeral (Links.empty s) ++ " link(s) with empty anchor text" |} ]
         else [])
        ++
        (if 0 <? Links.blankWithoutNoopener s
         then [ {| Issue.type := "info";
                   Issue.message :=
                     numeral (Links.blankWithoutNoopener s) ++
                     " external link(s) without rel=" ++ String (ascii_of_N 34) "noopener"
                     ++ String (ascii_of_N 34) "" |} ]
         else []))%list;
     Links.stats := s |}.
Proof.
  cbv zeta. unfold analyzeLinks.
  assert (fold_left (collectLink currentHost) links
            {| Links.total := 0; Links.internal := 0; Links.external := 0;
               Links.nofollow := 0; Links.noopener := 0; Links.empty := 0;
               Links.blankWithoutNoopener := 0 |}
          = linkStats currentHost links) as ->
      by (rewrite collectLink_fold; reflexivity).
  f_equal. destruct (0 <? Links.empty (linkStats currentHost links)); reflexivity.
Qed.

End LinksFacts.

(** X9.  [analyzeLinks] counts every link once as internal or as
    external, never as both: [internal + external = total], the number of
    links.  The other counts are counts of links too, so none is above
    [total], and the links that open a new tab without "noopener" are
    among the external ones.  Nothing is ever put into [items]. *)
Theorem analyzeLinks_stats (currentHost : string) (links : list Anchor.Element) :
  let r := analyzeLinks currentHost links in
  let s := Links.stats r in
  s = linkStats currentHost links /\
  Links.total s = List.length links /\
  Links.internal s + Links.external s = Links.total s /\
  Links.nofollow s <= Links.total s /\
  Links.noopener s <= Links.total s /\
  Links.empty s <= Links.total s /\
  Links.blankWithoutNoopener s <= Links.external s /\
  Links.blankWithoutNoopener s + Links.noopener s <= Links.total s /\
  Links.items r = [].
Proof.
  cbv zeta. rewrite analyzeLinks_eq. cbn [Links.stats Links.items].
  unfold linkStats.
  cbn [Links.total Links.internal Links.external Links.nofollow Links.noopener
       Links.empty Links.blankWithoutNoopener].
  repeat split; try apply countIf_le.
  - rewrite (countIf_ext _ _ links (internal_or_external currentHost)).
    apply countIf_negb.
  - apply countIf_imp. intros x H.
    apply andb_prop in H as [H _]. apply andb_prop in H as [H _]. exact H.
  - rewrite <- (countIf_negb isNoopenerLink links).
    apply Nat.add_le_mono_r, countIf_imp. intros x H.
    apply andb_prop in H as [_ H]. exact H.
Qed.

(** X10.  The score of [analyzeLinks] is 100, or 90 when some link has
    neither text nor an image; nothing else lowers it.  There are at most
    two issues: the warning about empty anchor texts, which goes with the
    score of 90, and the note about external links that open a new tab
    without "noopener", which costs nothing. *)
Theorem analyzeLinks_score (currentHost : string) (links : list Anchor.Element) :
  let r := analyzeLinks currentHost links in
  (Links.score r = 100%Z \/ Links.score r = 90%Z) /\
  (Links.score r = 100%Z <->
   forallb (fun link => negb (isEmptyLink link)) links = true) /\
  (Links.score r = 90%Z <->
   exists i, In i (Links.issues r) /\ Issue.type i = "warn") /\
  List.length (Links.issues r) <= 2 /\
  (Links.issues r = [] <->
   Links.empty (Links.stats r) = 0 /\
   Links.blankWithoutNoopener (Links.stats r) = 0).
Proof.
  cbv zeta. rewrite analyzeLinks_eq.
  cbn [Links.score Links.issues Links.stats].
  rewrite <- countIf_zero. unfold linkStats.
  cbn [Links.empty Links.blankWithoutNoopener].
  set (e := countIf isEmptyLink links).
  set (b := countIf _ links).
  destruct e as [|e], b as [|b]; cbn [Nat.ltb Nat.leb app List.length];
    repeat split; intros; try lia; try discriminate; auto.
  - destruct H as (i & [] & _).
  - destruct H as (i & [<-|[]] & H). discriminate.
  - eexists. split; [left; reflexivity|reflexivity].
  - eexists. split; [left; reflexivity|reflexivity].
Qed.

(** ** [analyzeMeta] *)

Section MetaFacts.

Lemma passCount_statuses (items : list Meta.Item) :
  passCount items
  = List.length (filter (fun s => String.eqb s "pass") (map Meta.status items)).
Proof.
  unfold passCount. induction items as [|i items IH]; [reflexivity|].
  cbn [filter map]. destruct (String.eqb (Meta.status i) "pass"); cbn [List.length]; lia.
Qed.

(** The robots entry never passes, so at most seven of the eight do. *)
Lemma passCount_metaItems (page : Meta.Page) (description robots : string) :
  passCount (metaItems page description robots) <= 7.
Proof.
  rewrite passCount_statuses. unfold metaItems. cbn [map Meta.status filter].
  destruct (includes (toLowerCase robots) "noindex"); cbn [String.eqb Ascii.eqb Bool.eqb];
    repeat match goal with
           | |- context [if ?c then _ else _] => destruct c
           end; cbn [List.length]; lia.
Qed.

Lemma percent_of_eight (n : nat) :
  n <= 7 ->
  exists k : Z, percent n 8 = ofZ k /\ In k [0; 13; 25; 38; 50; 63; 75; 88]%Z.
Proof.
  intros H. exists (nth n [0; 13; 25; 38; 50; 63; 75; 88]%Z 0%Z).
  do 8 (destruct n as [|n]; [split; [vm_compute; reflexivity|cbn; lia]|]).
  lia.
Qed.

End MetaFacts.

(** X11.  [analyzeMeta] throws a TypeError exactly when the page has a
    description or a robots meta element without a [content] attribute:
    [getAttribute] is then [null], and the function reads [.length] or
    calls [.toLowerCase()] on it.  Otherwise it returns eight entries,
    in a fixed order. *)
Theorem analyzeMeta_throws (page : Meta.Page) :
  (analyzeMeta page = None <->
   Meta.descMeta page = Some None \/ Meta.robotsMeta page = Some None) /\
  (forall r, analyzeMeta page = Some r ->
     map Meta.key (Meta.items r)
     = ["title"; "description"; "canonical"; "robots"; "og"; "twitter";
        "viewport"; "lang"] /\
     Meta.issues r = []).
Proof.
  unfold analyzeMeta, attributeOf.
  destruct (Meta.descMeta page) as [[d|]|], (Meta.robotsMeta page) as [[b|]|];
    (split; [split; [intros H; try discriminate; auto
                    |intros [H|H]; try discriminate; reflexivity]
            |intros r H; try discriminate; injection H as <-; split; reflexivity]).
Qed.

Lemma analyzeMeta_throws_witness :
  let page := {| Meta.title := "Home"; Meta.descMeta := Some None;
                 Meta.canonical := None; Meta.robotsMeta := None;
                 Meta.ogTitle := false; Meta.ogDesc := false; Meta.ogImage := false;
                 Meta.twitterCard := None; Meta.viewport := true;
                 Meta.htmlLang := "en" |} in
  (Meta.descMeta page = Some None \/ Meta.robotsMeta page = Some None) /\
  analyzeMeta page = None.
Proof.
  cbv zeta. split; [left; reflexivity|].
  refine (proj2 (proj1 (analyzeMeta_throws _)) _). left. reflexivity.
Defined.



(** ** [analyzeContent], and more on [countText] *)

Section ContentFacts.

Lemma splitFrom_collapseFrom (b : bool) (s : string) :
  splitFrom b (collapseFrom b s) = splitFrom b s.
Proof.
  revert b. induction s as [|c s IH]; intros b; [reflexivity|].
  cbn [collapseFrom splitFrom]. destruct (isSpace c) eqn:Ec.
  - destruct b.
    + apply IH.
    + cbn [splitFrom]. change (isSpace " ") with true. cbv iota. rewrite IH. reflexivity.
  - cbn [splitFrom]. rewrite Ec, IH. reflexivity.
Qed.

Lemma trimStart_collapseFrom (b : bool) (s : string) :
  trimStart (collapseFrom b s) = collapseFrom false (trimStart s).
Proof.
  revert b. induction s as [|c s IH]; intros b; [reflexivity|].
  cbn [collapseFrom trimStart]. destruct (isSpace c) eqn:Ec.
  - destruct b; [apply IH|]. cbn [trimStart]. change (isSpace " ") with true.
    cbv iota. apply IH.
  - cbn [trimStart collapseFrom]. rewrite Ec. reflexivity.
Qed.

Lemma trimEnd_allSpace (s : string) :
  allChars isSpace s = true -> trimEnd s = EmptyString.
Proof.
  induction s as [|c s IH]; [reflexivity|]. cbn. intros H.
  apply andb_prop in H as [Hc Hs]. rewrite Hc, (IH Hs). reflexivity.
Qed.

Lemma trimEnd_spaces (s : string) :
  allChars isSpace (trimEnd s) = true -> trimEnd s = EmptyString.
Proof.
  induction s as [|c s IH]; [reflexivity|]. cbn [trimEnd].
  destruct (isSpace c && isEmpty (trimEnd s)) eqn:E; [reflexivity|].
  cbn [allChars]. intros H. apply andb_prop in H as [Hc Hs].
  rewrite Hc, (IH Hs) in E. discriminate.
Qed.

Lemma isEmpty_collapse_trimEnd (s : string) :
  isEmpty (collapseFrom true (trimEnd s)) = isEmpty (trimEnd s).
Proof.
  destruct (trimEnd s) as [|c t] eqn:E; [reflexivity|].
  destruct (collapseFrom true (String c t)) as [|d u] eqn:E'; [|reflexivity].
  assert (allChars isSpace (trimEnd s) = true) as H.
  { rewrite E. apply (collapseFrom_spaces true). rewrite E'. reflexivity. }
  apply trimEnd_spaces in H. congruence.
Qed.

Lemma trimEnd_collapseFrom (b : bool) (s : string) :
  trimEnd (collapseFrom b s) = collapseFrom b (trimEnd s).
Proof.
  revert b. induction s as [|c s IH]; intros b; [reflexivity|].
  cbn [collapseFrom trimEnd]. destruct (isSpace c) eqn:Ec; cbn [andb].
  - destruct b.
    + rewrite IH. destruct (isEmpty (trimEnd s)) eqn:Ee.
      * apply isEmpty_true in Ee. rewrite Ee. reflexivity.
      * cbn [collapseFrom]. rewrite Ec. reflexivity.
    + cbn [trimEnd]. change (isSpace " ") with true. cbn [andb].
      rewrite IH, isEmpty_collapse_trimEnd.
      destruct (isEmpty (trimEnd s)); [reflexivity|].
      cbn [collapseFrom]. rewrite Ec. reflexivity.
  - cbn [trimEnd collapseFrom]. rewrite Ec, IH. reflexivity.
Qed.

(** Trimming and collapsing the white space can be done in either
    order. *)
Lemma trim_collapseSpaces (s : string) :
  trim (collapseSpaces s) = collapseSpaces (trim s).
Proof.
  unfold trim, collapseSpaces.
  rewrite trimStart_collapseFrom, trimEnd_collapseFrom. reflexivity.
Qed.

Lemma isEmpty_collapseSpaces (s : string) :
  isEmpty (collapseSpaces s) = isEmpty s.
Proof.
  destruct s as [|c s]; [reflexivity|]. unfold collapseSpaces. cbn.
  destruct (isSpace c); reflexivity.
Qed.

(** The words of a trimmed string are the words that [countText]
    counts. *)
Lemma trimmedWords_countText (s : string) : trimmedWords s = words (countText s).
Proof.
  unfold trimmedWords, countText. cbn [words].
  rewrite trim_collapseSpaces, isEmpty_collapseSpaces.
  unfold splitSpaces, collapseSpaces. rewrite splitFrom_collapseFrom. reflexivity.
Qed.

Lemma collapseFrom_idem (b : bool) (s : string) :
  collapseFrom b (collapseFrom b s) = collapseFrom b s.
Proof.
  revert b. induction s as [|c s IH]; intros b; [reflexivity|].
  cbn [collapseFrom]. destruct (isSpace c) eqn:Ec.
  - destruct b; [apply IH|]. cbn [collapseFrom]. change (isSpace " ") with true.
    cbv iota. rewrite IH. reflexivity.
  - cbn [collapseFrom]. rewrite Ec, IH. reflexivity.
Qed.

Lemma trimStart_idem (s : string) : trimStart (trimStart s) = trimStart s.
Proof.
  induction s as [|c s IH]; [reflexivity|]. cbn [trimStart].
  destruct (isSpace c) eqn:Ec; [exact IH|]. cbn [trimStart]. rewrite Ec. reflexivity.
Qed.

Lemma trimEnd_idem (s : string) : trimEnd (trimEnd s) = trimEnd s.
Proof.
  induction s as [|c s IH]; [reflexivity|]. cbn [trimEnd].
  destruct (isSpace c && isEmpty (trimEnd s)) eqn:E; [reflexivity|].
  cbn [trimEnd]. rewrite IH, E. reflexivity.
Qed.

Lemma trimStart_trimEnd (s : string) :
  trimStart (trimEnd s) = trimEnd (trimStart s).
Proof.
  induction s as [|c s IH]; [reflexivity|]. cbn [trimStart trimEnd].
  destruct (isSpace c) eqn:Ec; cbn [andb].
  - destruct (isEmpty (trimEnd s)) eqn:Ee.
    + cbn [trimStart]. apply isEmpty_true in Ee.
      symmetry. apply trimEnd_allSpace.
      apply trimEnd_empty in Ee.
      clear -Ee. induction s as [|d s IH]; [reflexivity|]. cbn in *.
      apply andb_prop in Ee as [Hd Hs]. rewrite Hd. apply IH, Hs.
    + cbn [trimStart]. rewrite Ec. exact IH.
  - cbn [trimStart trimEnd]. rewrite Ec. reflexivity.
Qed.

Lemma trim_idem (s : string) : trim (trim s) = trim s.
Proof.
  unfold trim. rewrite trimStart_trimEnd, trimStart_idem, trimEnd_idem. reflexivity.
Qed.

(** Cleaning a cleaned text changes nothing. *)
Lemma cleanedText_idem (s : string) : cleanedText (cleanedText s) = cleanedText s.
Proof.
  unfold cleanedText. rewrite (trim_collapseSpaces (trim (collapseSpaces s))).
  rewrite trim_idem, trim_collapseSpaces. unfold collapseSpaces.
  rewrite collapseFrom_idem. reflexivity.
Qed.

Lemma spaces_keepChars (s : string) :
  String.length s
  = String.length (keepChars (fun c => negb (isSpace c)) s) + spaces s.
Proof.
  induction s as [|c s IH]; [reflexivity|]. cbn.
  destruct (isSpace c); cbn; lia.
Qed.

(** A single-spaced text has one piece more than white-space
    characters. *)
Lemma splitFrom_spaces (b : bool) (t : string) :
  singleSpaced b t = true -> List.length (splitFrom b t) = spaces t + 1.
Proof.
  revert b. induction t as [|c t IH]; intros b; [reflexivity|].
  cbn [singleSpaced splitFrom spaces]. destruct (isSpace c).
  - destruct b; cbn [negb andb]; [discriminate|]. intros H.
    cbn [List.length]. rewrite (IH true H). lia.
  - intros H. specialize (IH false H).
    destruct (splitFrom false t); cbn [List.length] in *; lia.
Qed.

Lemma tidyFrom_singleSpaced (b : bool) (t : string) :
  tidyFrom b t = true -> singleSpaced b t = true.
Proof.
  revert b. induction t as [|c t IH]; intros b; [reflexivity|].
  cbn. destruct (isSpace c).
  - intros H. apply andb_prop in H as [H1 H2]. rewrite H1. apply IH, H2.
  - apply IH.
Qed.

Lemma singleSpaced_weaken (b : bool) (t : string) :
  singleSpaced b t = true -> singleSpaced false t = true.
Proof.
  destruct t as [|c t]; [reflexivity|]. cbn.
  destruct (isSpace c); [|auto]. intros H. apply andb_prop in H as [_ H]. exact H.
Qed.

(** Every match of the sentence-end pattern ends at a white-space
    character or at the end of the text. *)
Lemma sentenceEndsFrom_spaces (run s : string) :
  List.length (sentenceEndsFrom run s) <= spaces s + 1.
Proof.
  revert run. induction s as [|c s IH]; intros run; cbn [sentenceEndsFrom spaces].
  - destruct (isEmpty run); cbn; lia.
  - destruct (isTerminator c).
    + specialize (IH (run ++ String c EmptyString)). lia.
    + destruct (isSpace c); cbn [andb].
      * destruct (negb (isEmpty run)); cbn [List.length];
          specialize (IH EmptyString); lia.
      * specialize (IH EmptyString). lia.
Qed.

Lemma totalLength_splitFrom (b : bool) (s : string) :
  totalLength (splitFrom b s)
  = String.length (keepChars (fun c => negb (isSpace c)) s).
Proof.
  revert b. induction s as [|c s IH]; intros b; [reflexivity|].
  cbn [splitFrom keepChars]. destruct (isSpace c); cbn [negb].
  - destruct b; [apply IH|]. cbn [totalLength fold_right String.length].
    apply (IH true).
  - specialize (IH false). cbn [String.length]. rewrite <- IH.
    destruct (splitFrom false s); cbn; lia.
Qed.

Lemma length_le_totalLength (l : list string) :
  Forall (fun w => w <> EmptyString) l -> List.length l <= totalLength l.
Proof.
  induction 1 as [|w l Hw _ IH]; [reflexivity|]. cbn.
  destruct w; [congruence|]. cbn. unfold totalLength in IH. lia.
Qed.

Lemma isNewline_isSpace (c : ascii) : isNewline c = true -> isSpace c = true.
Proof.
  unfold isNewline, isSpace, inRange. intros H. apply N.eqb_eq in H. rewrite H.
  reflexivity.
Qed.

Lemma collapseFrom_no_newline (b : bool) (s : string) :
  allChars (fun c => negb (isNewline c)) (collapseFrom b s) = true.
Proof.
  revert b. induction s as [|c s IH]; intros b; [reflexivity|].
  cbn [collapseFrom]. destruct (isSpace c) eqn:Ec.
  - destruct b; [apply IH|]. cbn [allChars]. rewrite IH. reflexivity.
  - cbn [allChars]. rewrite IH.
    destruct (isNewline c) eqn:En; [|reflexivity].
    apply isNewline_isSpace in En. congruence.
Qed.

Lemma trimStart_allChars (p : ascii -> bool) (s : string) :
  allChars p s = true -> allChars p (trimStart s) = true.
Proof.
  induction s as [|c s IH]; [reflexivity|]. cbn [trimStart].
  destruct (isSpace c); [|auto]. cbn. intros H. apply andb_prop in H as [_ H]. auto.
Qed.

Lemma trimEnd_allChars (p : ascii -> bool) (s : string) :
  allChars p s = true -> allChars p (trimEnd s) = true.
Proof.
  induction s as [|c s IH]; [reflexivity|]. cbn [trimEnd allChars]. intros H.
  apply andb_prop in H as [Hc Hs].
  destruct (isSpace c && isEmpty (trimEnd s)); [reflexivity|].
  cbn [allChars]. rewrite Hc. apply IH, Hs.
Qed.

Lemma cleanedText_no_newline (s : string) :
  allChars (fun c => negb (isNewline c)) (cleanedText s) = true.
Proof.
  unfold cleanedText, trim, collapseSpaces.
  apply trimEnd_allChars, trimStart_allChars, collapseFrom_no_newline.
Qed.

Lemma append_assoc (a b c : string) : ((a ++ b) ++ c = a ++ (b ++ c))%string.
Proof. induction a as [|x a IH]; [reflexivity|]. cbn. rewrite IH. reflexivity. Qed.

(** A text without line feeds is one paragraph. *)
Lemma splitBlankFrom_no_newline (cur s : string) :
  allChars (fun c => negb (isNewline c)) s = true ->
  splitBlankFrom cur None s = [(cur ++ s)%string].
Proof.
  revert cur. induction s as [|c s IH]; intros cur H.
  - cbn. rewrite append_empty_r. reflexivity.
  - cbn [allChars] in H. apply andb_prop in H as [Hc Hs].
    cbn [splitBlankFrom]. apply negb_true_iff in Hc. rewrite Hc.
    rewrite (IH _ Hs), append_assoc. reflexivity.
Qed.

End ContentFacts.

(** X13.  The counts of [countText] fit together.  The characters
    without white space are no more than the characters, which are no
    more than the characters of the text; every word has a character
    that is not white space, and every sentence end lies in a word of its
    own, so [sentences <= words <= charactersNoSpaces]; and a text with
    words has exactly one space between two words:
    [characters = charactersNoSpaces + words - 1]. *)
Theorem countText_consistent (text : string) :
  let r := countText text in
  (0 <= charactersNoSpaces r <= characters r)%Z /\
  (characters r <= lengthZ text)%Z /\
  (0 <= sentences r <= words r)%Z /\
  (words r <= charactersNoSpaces r)%Z /\
  ((0 < words r)%Z -> characters r = (charactersNoSpaces r + words r - 1)%Z) /\
  (words r = 0%Z <-> characters r = 0%Z).
Proof.
  cbv zeta. unfold countText.
  cbn [characters charactersNoSpaces words sentences].
  fold (cleanedText text).
  pose proof (cleanedText_length text) as Hlen.
  pose proof (cleanedText_tidy text) as Htidy.
  pose proof (spaces_keepChars (cleanedText text)) as Hsp.
  unfold lengthZ, countZ.
  destruct (cleanedText text) as [|c t] eqn:E.
  - cbn. repeat split; try lia.
  - destruct Htidy as [Ht|Ht]; [discriminate|].
    cbn [isEmpty].
    pose proof (splitFrom_tidy _ _ Ht) as (Hs1 & _ & Hs3).
    specialize (Hs3 eq_refl).
    pose proof (splitFrom_spaces false _
                  (singleSpaced_weaken _ _ (tidyFrom_singleSpaced _ _ Ht))) as Hw.
    pose proof (totalLength_splitFrom false (String c t)) as Htot.
    pose proof (length_le_totalLength _ Hs3) as Hle.
    pose proof (sentenceEndsFrom_spaces EmptyString (String c t)) as Hse.
    unfold splitSpaces, matchSentenceEnds.
    assert (List.length (orEmpty (match sentenceEndsFrom "" (String c t) with
                                  | [] => None
                                  | s :: l => Some (s :: l)
                                  end))
            = List.length (sentenceEndsFrom "" (String c t))) as ->
        by (destruct (sentenceEndsFrom "" (String c t)); reflexivity).
    assert (0 < String.length (String c t)) by (cbn; lia).
    repeat split; try lia.
Qed.

Lemma countText_consistent_witness :
  let r := countText "  One two.  Three!  " in
  (0 < words r)%Z /\ characters r = (charactersNoSpaces r + words r - 1)%Z.
Proof.
  cbv zeta. split; [reflexivity|].
  refine (proj1 (proj2 (proj2 (proj2 (proj2 (countText_consistent _))))) _).
  reflexivity.
Defined.

(** X14.  [countText] counts the cleaned text, so counting a text that
    was cleaned before gives the same characters, words, sentences and
    reading time; only the paragraphs can differ, since cleaning removes
    the line breaks. *)
Theorem countText_cleaned (text : string) :
  let r := countText text in
  let r' := countText (cleanedText text) in
  characters r' = characters r /\
  charactersNoSpaces r' = charactersNoSpaces r /\
  words r' = words r /\
  sentences r' = sentences r /\
  readingTimeMin r' = readingTimeMin r /\
  (paragraphs r' <= 1)%Z /\
  characters r = lengthZ (cleanedText text).
Proof.
  cbv zeta. unfold countText.
  cbn [characters charactersNoSpaces words sentences readingTimeMin paragraphs].
  fold (cleanedText (cleanedText text)). fold (cleanedText text).
  rewrite cleanedText_idem. repeat split.
  assert (trim (cleanedText text) = cleanedText text) as ->
      by (unfold cleanedText; apply trim_idem).
  destruct (isEmpty (cleanedText text)) eqn:E; [lia|].
  unfold splitBlankLines.
  rewrite (splitBlankFrom_no_newline _ _ (cleanedText_no_newline text)).
  cbn [filter]. destruct (negb _); cbn; lia.
Qed.

(** X15.  [analyzeContent] counts the words of the title and of the
    description as [countText] would, though it splits the trimmed
    string itself; the characters it reports for each of the two are
    those of the whole string, white space included, so never fewer than
    the characters that [countText] counts.  Its score is one of 0, 40,
    70 and 100: 0 exactly when the body has no character that is not
    white space, and 100 exactly from 300 words on. *)
Theorem analyzeContent_counts (bodyText title : string) (descMeta : option attribute) :
  let r := analyzeContent bodyText title descMeta in
  let description := match descMeta with Some a => valueOr a "" | None => "" end in
  Content.stats r = countText bodyText /\
  Content.words (Content.title r) = words (countText title) /\
  Content.words (Content.description r) = words (countText description) /\
  Content.characters (Content.title r) = lengthZ title /\
  (characters (countText title) <= Content.characters (Content.title r))%Z /\
  Content.characters (Content.description r) = lengthZ description /\
  (characters (countText description)
   <= Content.characters (Content.description r))%Z /\
  (Content.score r = 0%Z <-> allChars isSpace bodyText = true) /\
  (Content.score r = 100%Z <-> (300 <= words (countText bodyText))%Z) /\
  In (Content.score r) [0; 40; 70; 100]%Z.
Proof.
  cbv zeta. unfold analyzeContent.
  cbn [Content.stats Content.title Content.description Content.words
       Content.characters Content.score].
  rewrite !trimmedWords_countText, <- words_zero_iff.
  pose proof (words_nonneg bodyText) as Hw.
  pose proof (cleanedText_length title) as Hl.
  set (description := match descMeta with Some a => valueOr a "" | None => "" end).
  pose proof (cleanedText_length description) as Hd.
  assert (characters (countText title) = lengthZ (cleanedText title)) as -> by reflexivity.
  assert (characters (countText description) = lengthZ (cleanedText description))
    as -> by reflexivity.
  unfold lengthZ.
  destruct (300 <=? words (countText bodyText))%Z eqn:E1;
    [|destruct (100 <=? words (countText bodyText))%Z eqn:E2;
      [|destruct (0 <? words (countText bodyText))%Z eqn:E3]];
    repeat split; intros; try lia; cbn [In]; auto.
Qed.

(** ** [extractSchemaTypes] and [analyzeSchema] *)

Section SchemaFacts.

(** Induction on a parsed value, through its arrays and objects. *)
Lemma json_induction (P : json -> Prop) :
  P JNull -> (forall b, P (JBool b)) -> (forall x, P (JNumber x)) ->
  (forall s, P (JString s)) ->
  (forall items, Forall P items -> P (JArray items)) ->
  (forall props, Forall (fun kv => P (snd kv)) props -> P (JObject props)) ->
  forall data, P data.
Proof.
  intros Hn Hb Hx Hs Ha Ho. fix IH 1. intros [ |b|x|s|items|props].
  - exact Hn.
  - apply Hb.
  - apply Hx.
  - apply Hs.
  - apply Ha. induction items as [|i items IHi]; constructor; [apply IH|exact IHi].
  - apply Ho. induction props as [|[k v] props IHp]; constructor; [apply IH|exact IHp].
Qed.

Lemma SFeqb_finite (s1 s2 : bool) (m1 m2 : positive) (e1 e2 : Z) :
  SFeqb (S754_finite s1 m1 e1) (S754_finite s2 m2 e2) = true ->
  s1 = s2 /\ m1 = m2 /\ e1 = e2.
Proof.
  unfold SFeqb. cbn [SFcompare].
  change (Pos.compare_cont Eq m1 m2) with (Pos.compare m1 m2).
  destruct s1, s2; try discriminate;
    destruct (Z.compare_spec e1 e2) as [->| |]; try discriminate;
    destruct (Pos.compare_spec m1 m2) as [->| |]; cbn; try discriminate; auto.
Qed.

Lemma SFeqb_finite_refl (s : bool) (m : positive) (e : Z) :
  SFeqb (S754_finite s m e) (S754_finite s m e) = true.
Proof.
  unfold SFeqb. cbn [SFcompare].
  change (Pos.compare_cont Eq m m) with (Pos.compare m m).
  rewrite Z.compare_refl, Pos.compare_refl. destruct s; reflexivity.
Qed.

Lemma sameValueZero_trans (a b c : jsvalue) :
  sameValueZero a b = true -> sameValueZero b c = true -> sameValueZero a c = true.
Proof.
  destruct a as [[ |x|x|x|x|x]|], b as [[ |y|y|y|y|y]|]; cbn [sameValueZero];
    try discriminate; intros H1;
    destruct c as [[ |z|z|z|z|z]|]; cbn [sameValueZero]; try discriminate; intros H2;
    try reflexivity.
  - apply Bool.eqb_prop in H1, H2. subst. apply Bool.eqb_reflx.
  - destruct x as [sx|sx| |sx mx ex], y as [sy|sy| |sy my ey];
      try discriminate H1;
      destruct z as [sz|sz| |sz mz ez]; try discriminate H2; try reflexivity;
      try (destruct sx, sy, sz; try discriminate H1; try discriminate H2; reflexivity).
    rewrite orb_false_r in H1, H2.
    apply SFeqb_finite in H1 as (-> & -> & ->).
    apply SFeqb_finite in H2 as (-> & -> & ->).
    rewrite SFeqb_finite_refl. reflexivity.
  - apply String.eqb_eq in H1, H2. subst. apply String.eqb_refl.
Qed.

Lemma includesValue_cons (x v : jsvalue) (s : list jsvalue) :
  includesValue (x :: s) v = sameValueZero v x || includesValue s v.
Proof. reflexivity. Qed.

Lemma includesValue_same (s : list jsvalue) (v x : jsvalue) :
  sameValueZero v x = true -> includesValue s x = true -> includesValue s v = true.
Proof.
  intros Hvx H. unfold includesValue in *. apply existsb_exists in H as (k & Hk & Hxk).
  apply existsb_exists. exists k. split; [exact Hk|].
  apply (sameValueZero_trans v x k Hvx Hxk).
Qed.

Lemma uniqueFrom_app (s a b : list jsvalue) :
  uniqueFrom s (a ++ b)
  = (uniqueFrom s a ++ uniqueFrom (rev (uniqueFrom s a) ++ s) b)%list.
Proof.
  revert s. induction a as [|x a IH]; intros s; [reflexivity|].
  cbn [app uniqueFrom]. destruct (includesValue s x); [apply IH|].
  cbn [app rev]. rewrite IH, <- app_assoc. reflexivity.
Qed.

(** Removing the repetitions twice, the second time with more values
    seen, is removing them once. *)
Lemma uniqueFrom_uniqueFrom (S K l : list jsvalue) :
  (forall v, includesValue S v = true -> includesValue K v = true) ->
  uniqueFrom K (uniqueFrom S l) = uniqueFrom K l.
Proof.
  revert S K. induction l as [|x l IH]; intros S K H; [reflexivity|].
  cbn [uniqueFrom]. destruct (includesValue S x) eqn:ES.
  - rewrite (H _ ES). apply IH, H.
  - cbn [uniqueFrom]. destruct (includesValue K x) eqn:EK.
    + apply IH. intros v Hv. rewrite includesValue_cons in Hv.
      apply orb_prop in Hv as [Hv|Hv]; [|apply H, Hv].
      apply (includesValue_same K v x Hv EK).
    + f_equal. apply IH. intros v Hv. rewrite includesValue_cons in *.
      apply orb_prop in Hv as [Hv|Hv]; [rewrite Hv; reflexivity|].
      rewrite (H _ Hv). apply orb_true_r.
Qed.

Lemma unique_app_l (a b : list jsvalue) : unique (unique a ++ b) = unique (a ++ b).
Proof.
  unfold unique. rewrite !uniqueFrom_app, uniqueFrom_uniqueFrom by auto. reflexivity.
Qed.

Lemma unique_app_r (a b : list jsvalue) : unique (a ++ unique b) = unique (a ++ b).
Proof.
  unfold unique. rewrite !uniqueFrom_app. f_equal.
  apply uniqueFrom_uniqueFrom. discriminate.
Qed.

Lemma unique_idem (a : list jsvalue) : unique (unique a) = unique a.
Proof. unfold unique. apply uniqueFrom_uniqueFrom. auto. Qed.

Lemma uniqueFrom_fresh (s l : list jsvalue) (v : jsvalue) :
  In v (uniqueFrom s l) -> includesValue s v = false /\ In v l.
Proof.
  revert s. induction l as [|x l IH]; intros s; [contradiction|].
  cbn [uniqueFrom]. destruct (includesValue s x) eqn:E.
  - intros H. destruct (IH _ H). auto using in_cons.
  - intros [<-|H]; [split; [exact E|left; reflexivity]|].
    destruct (IH _ H) as [Hi Hl]. rewrite includesValue_cons in Hi.
    apply orb_false_elim in Hi as [_ Hi]. auto using in_cons.
Qed.

Lemma uniqueFrom_distinct (s l : list jsvalue) : distinct (uniqueFrom s l).
Proof.
  revert s. induction l as [|x l IH]; intros s; [constructor|].
  cbn [uniqueFrom]. destruct (includesValue s x); [apply IH|].
  constructor; [|apply IH]. apply Forall_forall. intros v Hv.
  apply uniqueFrom_fresh in Hv as [Hv _]. rewrite includesValue_cons in Hv.
  apply orb_false_elim in Hv as [Hv _]. exact Hv.
Qed.

(** A string that occurs is kept, unless it was seen before. *)
Lemma uniqueFrom_keeps_string (t : string) (s l : list jsvalue) :
  In (Some (JString t)) l ->
  In (Some (JString t)) (uniqueFrom s l) \/ includesValue s (Some (JString t)) = true.
Proof.
  revert s. induction l as [|x l IH]; intros s; [contradiction|].
  cbn [uniqueFrom]. intros [->|H].
  - destruct (includesValue s (Some (JString t))); [right; reflexivity|].
    left. left. reflexivity.
  - destruct (includesValue s x) eqn:E; [apply IH, H|].
    destruct (IH (x :: s) H) as [Hi|Hi]; [left; right; exact Hi|].
    rewrite includesValue_cons in Hi. apply orb_prop in Hi as [Hi|Hi]; [|auto].
    left. left. destruct x as [[ |y|y|y|y|y]|]; try discriminate Hi.
    apply String.eqb_eq in Hi. subst. reflexivity.
Qed.

Lemma extractSchemaTypes_declared (data : json) :
  extractSchemaTypes data = unique (declaredTypes data).
Proof.
  induction data as [ |b|x|s|items IH|props IH] using json_induction;
    try reflexivity.
  - cbn [extractSchemaTypes declaredTypes].
    induction IH as [|i items Hi _ IHitems]; [reflexivity|].
    rewrite Hi, unique_app_l, <- unique_app_r, IHitems, unique_app_r. reflexivity.
  - cbn [extractSchemaTypes declaredTypes].
    set (own := match getProp props "@type" with
                | Some t => if isTruthy t then [firstType t] else []
                | None => []
                end).
    clearbody own.
    induction IH as [|[k v] props Hv _ IHprops]; [reflexivity|].
    cbn [snd] in Hv. destruct (String.eqb "@graph" k); [|exact IHprops].
    destruct (isTruthy v); [|reflexivity].
    rewrite Hv, unique_app_r. reflexivity.
Qed.

Lemma collectJsonLd_fold (scripts : list (option json))
    (types : list jsvalue) (jsonLd : list json) :
  fold_left collectJsonLd scripts (types, jsonLd) =
  ((types ++ flat_map extractSchemaTypes (parsed scripts))%list,
   (jsonLd ++ parsed scripts)%list).
Proof.
  revert types jsonLd. induction scripts as [|[data|] scripts IH]; intros types jsonLd.
  - cbn. rewrite !app_nil_r. reflexivity.
  - cbn [fold_left collectJsonLd fst snd]. rewrite IH.
    unfold parsed. cbn [flat_map app]. rewrite <- !app_assoc. reflexivity.
  - cbn [fold_left collectJsonLd]. apply IH.
Qed.

Lemma pushNew_spec (types : list jsvalue) (type : string) :
  pushNew types type <> [] /\ exists rest, pushNew types type = (types ++ rest)%list.
Proof.
  unfold pushNew. destruct (includesValue types (Some (JString type))) eqn:E.
  - split; [|exists []; rewrite app_nil_r; reflexivity].
    destruct types; [discriminate E|discriminate].
  - split; [destruct types; discriminate|eauto].
Qed.

Lemma collectItemtype_fold (itemtypes : list string)
    (types : list jsvalue) (microdata : list string) :
  let r := fold_left collectItemtype itemtypes (types, microdata) in
  snd r = (microdata
           ++ map (fun t => pop (splitOn "/" t))
                  (filter (fun t => negb (isEmpty t)) itemtypes))%list /\
  (exists rest, fst r = (types ++ rest)%list) /\
  (fst r = [] <-> types = [] /\ forallb isEmpty itemtypes = true).
Proof.
  cbv zeta. revert types microdata.
  induction itemtypes as [|t itemtypes IH]; intros types microdata.
  - cbn. rewrite app_nil_r. split; [reflexivity|]. split; [|tauto].
    exists []. rewrite app_nil_r. reflexivity.
  - cbn [fold_left filter forallb]. unfold collectItemtype at 2 4 6.
    destruct (isEmpty t); cbn [negb andb fst snd]; [apply IH|].
    destruct (IH (pushNew types (pop (splitOn "/" t)))
                 (microdata ++ [pop (splitOn "/" t)])%list) as (I1 & (rest & I2) & I3).
    destruct (pushNew_spec types (pop (splitOn "/" t))) as [Hne [rest' Hr]].
    split; [rewrite I1, <- app_assoc; reflexivity|]. split.
    + exists (rest' ++ rest)%list. rewrite I2, Hr, app_assoc. reflexivity.
    + rewrite I3. split; [intros [H _]; contradiction|intros [_ H]; discriminate].
Qed.

Lemma collectTypeof_fold (typeofs : list string) (types : list jsvalue) :
  let r := fold_left collectTypeof typeofs types in
  (exists rest, r = (types ++ rest)%list) /\
  (r = [] <-> types = [] /\ forallb isEmpty typeofs = true).
Proof.
  cbv zeta. revert types. induction typeofs as [|t typeofs IH]; intros types.
  - cbn. split; [|tauto]. exists []. rewrite app_nil_r. reflexivity.
  - cbn [fold_left forallb]. unfold collectTypeof at 2 4.
    destruct (isEmpty t); cbn [andb]; [apply IH|].
    destruct (IH (pushNew types t)) as ((rest & I2) & I3).
    destruct (pushNew_spec types t) as [Hne [rest' Hr]]. split.
    + exists (rest' ++ rest)%list. rewrite I2, Hr, app_assoc. reflexivity.
    + rewrite I3. split; [intros [H _]; contradiction|intros [_ H]; discriminate].
Qed.

End SchemaFacts.

(** X16.  [extractSchemaTypes] returns the types that the parsed value
    declares - the first type of every object reached through arrays and
    [@graph] properties - in document order and without repetitions:
    removing the repetitions at every level of the recursion gives the
    same as removing them once at the end.  No two of the returned values
    are the same, a string is returned exactly when it is declared, and a
    value that is neither an array nor an object declares nothing. *)
Theorem extractSchemaTypes_unique (data : json) :
  extractSchemaTypes data = unique (declaredTypes data) /\
  distinct (extractSchemaTypes data) /\
  (forall t : string,
      In (Some (JString t)) (extractSchemaTypes data)
      <-> In (Some (JString t)) (declaredTypes data)) /\
  unique (extractSchemaTypes data) = extractSchemaTypes data /\
  extractSchemaTypes JNull = [] /\
  (forall s, extractSchemaTypes (JString s) = []) /\
  (forall x, extractSchemaTypes (JNumber x) = []) /\
  (forall b, extractSchemaTypes (JBool b) = []).
Proof.
  rewrite extractSchemaTypes_declared.
  split; [reflexivity|]. split; [apply uniqueFrom_distinct|].
  split; [|split; [apply unique_idem|repeat split]].
  intros t. split.
  - intros H. apply uniqueFrom_fresh in H as [_ H]. exact H.
  - intros H. destruct (uniqueFrom_keeps_string t [] _ H) as [Hi|Hi]; [exact Hi|].
    discriminate.
Qed.

(** X17.  [analyzeSchema] keeps every JSON-LD value that parsed, and its
    types begin with the types of those values, script by script (a
    type that two scripts declare is listed twice).  The score is 0
    exactly when no type was found at all - no type in a JSON-LD script,
    no [itemtype] and no [typeof] that is not empty - and otherwise 50,
    plus 20 with a JSON-LD script, plus 15 from two types on and 15 more
    from four: it is 100 exactly with a JSON-LD script and four types,
    and at most 80 without a JSON-LD script. *)
Theorem analyzeSchema_score (page : Schema.Page) :
  let r := analyzeSchema page in
  let ld := parsed (Schema.jsonLdScripts page) in
  Schema.jsonLd r = ld /\
  (exists rest, Schema.types r = (flat_map extractSchemaTypes ld ++ rest)%list) /\
  Schema.microdata r
  = map (fun t => pop (splitOn "/" t))
        (filter (fun t => negb (isEmpty t)) (Schema.itemtypes page)) /\
  (Schema.types r = [] <->
   flat_map extractSchemaTypes ld = [] /\
   forallb isEmpty (Schema.itemtypes page) = true /\
   forallb isEmpty (Schema.typeofs page) = true) /\
  (Schema.score r = 0%Z <-> Schema.types r = []) /\
  (Schema.score r = 100%Z <->
   Schema.jsonLd r <> [] /\ 4 <= List.length (Schema.types r)) /\
  (Schema.jsonLd r = [] -> (Schema.score r <= 80)%Z) /\
  In (Schema.score r) [0; 50; 65; 70; 80; 85; 100]%Z.
Proof.
  cbv zeta. unfold analyzeSchema. rewrite collectJsonLd_fold. cbn [app].
  set (ld := parsed (Schema.jsonLdScripts page)).
  pose proof (collectItemtype_fold (Schema.itemtypes page)
                (flat_map extractSchemaTypes ld) []) as H1.
  cbv zeta in H1.
  destruct (fold_left collectItemtype (Schema.itemtypes page) _) as [types1 microdata].
  cbn [fst snd app] in H1. destruct H1 as (-> & (rest1 & E1) & Z1).
  pose proof (collectTypeof_fold (Schema.typeofs page) types1) as H2.
  cbv zeta in H2. destruct H2 as ((rest2 & E2) & Z2).
  set (types := fold_left collectTypeof (Schema.typeofs page) types1) in *.
  cbn [Schema.jsonLd Schema.types Schema.microdata Schema.score].
  split; [reflexivity|]. split.
  { exists (rest1 ++ rest2)%list. rewrite E2, E1, app_assoc. reflexivity. }
  split; [reflexivity|]. split; [rewrite Z2, Z1; tauto|].
  assert (types = [] <-> List.length types = 0) as Hnil
      by (destruct types; cbn; split; intros; try discriminate; reflexivity).
  assert (ld = [] <-> List.length ld = 0) as Hld
      by (destruct ld; cbn; split; intros; try discriminate; reflexivity).
  rewrite Hnil.
  destruct (List.length types) as [|[|[|[|n]]]]; cbn [Nat.eqb Nat.leb];
    destruct (List.length ld) as [|m] eqn:El; cbn [Nat.ltb Nat.leb];
    repeat split; intros; settle;
    try (rewrite Hld in *; congruence).
Qed.

Lemma analyzeSchema_score_witness :
  let page := {| Schema.jsonLdScripts := [None];
                 Schema.itemtypes := ["https://schema.org/Product"; ""];
                 Schema.typeofs := ["Person"] |} in
  Schema.jsonLd (analyzeSchema page) = [] /\
  (Schema.score (analyzeSchema page) <= 80)%Z.
Proof.
  cbv zeta. split; [reflexivity|].
  refine (proj1 (proj2 (proj2 (proj2 (proj2 (proj2 (proj2 (analyzeSchema_score _))))))) _).
  reflexivity.
Defined.

(** ** [analyzeSchemaValidation] *)

Section ValidationFacts.

Lemma isMissing_hasField (props : list (string * json)) (f : string) :
  isMissing props f = negb (hasField props f || hasField props (toLowerCase f)).
Proof.
  unfold isMissing, hasField. rewrite negb_orb. reflexivity.
Qed.

Lemma length_eqb_nil {A : Type} (l : list A) :
  (List.length l =? 0) = true <-> l = [].
Proof.
  destruct l; simpl; split; intros H; congruence.
Qed.

Lemma prototypeNames_no_entry (k : string) :
  has prototypeNames k = true -> lookupFields requiredFields k = None.
Proof.
  intros H. destruct (lookupFields requiredFields k) as [fields|] eqn:E; [|reflexivity].
  exfalso. revert E. cbn [lookupFields requiredFields].
  repeat match goal with
         | |- context [String.eqb k ?n] =>
             destruct (String.eqb_spec k n) as [->|_]; [discriminate H|]
         end.
  discriminate.
Qed.

Lemma requiredFor_throws (type : json) :
  requiredFor type = None <-> throwingType type = true.
Proof.
  unfold requiredFor, throwingType.
  destruct (throwsAsKey type); [split; reflexivity|]. cbn [orb].
  destruct (typeKey type) as [k|]; [|split; discriminate].
  destruct (has prototypeNames k) eqn:Ek.
  - rewrite (prototypeNames_no_entry k Ek). split; reflexivity.
  - destruct (lookupFields requiredFields k); split; discriminate.
Qed.

Lemma validateItem_wellFormed (item : json) (r : Validation.Result) :
  validateItem item = Some (Some r) -> wellFormed r.
Proof.
  unfold validateItem. destruct item as [ |b|x|s|items|props]; try discriminate.
  destruct (getProp props "@type") as [t|]; [|discriminate].
  destruct (firstType t) as [type|]; [|discriminate].
  destruct (isTruthy type) eqn:Et; [|discriminate].
  destruct (requiredFor type) as [required|] eqn:Er; [|discriminate].
  intros H. injection H as <-. unfold wellFormed. cbn.
  split; [exact Et|]. split.
  { destruct (throwingType type) eqn:E; [|reflexivity].
    apply requiredFor_throws in E. congruence. }
  split; [apply length_eqb_nil|].
  assert (hasEntry type = false -> required = []) as Hn.
  { unfold hasEntry, requiredFor in *. destruct (throwsAsKey type); [discriminate|].
    destruct (typeKey type) as [k|]; [|congruence].
    destruct (lookupFields requiredFields k); [discriminate|].
    destruct (has prototypeNames k); [discriminate|]. congruence. }
  split.
  - intros f Hf. apply filter_In in Hf. destruct Hf as [Hf _].
    unfold requiredFor in Er. destruct (throwsAsKey type); [discriminate|].
    destruct (typeKey type) as [k|].
    + destruct (lookupFields requiredFields k) as [fields|] eqn:El.
      * injection Er as <-. exists k, fields. auto.
      * destruct (has prototypeNames k); [discriminate|].
        injection Er as <-. destruct Hf.
    + injection Er as <-. destruct Hf.
  - intros He. rewrite (Hn He). reflexivity.
Qed.


Lemma validateItems_wellFormed (items : list json) :
  forall results, Forall wellFormed results ->
  Forall wellFormed (validateItems items results).
Proof.
  induction items as [|item items IH]; intros results H; simpl; [exact H|].
  destruct (validateItem item) as [[r|]|] eqn:E; [|apply IH; exact H|exact H].
  apply IH. apply Forall_app. split; [exact H|].
  constructor; [|constructor]. exact (validateItem_wellFormed _ _ E).
Qed.

Lemma validateScript_wellFormed (script : option json) (results : list Validation.Result) :
  Forall wellFormed results -> Forall wellFormed (validateScript results script).
Proof.
  intros H. unfold validateScript. destruct script as [data|]; [|exact H].
  destruct (itemsOf data) as [items|]; [|exact H].
  apply validateItems_wellFormed. exact H.
Qed.

Lemma fold_validateScript_wellFormed (scripts : list (option json)) :
  forall results, Forall wellFormed results ->
  Forall wellFormed (fold_left validateScript scripts results).
Proof.
  induction scripts as [|s scripts IH]; intros results H; simpl; [exact H|].
  apply IH, validateScript_wellFormed, H.
Qed.


End ValidationFacts.

(** X25. Every result of the schema validation is well formed.  Whatever
    the JSON-LD scripts hold, each result has a truthy type, on which
    neither the lookup in the table nor the call of [filter] throws; it
    is valid exactly when its list of missing fields is empty; each
    missing field is a required field of the entry that the table has
    for its type; and a result whose type names no entry of the table is
    valid. *)
Theorem analyzeSchemaValidation_results (scripts : list (option json)) :
  Forall (fun r =>
    isTruthy (Validation.type r) = true /\
    throwingType (Validation.type r) = false /\
    (Validation.valid r = true <-> Validation.missingFields r = []) /\
    (forall f, In f (Validation.missingFields r) ->
       exists k fields, typeKey (Validation.type r) = Some k /\
         lookupFields requiredFields k = Some fields /\ In f fields) /\
    (hasEntry (Validation.type r) = false -> Validation.valid r = true))
    (analyzeSchemaValidation scripts).
Proof.
  apply (fold_validateScript_wellFormed scripts []). constructor.
Qed.

(** X26. One item of a known type.  For a script that is one object
    without a [@graph] property and whose [@type] is a name of the table,
    the validation returns one result; its missing fields are the
    required fields, in the order of the table, for which the object has
    no truthy value, neither under the name nor under the name in lower
    case; its field count is the number of the keys that do not start
    with an at sign. *)
Theorem analyzeSchemaValidation_item (props : list (string * json))
    (k : string) (fields : list string) :
  getProp props "@graph" = None ->
  getProp props "@type" = Some (JString k) ->
  lookupFields requiredFields k = Some fields ->
  exists r, analyzeSchemaValidation [Some (JObject props)] = [r] /\
    Validation.type r = JString k /\
    Validation.missingFields r =
      filter (fun f => negb (hasField props f || hasField props (toLowerCase f)))
             fields /\
    (Validation.valid r = true <->
       forall f, In f fields ->
         hasField props f = true \/ hasField props (toLowerCase f) = true) /\
    Validation.fieldCount r =
      List.length (filter (fun key => negb (startsWith key "@")) (map fst props)).
Proof.
  intros Hg Ht Hl.
  assert (isEmpty k = false) as Ek.
  { destruct k; [|reflexivity]. discriminate Hl. }
  unfold analyzeSchemaValidation. cbn [fold_left validateScript itemsOf].
  rewrite Hg. cbn [validateItems validateItem]. rewrite Ht.
  cbn [firstType isTruthy]. rewrite Ek. cbn [negb].
  unfold requiredFor. cbn [throwsAsKey typeKey]. rewrite Hl.
  eexists. split; [reflexivity|]. cbn.
  split; [reflexivity|]. split.
  { apply filter_ext. intros f. apply isMissing_hasField. }
  split; [|reflexivity].
  rewrite length_eqb_nil. split.
  - intros Hnil f Hf.
    destruct (hasField props f) eqn:E1; [left; reflexivity|].
    destruct (hasField props (toLowerCase f)) eqn:E2; [right; reflexivity|].
    assert (In f (filter (isMissing props) fields)) as Hin.
    { apply filter_In. split; [exact Hf|]. rewrite isMissing_hasField, E1, E2. reflexivity. }
    rewrite Hnil in Hin. destruct Hin.
  - intros Hall. destruct (filter (isMissing props) fields) as [|f l] eqn:E; [reflexivity|].
    assert (In f (filter (isMissing props) fields)) as Hin by (rewrite E; left; reflexivity).
    apply filter_In in Hin. destruct Hin as [Hf Hm].
    rewrite isMissing_hasField in Hm. destruct (Hall f Hf) as [H|H]; rewrite H in Hm;
      [discriminate Hm|rewrite orb_true_r in Hm; discriminate Hm].
Qed.

Lemma analyzeSchemaValidation_item_witness :
  exists r,
    analyzeSchemaValidation
      [Some (JObject [("@type", JString "Person"); ("Name", JString "Ada")])] = [r] /\
    Validation.missingFields r = ["name"] /\ Validation.fieldCount r = 1.
Proof.
  destruct (analyzeSchemaValidation_item
              [("@type", JString "Person"); ("Name", JString "Ada")]
              "Person" ["name"] eq_refl eq_refl eq_refl)
    as (r & H1 & _ & H2 & _ & H3).
  exists r. split; [exact H1|]. split; [exact H2|exact H3].
Defined.



(** ** [analyzeLazyImages] and [analyzeIframes] *)

Section FramesFacts.

Lemma collectLazy_fold (images : list LazyImg.Element) (r : LazyImages.Results) :
  fold_left collectLazy images r =
  {| LazyImages.total := LazyImages.total r;
     LazyImages.lazy := LazyImages.lazy r + countIf (loadingIs "lazy") images;
     LazyImages.eager := LazyImages.eager r + countIf (loadingIs "eager") images;
     LazyImages.noAttribute :=
       LazyImages.noAttribute r
       + countIf (fun img => negb (loadingIs "lazy" img || loadingIs "eager" img)) images;
     LazyImages.dataSrcPattern :=
       LazyImages.dataSrcPattern r + countIf hasDataSrc images |}.
Proof.
  revert r. induction images as [|img images IH]; intros r.
  - destruct r. cbn. rewrite !Nat.add_0_r. reflexivity.
  - cbn [fold_left]. rewrite IH. unfold collectLazy.
    cbn [LazyImages.total LazyImages.lazy LazyImages.eager LazyImages.noAttribute
         LazyImages.dataSrcPattern].
    rewrite !countIf_cons, plusIf_eq.
    assert (loadingIs "lazy" img = true -> loadingIs "eager" img = false) as Hx.
    { unfold loadingIs. destruct (LazyImg.loading img) as [l|]; [|reflexivity].
      intros H. apply String.eqb_eq in H. subst l. reflexivity. }
    destruct (loadingIs "lazy" img) eqn:E1.
    + rewrite (Hx eq_refl). cbn [orb negb]. f_equal; lia.
    + destruct (loadingIs "eager" img); cbn [orb negb]; f_equal; lia.
Qed.

Lemma push_fold {A B : Type} (f : A -> B) (l : list A) (acc : list B) :
  fold_left (fun items x => (items ++ [f x])%list) l acc = (acc ++ map f l)%list.
Proof.
  revert acc. induction l as [|x l IH]; intros acc; cbn.
  - rewrite app_nil_r. reflexivity.
  - rewrite IH, <- app_assoc. reflexivity.
Qed.

Lemma orElse_filled (s alt : string) : isEmpty alt = false -> isEmpty (orElse s alt) = false.
Proof.
  intros H. unfold orElse. destruct (isEmpty s) eqn:E; [exact H|exact E].
Qed.

Lemma valueOr_filled (a : attribute) (alt : string) :
  isEmpty alt = false -> isEmpty (valueOr a alt) = false.
Proof.
  intros H. destruct a as [s|]; cbn; [apply orElse_filled|]; exact H.
Qed.

Lemma iframeType_unknown (src : string) :
  iframeType src = "unknown" <-> src = "".
Proof.
  split.
  - unfold iframeType.
    repeat match goal with
           | |- context [if ?b then _ else _] => destruct b eqn:?; try discriminate
           end.
    intros _. destruct src; [reflexivity|discriminate].
  - intros ->. reflexivity.
Qed.

Lemma substringTo_isEmpty (n : nat) (s : string) :
  0 < n -> isEmpty (substringTo n s) = isEmpty s.
Proof.
  intros Hn. destruct n as [|n]; [lia|]. destruct s; reflexivity.
Qed.

End FramesFacts.

(** X28. The loading counts of [analyzeLazyImages] split the images:
    every image is counted once, as lazy, as eager or as without the
    attribute, so [lazy + eager + noAttribute = total], the number of
    images.  The attribute is compared as written: only the exact values
    "lazy" and "eager" count, and any other value (one in capitals, say)
    is counted as no attribute.  The images with a data source are at
    most [total]. *)
Theorem analyzeLazyImages_counts (images : list LazyImg.Element) :
  let r := analyzeLazyImages images in
  LazyImages.total r = List.length images /\
  LazyImages.lazy r + LazyImages.eager r + LazyImages.noAttribute r = LazyImages.total r /\
  LazyImages.lazy r = countIf (fun img => isSome (LazyImg.loading img)
                                 && String.eqb (valueOr (LazyImg.loading img) "") "lazy") images /\
  LazyImages.eager r = countIf (fun img => isSome (LazyImg.loading img)
                                 && String.eqb (valueOr (LazyImg.loading img) "") "eager") images /\
  LazyImages.dataSrcPattern r <= LazyImages.total r.
Proof.
  cbv zeta. unfold analyzeLazyImages. rewrite collectLazy_fold.
  cbn [LazyImages.total LazyImages.lazy LazyImages.eager LazyImages.noAttribute
       LazyImages.dataSrcPattern Nat.add].
  assert (forall v img, isEmpty v = false ->
            loadingIs v img = isSome (LazyImg.loading img)
                              && String.eqb (valueOr (LazyImg.loading img) "") v) as Hl.
  { intros v img Hv. unfold loadingIs. destruct (LazyImg.loading img) as [l|]; [|reflexivity].
    cbn. unfold orElse. destruct l; [|reflexivity]. cbn. destruct v; [discriminate|reflexivity]. }
  split; [reflexivity|]. split.
  { induction images as [|img images IH]; [reflexivity|].
    rewrite !countIf_cons. cbn [List.length].
    assert (loadingIs "lazy" img = true -> loadingIs "eager" img = false) as Hx.
    { unfold loadingIs. destruct (LazyImg.loading img) as [l|]; [|reflexivity].
      intros H. apply String.eqb_eq in H. subst l. reflexivity. }
    destruct (loadingIs "lazy" img) eqn:E1.
    - rewrite (Hx eq_refl). cbn [orb negb]. lia.
    - destruct (loadingIs "eager" img); cbn [orb negb]; lia. }
  split; [apply countIf_ext; intros img; apply Hl; reflexivity|].
  split; [apply countIf_ext; intros img; apply Hl; reflexivity|].
  apply countIf_le.
Qed.

(** X29. The items of [analyzeIframes].  [count] is the number of
    iframes, and [items] holds the first twenty of them at most, in
    order.  In every item the source has 150 characters at most and the
    title 60 at most; the width, the height and the loading are never
    empty; and the type is "unknown" exactly when the source is empty,
    that is when the iframe has no [src] attribute or an empty one. *)
Theorem analyzeIframes_items (iframes : list Iframe.Element) :
  let r := analyzeIframes iframes in
  Iframes.count r = List.length iframes /\
  Iframes.items r = map iframeItem (firstn 20 iframes) /\
  List.length (Iframes.items r) = Nat.min 20 (Iframes.count r) /\
  Forall (fun item =>
    String.length (Iframes.src item) <= 150 /\
    String.length (Iframes.title item) <= 60 /\
    isEmpty (Iframes.width item) = false /\
    isEmpty (Iframes.height item) = false /\
    isEmpty (Iframes.loading item) = false /\
    (Iframes.type item = "unknown" <-> Iframes.src item = ""))
    (Iframes.items r) /\
  (forall iframe,
     Iframes.type (iframeItem iframe) = "unknown" <-> truthy (Iframe.src iframe) = false).
Proof.
  cbv zeta. unfold analyzeIframes. rewrite push_fold. cbn [app Iframes.count Iframes.items].
  rewrite <- firstn_map.
  assert (forall iframe, Iframes.type (iframeItem iframe) = "unknown"
                         <-> valueOr (Iframe.src iframe) "" = "") as Hu.
  { intros iframe. cbn. apply iframeType_unknown. }
  split; [reflexivity|]. split; [reflexivity|]. split.
  { rewrite length_firstn, length_map. reflexivity. }
  split.
  - rewrite firstn_map. apply Forall_forall. intros item Hin.
    apply in_map_iff in Hin. destruct Hin as (iframe & <- & _).
    split; [apply substringTo_length|]. split; [apply substringTo_length|].
    split; [apply orElse_filled; reflexivity|].
    split; [apply orElse_filled; reflexivity|].
    split; [apply valueOr_filled; reflexivity|].
    rewrite Hu. cbn [Iframes.src iframeItem].
    split.
    + intros ->. reflexivity.
    + intros H. assert (isEmpty (substringTo 150 (valueOr (Iframe.src iframe) "")) = true) as He
        by (rewrite H; reflexivity).
      rewrite substringTo_isEmpty in He by lia.
      destruct (valueOr (Iframe.src iframe) ""); [reflexivity|discriminate He].
  - intros iframe. rewrite Hu. unfold valueOr, orElse, truthy.
    destruct (Iframe.src iframe) as [[|c s]|]; cbn; split; intros H;
      try reflexivity; try discriminate H.
Qed.

(** ** [analyzeKeywordDensity] *)

Section DensityFacts.

Lemma filter_map_commute {A B : Type} (p : B -> bool) (f : A -> B) (l : list A) :
  filter p (map f l) = map f (filter (fun a => p (f a)) l).
Proof.
  induction l as [|a l IH]; [reflexivity|]. cbn [map filter].
  destruct (p (f a)); cbn [map]; rewrite IH; reflexivity.
Qed.

Lemma termsFrom_length (cur : string) (pend : option ascii) (s : string) :
  List.length (termsFrom cur pend s)
  <= (if isEmpty cur then 0 else 1) + String.length s.
Proof.
  revert cur pend. induction s as [|c s IH]; intros cur pend; cbn [termsFrom].
  - destruct (isEmpty cur); cbn; lia.
  - cbn [String.length]. destruct (isAlnum c).
    + destruct pend as [j|].
      * specialize (IH (cur ++ String j (String c EmptyString)) None).
        destruct (isEmpty _), (isEmpty cur); lia.
      * specialize (IH (cur ++ String c EmptyString) None).
        destruct (isEmpty _), (isEmpty cur); lia.
    + destruct (isEmpty cur) eqn:Ec.
      * specialize (IH EmptyString None). cbn [isEmpty] in IH. lia.
      * destruct (isJoiner c && match pend with None => true | Some _ => false end).
        -- specialize (IH cur (Some c)). rewrite Ec in IH. lia.
        -- specialize (IH EmptyString None). cbn [isEmpty List.length] in *. lia.
Qed.

Lemma termsOf_length (text : string) :
  List.length (termsOf text) <= String.length text.
Proof.
  unfold termsOf, matchTerms.
  pose proof (termsFrom_length EmptyString None (toLowerCase text)) as H.
  rewrite toLowerCase_length in H. cbn [isEmpty] in H.
  destruct (termsFrom "" None (toLowerCase text)); cbn [orEmpty List.length] in *; lia.
Qed.

Lemma timesIn_In (words : list string) (term : string) :
  0 < timesIn words term -> In term words.
Proof.
  unfold timesIn. induction words as [|w words IH]; cbn; [lia|].
  destruct (String.eqb_spec w term) as [->|_]; [auto|]. intros H. right. apply IH, H.
Qed.

(** [getTermDensity]: the meaningful terms of the text that the body has,
    each with its occurrences. *)
Lemma getTermDensity_eq (bodyWords : list string) (totalWords : nat) (text : string) :
  let kept := filter (fun w => 0 <? timesIn bodyWords w)
                     (filter meaningfulTerm (termsOf text)) in
  getTermDensity bodyWords totalWords text =
  map (fun term =>
         {| Density.term := term;
            Density.count := timesIn bodyWords term;
            Density.density :=
              toFixedNum 2 (ofNat (timesIn bodyWords term) / ofNat totalWords
                            * ofZ 100)%num |}) kept.
Proof.
  cbv zeta. unfold getTermDensity. rewrite filter_map_commute. reflexivity.
Qed.

Lemma getTermDensity_Forall (bodyWords : list string) (totalWords : nat)
    (text : string) (P : Density.Term -> Prop) :
  (forall term,
      meaningfulTerm term = true -> 0 < timesIn bodyWords term ->
      P {| Density.term := term;
           Density.count := timesIn bodyWords term;
           Density.density :=
             toFixedNum 2 (ofNat (timesIn bodyWords term) / ofNat totalWords
                           * ofZ 100)%num |}) ->
  Forall P (getTermDensity bodyWords totalWords text).
Proof.
  intros H. rewrite getTermDensity_eq. apply Forall_forall. intros t Ht.
  apply in_map_iff in Ht as (term & <- & Hin).
  apply filter_In in Hin as [Hin Hc]. apply filter_In in Hin as [_ Hm].
  apply H; [exact Hm|]. apply Nat.ltb_lt, Hc.
Qed.

End DensityFacts.

(** X18.  [analyzeKeywordDensity] reports, for the title and for the
    first H1, the terms of more than two characters that are not stop
    words and that occur in the body, in the order of the text and as
    often as the text repeats them.  The count of a reported term is the
    number of its occurrences among the terms of the body: at least 1 and
    at most [totalWords].  A body without terms gives no term at all. *)
Theorem analyzeKeywordDensity_terms (title : string) (h1 : option string)
    (bodyText : string) :
  let r := analyzeKeywordDensity title h1 bodyText in
  let body := termsOf bodyText in
  let h1Text := match h1 with Some t => trim t | None => "" end in
  Density.totalWords r = List.length body /\
  map Density.term (Density.titleTerms r)
  = filter (fun w => 0 <? timesIn body w) (filter meaningfulTerm (termsOf title)) /\
  map Density.term (Density.h1Terms r)
  = filter (fun w => 0 <? timesIn body w) (filter meaningfulTerm (termsOf h1Text)) /\
  Forall (fun t => Density.count t = timesIn body (Density.term t)
                   /\ 1 <= Density.count t <= Density.totalWords r
                   /\ In (Density.term t) body
                   /\ meaningfulTerm (Density.term t) = true)
         (Density.titleTerms r ++ Density.h1Terms r) /\
  (body = [] -> Density.titleTerms r = [] /\ Density.h1Terms r = []).
Proof.
  cbv zeta. unfold analyzeKeywordDensity. fold (termsOf bodyText).
  destruct (termsOf bodyText) as [|w body] eqn:E.
  - cbn. repeat split; try constructor.
    + induction (filter meaningfulTerm (termsOf title)); cbn; auto.
    + induction (filter meaningfulTerm (termsOf _)); cbn; auto.
  - cbn [List.length Nat.eqb Density.totalWords Density.titleTerms Density.h1Terms].
    split; [reflexivity|].
    split; [rewrite getTermDensity_eq, map_map; cbn [Density.term]; apply map_id|].
    split; [rewrite getTermDensity_eq, map_map; cbn [Density.term]; apply map_id|].
    split; [|discriminate].
    apply Forall_app. split; apply getTermDensity_Forall; intros term Hm Hc;
      cbn [Density.term Density.count];
      (split; [reflexivity|]); (split; [|split; [apply timesIn_In, Hc|exact Hm]]);
      (split; [lia|apply (filter_length_le _ (w :: body))]).
Qed.

Lemma analyzeKeywordDensity_terms_witness :
  let r := analyzeKeywordDensity "The Cat Hotel" (Some " Cat hotel? ") "" in
  termsOf "" = [] /\ Density.titleTerms r = [] /\ Density.h1Terms r = [].
Proof.
  cbv zeta. split; [reflexivity|].
  refine (proj2 (proj2 (proj2 (proj2 (analyzeKeywordDensity_terms _ _ _)))) _).
  reflexivity.
Defined.

(** X19.  Every density that [analyzeKeywordDensity] reports is a Number
    from 0 to 100: the count of a term is at most the number of terms of
    the body, and neither the division, nor the multiplication by 100,
    nor [toFixed(2)] rounds above 100. *)
Theorem analyzeKeywordDensity_density (title : string) (h1 : option string)
    (bodyText : string) :
  (lengthZ bodyText < 2 ^ 53)%Z ->
  let r := analyzeKeywordDensity title h1 bodyText in
  Forall (fun t => fromZeroTo 100 (Density.density t) = true)
         (Density.titleTerms r ++ Density.h1Terms r).
Proof.
  intros Hlen. cbv zeta. unfold analyzeKeywordDensity. fold (termsOf bodyText).
  pose proof (termsOf_length bodyText) as Hl. unfold lengthZ in Hlen.
  destruct (termsOf bodyText) as [|w body] eqn:E; [constructor|].
  cbn [List.length Nat.eqb Density.titleTerms Density.h1Terms].
  assert (forall term,
             fromZeroTo 100
               (toFixedNum 2 (ofNat (timesIn (w :: body) term)
                              / ofNat (S (List.length body)) * ofZ 100)%num) = true) as H.
  { intros term.
    destruct (ratio_atMost (timesIn (w :: body) term) (S (List.length body)))
      as [H1 H2].
    - apply (filter_length_le _ (w :: body)).
    - cbn [List.length] in Hl. lia.
    - destruct (fmul_atMost 1 100 _ ltac:(lia) ltac:(lia) ltac:(lia) H1 H2) as [H3 H4].
      destruct (toFixedNum_atMost 2 100 _ ltac:(lia) H3 H4) as [H5 H6].
      unfold fromZeroTo. rewrite H5, H6. reflexivity. }
  apply Forall_app. split; apply getTermDensity_Forall; intros term _ _;
    cbn [Density.density]; apply H.
Qed.

Lemma analyzeKeywordDensity_density_witness :
  let bodyText := "Cat hotel: a hotel for every cat. Book the hotel!" in
  let r := analyzeKeywordDensity "The Cat Hotel" None bodyText in
  (lengthZ bodyText < 2 ^ 53)%Z /\
  map Density.term (Density.titleTerms r) = ["cat"; "hotel"] /\
  map Density.count (Density.titleTerms r) = [2; 3] /\
  map Density.density (Density.titleTerms r) = [ofZ 20; ofZ 30] /\
  Forall (fun t => fromZeroTo 100 (Density.density t) = true)
         (Density.titleTerms r ++ Density.h1Terms r).
Proof.
  cbv zeta. split; [reflexivity|]. split; [reflexivity|]. split; [reflexivity|].
  split; [vm_compute; reflexivity|].
  apply (analyzeKeywordDensity_density
           "The Cat Hotel" None "Cat hotel: a hotel for every cat. Book the hotel!").
  reflexivity.
Defined.

(** ** The popup: the overall score and the bars *)

Section PopupFacts.

Lemma num_eqb_eq (x y : num) : num_eqb x y = true -> x = y.
Proof.
  destruct x as [a|a| |a m e], y as [b|b| |b n f]; cbn [num_eqb];
    intros H; try discriminate; try reflexivity.
  - apply Bool.eqb_prop in H. congruence.
  - apply Bool.eqb_prop in H. congruence.
  - apply andb_prop in H as [H He]. apply andb_prop in H as [Hs Hm].
    apply Bool.eqb_prop in Hs. apply Pos.eqb_eq in Hm. apply Z.eqb_eq in He.
    congruence.
Qed.

Lemma forallb_below (p : nat -> bool) (n : nat) :
  forallb p (seq 0 n) = true -> forall k, k < n -> p k = true.
Proof.
  intros H k Hk. rewrite forallb_forall in H. apply H, in_seq. lia.
Qed.

(** Sums of scores are exact. *)
Lemma fadd_small (a b : nat) :
  a <= 600 -> b <= 100 -> (ofNat a + ofNat b)%num = ofNat (a + b).
Proof.
  intros Ha Hb. apply num_eqb_eq.
  assert (forallb (fun a => forallb (addsExactly a) (seq 0 101)) (seq 0 601) = true) as H
      by (vm_compute; reflexivity).
  apply (forallb_below _ _ (forallb_below _ _ H a ltac:(lia)) b). lia.
Qed.

Lemma seventh_small (s : nat) :
  s <= 700 -> Math_round (ofNat s / ofNat 7)%num = ofNat ((2 * s + 7) / 14).
Proof.
  intros Hs. apply num_eqb_eq.
  assert (forallb seventhRounds (seq 0 701) = true) as H by (vm_compute; reflexivity).
  apply (forallb_below _ _ H s). lia.
Qed.

Lemma Math_max_eight (k : nat) :
  k <= 100 -> Math_max (ofZ 8) (ofNat k) = ofNat (Nat.max 8 k).
Proof.
  intros Hk. apply num_eqb_eq.
  assert (forallb maxWithEight (seq 0 101) = true) as H by (vm_compute; reflexivity).
  apply (forallb_below _ _ H k). lia.
Qed.

Lemma ofZ_ofNat (k : Z) : (0 <= k)%Z -> ofZ k = ofNat (Z.to_nat k).
Proof. intros H. unfold ofNat. rewrite Z2Nat.id by exact H. reflexivity. Qed.

(** The sum of seven scores from 0 to 100, as [displayResults] adds
    them. *)
Lemma sum_of_seven (k1 k2 k3 k4 k5 k6 k7 : Z) :
  (0 <= k1 <= 100)%Z -> (0 <= k2 <= 100)%Z -> (0 <= k3 <= 100)%Z ->
  (0 <= k4 <= 100)%Z -> (0 <= k5 <= 100)%Z -> (0 <= k6 <= 100)%Z ->
  (0 <= k7 <= 100)%Z ->
  overallScore [ofZ k1; ofZ k2; ofZ k3; ofZ k4; ofZ k5; ofZ k6; ofZ k7]
  = ofZ ((2 * (k1 + k2 + k3 + k4 + k5 + k6 + k7) + 7) / 14).
Proof.
  intros H1 H2 H3 H4 H5 H6 H7. unfold overallScore. cbn [fold_left List.length].
  rewrite (ofZ_ofNat k1), (ofZ_ofNat k2), (ofZ_ofNat k3), (ofZ_ofNat k4),
    (ofZ_ofNat k5), (ofZ_ofNat k6), (ofZ_ofNat k7) by lia.
  change (ofZ 0) with (ofNat 0).
  rewrite !fadd_small by lia. rewrite seventh_small by lia.
  unfold ofNat. f_equal.
  rewrite Nat2Z.inj_div, Nat2Z.inj_add, Nat2Z.inj_mul, !Nat2Z.inj_add.
  rewrite !Z2Nat.id by lia. reflexivity.
Qed.

Lemma analyzeHeadings_score_range (hs : list Headings.Element) :
  (0 <= Headings.score (analyzeHeadings hs) <= 100)%Z.
Proof.
  rewrite analyzeHeadings_eq. cbn [Headings.score].
  destruct (List.length hs =? 0); [lia|].
  destruct (countLevel 1 hs =? 0); [|destruct (1 <? countLevel 1 hs)];
    destruct (isSome (firstSkip 0 (headingLevels hs))); lia.
Qed.

Lemma analyzeImages_score_eq (images : list Img.Element) :
  Images.score (analyzeImages images) =
  if List.length images =? 0 then ofZ 100
  else percent (countIf hasAltText images + countIf isDecorative images)
               (List.length images).
Proof.
  unfold analyzeImages.
  pose proof (collectImage_fold images
                {| Images.total := 0; Images.withAlt := 0;
                   Images.withoutAlt := 0; Images.decorative := 0 |} []) as H.
  cbv zeta in H.
  destruct (fold_left collectImage images _) as [stats items].
  cbn [fst snd Images.total Images.withAlt Images.withoutAlt Images.decorative
       Nat.add List.length] in H.
  destruct H as (-> & _). reflexivity.
Qed.

Lemma analyzeImages_score_range (images : list Img.Element) :
  (Z.of_nat (List.length images) < 2 ^ 53)%Z ->
  exists k : Z, Images.score (analyzeImages images) = ofZ k /\ (0 <= k <= 100)%Z.
Proof.
  intros Hlt. rewrite analyzeImages_score_eq.
  pose proof (kinds_sum images) as Hs.
  destruct images as [|img images].
  - exists 100%Z. split; [reflexivity|lia].
  - cbn [List.length Nat.eqb] in *. apply percent_range; lia.
Qed.

Lemma analyzeLinks_score_range (currentHost : string) (links : list Anchor.Element) :
  (90 <= Links.score (analyzeLinks currentHost links) <= 100)%Z.
Proof.
  rewrite analyzeLinks_eq. cbn [Links.score].
  destruct (0 <? Links.empty (linkStats currentHost links)); lia.
Qed.

Lemma analyzeSchema_score_range (page : Schema.Page) :
  (0 <= Schema.score (analyzeSchema page) <= 100)%Z.
Proof.
  unfold analyzeSchema.
  destruct (fold_left collectJsonLd _ _) as [types0 jsonLd].
  destruct (fold_left collectItemtype _ _) as [types1 microdata].
  cbn [Schema.score].
  destruct (List.length _ =? 0); [lia|].
  destruct (0 <? List.length jsonLd), (2 <=? List.length _), (4 <=? List.length _); lia.
Qed.

Lemma analyzeContent_score_range (bodyText title : string) (descMeta : option attribute) :
  (0 <= Content.score (analyzeContent bodyText title descMeta) <= 100)%Z.
Proof.
  unfold analyzeContent. cbn [Content.score].
  destruct (300 <=? _)%Z; [lia|]. destruct (100 <=? _)%Z; [lia|].
  destruct (0 <? _)%Z; lia.
Qed.

Lemma analyzeReadability_score_range (bodyText : string) :
  (0 <= score (analyzeReadability bodyText) <= 100)%Z.
Proof.
  unfold analyzeReadability. cbv zeta.
  destruct (isEmpty _ || _); [cbn; lia|]. cbn [score]. unfold scoreOf.
  destruct (fge _ (ofZ 60)); [lia|]. destruct (fge _ (ofZ 40)); [lia|].
  destruct (fge _ (ofZ 20)); lia.
Qed.

Lemma getTopN_sorted (counts : jsobject) (n : nat) :
  StronglySorted countGe (getTopN counts n).
Proof.
  unfold getTopN. apply StronglySorted_entries, StronglySorted_firstn, sortByCount_sorted.
  apply Forall_forall. intros e He. apply filter_In in He as [_ He]. exact He.
Qed.

Lemma fge_80_60 (f : num) : fge f (ofZ 80) = true -> fge f (ofZ 60) = true.
Proof.
  unfold fge.
  evaluate (ofZ 80).
  evaluate (ofZ 60).
  apply SFleb_finite_trans. reflexivity.
Qed.

End PopupFacts.

(** X20.  The overall score of the popup is a whole number from 13 to
    98 for every page that the analyzers return results for: it is the
    rounded mean of seven scores, of which the score of the meta tags is
    at most 88 and the score of the links at least 90.  It is the sum of
    the seven scores, divided by 7 and rounded half up. *)
Theorem overallScore_range (metaPage : Meta.Page) (meta : Meta.Results)
    (headings : list Headings.Element) (images : list Img.Element)
    (currentHost : string) (links : list Anchor.Element)
    (schemaPage : Schema.Page) (bodyText : string) :
  analyzeMeta metaPage = Some meta ->
  (Z.of_nat (List.length images) < 2 ^ 53)%Z ->
  let scores :=
    sectionScores meta (analyzeHeadings headings) (analyzeImages images)
      (analyzeLinks currentHost links) (analyzeSchema schemaPage)
      (analyzeContent bodyText (Meta.title metaPage) (Meta.descMeta metaPage))
      (analyzeReadability bodyText) in
  exists k : Z, overallScore scores = ofZ k /\ (13 <= k <= 98)%Z.
Proof.
  intros Hmeta Himg. cbv zeta. unfold sectionScores.
  assert (exists k1 : Z, Meta.score meta = ofZ k1 /\ (0 <= k1 <= 88)%Z) as (k1 & -> & H1).
  { unfold analyzeMeta in Hmeta.
    destruct (attributeOf (Meta.descMeta metaPage)) as [d|]; [|discriminate].
    destruct (attributeOf (Meta.robotsMeta metaPage)) as [b|]; [|discriminate].
    injection Hmeta as <-. cbn [Meta.score].
    destruct (percent_of_eight _ (passCount_metaItems metaPage d b)) as (k & E & Hin).
    exists k. split; [exact E|]. cbn [In] in Hin. lia. }
  destruct (analyzeImages_score_range images Himg) as (k3 & -> & H3).
  pose proof (analyzeHeadings_score_range headings) as H2.
  pose proof (analyzeLinks_score_range currentHost links) as H4.
  pose proof (analyzeSchema_score_range schemaPage) as H5.
  pose proof (analyzeContent_score_range bodyText (Meta.title metaPage)
                (Meta.descMeta metaPage)) as H6.
  pose proof (analyzeReadability_score_range bodyText) as H7.
  rewrite sum_of_seven by lia.
  eexists. split; [reflexivity|].
  split.
  - apply Z.div_le_lower_bound; lia.
  - apply Z.lt_succ_r, Z.div_lt_upper_bound; lia.
Qed.

Lemma overallScore_range_witness :
  exists meta,
    analyzeMeta metaExample = Some meta /\
    exists k : Z,
      overallScore
        (sectionScores meta (analyzeHeadings []) (analyzeImages [])
           (analyzeLinks "x.test" []) (analyzeSchema {| Schema.jsonLdScripts := [];
                                                      Schema.itemtypes := [];
                                                      Schema.typeofs := [] |})
           (analyzeContent "" (Meta.title metaExample) (Meta.descMeta metaExample))
           (analyzeReadability "")) = ofZ k /\ (13 <= k <= 98)%Z.
Proof.
  eexists. split; [reflexivity|].
  apply (overallScore_range metaExample _ [] [] "x.test" []
           {| Schema.jsonLdScripts := []; Schema.itemtypes := []; Schema.typeofs := [] |}
           ""); [reflexivity|vm_compute; reflexivity].
Defined.

(** X21.  The bar that the popup draws for an n-gram is from 8 to 100
    percent wide, and the bar of the first entry of a group is 100
    percent wide: the entries come from [getTopN], so every count is at
    least 2 and none is above the first. *)
Theorem barWidth_range (counts : jsobject) (n : nat) :
  Forall (fun e => (Z.of_nat (countValue (snd e)) < 2 ^ 53)%Z) counts ->
  forall top rest,
    getTopN counts n = top :: rest ->
    barWidth top top = ofZ 100 /\
    Forall (fun item => exists k : Z, barWidth item top = ofZ k /\ (8 <= k <= 100)%Z)
           (top :: rest).
Proof.
  intros Hc top rest E.
  pose proof (getTopN_sorted counts n) as Hs. rewrite E in Hs.
  apply StronglySorted_inv in Hs as [_ Hs].
  assert (forall item, In item (top :: rest) ->
            exists k, count item = Count k /\ 2 <= k
                      /\ (Z.of_nat k < 2 ^ 53)%Z) as Hitem.
  { intros item Hi. rewrite <- E in Hi. apply getTopN_In in Hi as [Hin Ha].
    rewrite Forall_forall in Hc. specialize (Hc _ Hin). cbn [snd] in Hc.
    destruct (count item) as [k|j]; [|discriminate]. exists k.
    cbn [atLeastTwo countValue] in Ha, Hc. apply Nat.leb_le in Ha. auto. }
  destruct (Hitem top (or_introl eq_refl)) as (kt & Et & Ht & Bt).
  assert (barWidth top top = ofZ 100) as Htop.
  { unfold barWidth. rewrite Et. cbn [countNumber].
    fold (percent kt kt). rewrite percent_all by lia. reflexivity. }
  split; [exact Htop|].
  constructor; [exists 100%Z; split; [exact Htop|lia]|].
  apply Forall_forall. intros item Hi.
  destruct (Hitem item (or_intror Hi)) as (ki & Ei & Hi2 & Bi).
  rewrite Forall_forall in Hs. specialize (Hs _ Hi). unfold countGe in Hs.
  rewrite Ei, Et in Hs. cbn [countValue] in Hs.
  unfold barWidth. rewrite Ei, Et. cbn [countNumber]. fold (percent ki kt).
  destruct (percent_range ki kt Hs ltac:(lia)) as (k & -> & Hk).
  rewrite (ofZ_ofNat k) by lia. rewrite Math_max_eight by lia.
  exists (Z.of_nat (Nat.max 8 (Z.to_nat k))). split; [reflexivity|lia].
Qed.

Lemma barWidth_range_witness :
  let counts := [("cat", Count 7); ("hotel", Count 3); ("once", Count 1);
                 ("mat", Count 2)] in
  Forall (fun e => (Z.of_nat (countValue (snd e)) < 2 ^ 53)%Z) counts /\
  map (fun item => barWidth item {| phrase := "cat"; count := Count 7 |})
      (getTopN counts 10) = [ofZ 100; ofZ 43; ofZ 29] /\
  barWidth {| phrase := "cat"; count := Count 7 |}
           {| phrase := "cat"; count := Count 7 |} = ofZ 100.
Proof.
  cbv zeta.
  assert (Forall (fun e => (Z.of_nat (countValue (snd e)) < 2 ^ 53)%Z)
            [("cat", Count 7); ("hotel", Count 3); ("once", Count 1); ("mat", Count 2)])
    as H by (repeat constructor).
  split; [exact H|]. split; [vm_compute; reflexivity|].
  exact (proj1 (barWidth_range _ 10 H _ _ eq_refl)).
Defined.

(** X23.  For a text of 30 words or more the popup colours the
    readability section by the Flesch score: "good" exactly when the
    status of the Flesch entry is "pass" (a score of 60 or more),
    "warning" from 40 to below 60, and "bad" below 40 - so the section
    is already "bad" from 20 to below 40, where the entry itself is only
    a "warn". *)
Theorem readability_score_class (bodyText : string) :
  (30 <= words (countText bodyText))%Z ->
  (lengthZ bodyText < 2 ^ 53)%Z ->
  let r := analyzeReadability bodyText in
  exists f,
    fleschEase r = Some f /\ message r = None /\
    (getScoreClass (ofZ (score r)) = "good" <-> snd (easeLabelOf f) = "pass") /\
    (getScoreClass (ofZ (score r)) = "good" <-> fge f (ofZ 60) = true) /\
    (getScoreClass (ofZ (score r)) = "warning" <->
     fge f (ofZ 40) = true /\ flt f (ofZ 60) = true) /\
    (getScoreClass (ofZ (score r)) = "bad" <-> flt f (ofZ 40) = true) /\
    (snd (easeLabelOf f) = "fail" <-> flt f (ofZ 20) = true).
Proof.
  intros Hw Hl. cbv zeta. rewrite (analyzeReadability_long bodyText Hw). cbv zeta.
  cbn [fleschEase message score].
  set (f := fleschEaseOf _ _ _).
  assert (notNaN f = true) as Hn
      by (apply fleschEaseOf_notNaN, wordCountOf_range; assumption).
  assert (notNaN (ofZ 60) = true /\ notNaN (ofZ 40) = true /\ notNaN (ofZ 20) = true)
    as (N60 & N40 & N20) by (repeat split; reflexivity).
  exists f. split; [reflexivity|]. split; [reflexivity|].
  rewrite !flt_negb_fge by assumption.
  pose proof (fge_80_60 f) as H86. pose proof (fge_60_40 f) as H64.
  pose proof (fge_40_20 f) as H42.
  unfold scoreOf, easeLabelOf.
  destruct (fge f (ofZ 80)), (fge f (ofZ 60)), (fge f (ofZ 40)), (fge f (ofZ 20));
    try discriminate (H86 eq_refl); try discriminate (H64 eq_refl);
    try discriminate (H42 eq_refl);
    cbn; repeat split; intros; settle.
Qed.

Lemma readability_score_class_witness :
  let r := analyzeReadability textEase599 in
  (30 <= words (countText textEase599))%Z /\
  (lengthZ textEase599 < 2 ^ 53)%Z /\
  getScoreClass (ofZ (score r)) = "warning" /\
  exists f, fleschEase r = Some f /\ fge f (ofZ 40) = true /\ flt f (ofZ 60) = true.
Proof.
  cbv zeta.
  assert (30 <= words (countText textEase599))%Z as Hw by (vm_compute; discriminate).
  assert (lengthZ textEase599 < 2 ^ 53)%Z as Hl by (vm_compute; reflexivity).
  split; [exact Hw|]. split; [exact Hl|]. split; [vm_compute; reflexivity|].
  destruct (readability_score_class textEase599 Hw Hl) as (f & E & _ & _ & _ & H & _).
  exists f. split; [exact E|]. apply H. vm_compute. reflexivity.
Defined.

(** ** More on [analyzeNgrams]: the totals *)

Section NgramTotals.

Lemma tokensFrom_length (cur pend s : string) :
  List.length (tokensFrom cur pend s)
  <= (if isEmpty cur then 0 else 1) + String.length s.
Proof.
  revert cur pend. induction s as [|c s IH]; intros cur pend; cbn [tokensFrom].
  - destruct (isEmpty cur); cbn; lia.
  - cbn [String.length]. destruct (isAlnum c).
    + specialize (IH (cur ++ pend ++ String c EmptyString) EmptyString).
      destruct (isEmpty _), (isEmpty cur); lia.
    + destruct (isJoiner c), (isEmpty cur) eqn:Ec.
      * specialize (IH EmptyString EmptyString). cbn [isEmpty] in IH. lia.
      * specialize (IH cur (pend ++ String c EmptyString)). rewrite Ec in IH. lia.
      * specialize (IH EmptyString EmptyString). cbn [isEmpty] in IH. lia.
      * specialize (IH EmptyString EmptyString). cbn [isEmpty List.length] in *. lia.
Qed.

Lemma ngramWords_length (bodyText : string) :
  List.length (ngramWords bodyText) <= String.length bodyText.
Proof.
  unfold ngramWords, matchTokens.
  pose proof (tokensFrom_length EmptyString EmptyString (toLowerCase bodyText)) as H.
  rewrite toLowerCase_length in H. cbn [isEmpty] in H.
  destruct (tokensFrom "" "" (toLowerCase bodyText)); cbn [orEmpty List.length] in *; lia.
Qed.

Lemma nodup_length (l : list string) :
  List.length (nodup string_dec l) <= List.length l.
Proof.
  induction l as [|x l IH]; [reflexivity|]. cbn [nodup].
  destruct (in_dec string_dec x l); cbn [List.length]; lia.
Qed.

Lemma nodup_nil (l : list string) : nodup string_dec l = [] <-> l = [].
Proof.
  split; [|intros ->; reflexivity].
  destruct l as [|x l]; [reflexivity|]. intros H.
  assert (In x (nodup string_dec (x :: l))) as Hin by (apply nodup_In; left; reflexivity).
  rewrite H in Hin. contradiction.
Qed.

(** No count is above the number of turns of the loop. *)
Lemma countGram_bound (ws : list string) (n : nat) (stops : option (list string))
    (counts : jsobject) (i t : nat) :
  Forall (fun e => countValue (snd e) <= t) counts ->
  Forall (fun e => countValue (snd e) <= S t) (countGram ws n stops counts i).
Proof.
  intros H. unfold countGram.
  destruct (skipsGram n stops (joinSpace (slice ws i (i + n)))).
  - apply Forall_impl with (2 := H). intros e He. lia.
  - apply setOwn_Forall.
    + apply Forall_impl with (2 := H). intros e He. lia.
    + cbn [snd]. unfold increment.
      destruct (getOwn counts (joinSpace (slice ws i (i + n)))) as [[m|j]|] eqn:E.
      * apply getOwn_In in E. rewrite Forall_forall in H. specialize (H _ E).
        cbn in *. lia.
      * cbn. lia.
      * destruct (inheritedKey _); cbn; lia.
Qed.

Lemma buildNgramCounts_bound (ws : list string) (n : nat) (stops : option (list string)) :
  Forall (fun e => countValue (snd e) <= List.length ws + 1 - n)
         (buildNgramCounts ws n stops).
Proof.
  unfold buildNgramCounts.
  assert (forall turns counts t,
             Forall (fun e => countValue (snd e) <= t) counts ->
             Forall (fun e => countValue (snd e) <= t + List.length turns)
                    (fold_left (countGram ws n stops) turns counts)) as F.
  { induction turns as [|i turns IH]; intros counts t H; cbn [fold_left List.length].
    - rewrite Nat.add_0_r. exact H.
    - replace (t + S (List.length turns)) with (S t + List.length turns) by lia.
      apply IH, countGram_bound, H. }
  specialize (F (seq 0 (List.length ws + 1 - n)) [] 0 (Forall_nil _)).
  rewrite length_seq in F. exact F.
Qed.

Lemma getTopN_bound (counts : jsobject) (n b : nat) :
  Forall (fun e => countValue (snd e) <= b) counts ->
  Forall (fun e => exists k, count e = Count k /\ 2 <= k <= b) (getTopN counts n).
Proof.
  intros H. apply Forall_forall. intros e He.
  apply getTopN_In in He as [Hin Ha].
  rewrite Forall_forall in H. specialize (H _ Hin). cbn [snd] in H.
  destruct (count e) as [k|j]; [|discriminate]. exists k.
  cbn [atLeastTwo countValue] in Ha, H. apply Nat.leb_le in Ha. auto.
Qed.

End NgramTotals.

(** X22.  The totals of [analyzeNgrams] bound everything it reports:
    there are no more unique words than words and no more words than
    characters, a text has unique words exactly when it has words, and
    the count of every reported word, pair and triple is at least 2 and
    at most [totalWords]. *)
Theorem analyzeNgrams_totals (bodyText : string) :
  let r := analyzeNgrams bodyText in
  uniqueWords r <= totalWords r /\
  totalWords r <= String.length bodyText /\
  (uniqueWords r = 0 <-> totalWords r = 0) /\
  Forall (fun e => exists k, count e = Count k /\ 2 <= k <= totalWords r)
         (unigrams r ++ bigrams r ++ trigrams r).
Proof.
  cbv zeta. unfold analyzeNgrams.
  cbn [uniqueWords totalWords unigrams bigrams trigrams].
  split; [apply nodup_length|]. split; [apply ngramWords_length|]. split.
  - rewrite !length_zero_iff_nil. apply nodup_nil.
  - pose proof (filter_length_le (fun w => negb (has stopWords w) && longer w)
                  (ngramWords bodyText)) as L1.
    pose proof (filter_length_le longer (ngramWords bodyText)) as L2.
    apply Forall_app; split; [|apply Forall_app; split]; apply getTopN_bound.
    + unfold unigramCounts, ngramFiltered.
      eapply Forall_impl; [|apply buildNgramCounts_bound]. cbn beta. intros e He. lia.
    + unfold bigramCounts.
      eapply Forall_impl; [|apply buildNgramCounts_bound]. cbn beta. intros e He. lia.
    + unfold trigramCounts.
      eapply Forall_impl; [|apply buildNgramCounts_bound]. cbn beta. intros e He. lia.
Qed.

(** ** [analyzeTextToHtml] *)

(** X24.  [analyzeTextToHtml] measures the text that [countText]
    measures.  With no HTML, or with no text, the ratio is 0 and the
    status "poor"; and as long as the text is not longer than the HTML,
    the ratio is a Number from 0 to 100. *)
Theorem analyzeTextToHtml_ratio (htmlSize : nat) (bodyText : string) :
  (Z.of_nat htmlSize < 2 ^ 53)%Z ->
  let r := analyzeTextToHtml htmlSize bodyText in
  Z.of_nat (TextToHtml.textSize r) = characters (countText bodyText) /\
  (htmlSize = 0 \/ allChars isSpace bodyText = true ->
   TextToHtml.ratio r = ofZ 0 /\ TextToHtml.status r = "poor") /\
  (TextToHtml.textSize r <= htmlSize ->
   fromZeroTo 100 (TextToHtml.ratio r) = true).
Proof.
  intros Hh. cbv zeta. unfold analyzeTextToHtml.
  cbn [TextToHtml.textSize TextToHtml.ratio TextToHtml.status].
  fold (cleanedText bodyText). split; [reflexivity|]. split.
  - intros [->|Hs]; [split; reflexivity|].
    rewrite (cleanedText_allSpace _ Hs). destruct htmlSize as [|h]; [split; reflexivity|].
    cbn [Nat.ltb Nat.leb String.length].
    destruct (ofNat_value (S h) ltac:(lia)) as (m & e & E & _). rewrite E.
    split; reflexivity.
  - intros Hle. destruct htmlSize as [|h]; [reflexivity|].
    cbn [Nat.ltb Nat.leb].
    destruct (ratio_atMost _ _ Hle ltac:(lia)) as [H1 H2].
    destruct (fmul_atMost 1 100 _ ltac:(lia) ltac:(lia) ltac:(lia) H1 H2) as [H3 H4].
    destruct (toFixedNum_atMost 1 100 _ ltac:(lia) H3 H4) as [H5 H6].
    unfold fromZeroTo. rewrite H5, H6. reflexivity.
Qed.

Lemma analyzeTextToHtml_ratio_witness :
  let r := analyzeTextToHtml 80 "  Seventeen letters  " in
  (Z.of_nat 80 < 2 ^ 53)%Z /\ TextToHtml.textSize r <= 80 /\
  TextToHtml.ratio r = literal 213 1 /\ TextToHtml.status r = "fair" /\
  fromZeroTo 100 (TextToHtml.ratio r) = true.
Proof.
  cbv zeta.
  assert (Z.of_nat 80 < 2 ^ 53)%Z as H by (vm_compute; reflexivity).
  split; [exact H|]. split; [vm_compute; lia|]. split; [vm_compute; reflexivity|].
  split; [vm_compute; reflexivity|].
  apply (proj2 (proj2 (analyzeTextToHtml_ratio 80 "  Seventeen letters  " H))).
  vm_compute. lia.
Defined.
